(** * Expense-Tracker: the persistence, query and conversion core

    A shallow embedding of
      - src/utils/dateUtils.js          (formatDateISO, isDateInRange)
      - src/utils/inputValidator.js     (validateCategory, validateSource,
                                         validateDescription, validateId)
      - src/config/constants.js         (category and source enumerations)
      - src/models/{Transaction,Expense,Income}.js
      - src/services/StorageService.js
      - src/services/TransactionService.js
      - src/services/ExchangeRateService.js
    and the properties the specification states about them.

    JavaScript numbers are IEEE-754 binary64 values: they are modelled by
    Rocq's primitive floats.  Time values (what [Date.prototype.getTime]
    returns) are integers in milliseconds and are modelled in [Z]; an
    Invalid Date is [None]. *)

From Stdlib Require Import PrimFloat ZArith String Ascii List Lia Bool.
From Stdlib Require Import Sorting.Sorted Sorting.Permutation.
From stdpp Require Import gmap strings list fin_maps pretty.

Set Warnings "-inexact-float".
Local Open Scope string_scope.
Local Open Scope list_scope.
Local Open Scope Z_scope.

(** ** JavaScript values *)

(** The dynamically typed values that reach the fields of a transaction.
    [VObject long] stands for any non-primitive value (array, plain object,
    function).  Beyond its type, the one thing the code reads of such a
    value is its [length], to compare it with 500; [long] is the outcome
    of that comparison. *)
Inductive JsVal :=
| VUndefined
| VNull
| VBool (b : bool)
| VNum (x : float)
| VStr (s : string)
| VObject (long : bool).

(** ToBoolean. *)
Definition truthy (v : JsVal) : bool :=
  match v with
  | VUndefined | VNull => false
  | VBool b => b
  | VNum x => negb (PrimFloat.is_zero x || PrimFloat.is_nan x)
  | VStr s => negb (String.eqb s "")
  | VObject _ => true
  end.

(** [v || d] *)
Definition js_or (v d : JsVal) : JsVal := if truthy v then v else d.

(** A parameter with a default value: the default applies to [undefined]
    only. *)
Definition default_param (d v : JsVal) : JsVal :=
  match v with VUndefined => d | _ => v end.

(** [isNaN] and [isFinite] on a value that is already a number. *)
Definition isNaN (x : float) : bool := PrimFloat.is_nan x.
Definition isFinite (x : float) : bool :=
  negb (PrimFloat.is_nan x || PrimFloat.is_infinity x).

(** Strings.  A string of the model is the UTF-8 text of a JavaScript
    string.  [s.length] counts UTF-16 code units: one for a character of
    the Basic Multilingual Plane (one to three bytes of UTF-8), two for any
    other character (four bytes); continuation bytes count nothing. *)
Definition code_units (c : ascii) : nat :=
  let n := nat_of_ascii c in
  if (n <? 128)%nat then 1%nat        (* a character of one byte *)
  else if (n <? 192)%nat then 0%nat   (* a continuation byte *)
  else if (n <? 240)%nat then 1%nat   (* first of two or three bytes *)
  else 2%nat.                         (* first of four bytes *)

Fixpoint js_length (s : string) : nat :=
  match s with
  | EmptyString => 0%nat
  | String c s' => (code_units c + js_length s')%nat
  end.

(** [Array.prototype.join] on strings. *)
Definition join (sep : string) (l : list string) : string := String.concat sep l.

(** [Array.prototype.includes] on strings. *)
Definition includes (l : list string) (s : string) : bool :=
  existsb (String.eqb s) l.

(** Plain objects.  An object written as a literal, or built by
    [JSON.parse], has its own properties and inherits those of
    [Object.prototype]: eleven functions and, under [__proto__],
    [Object.prototype] itself.  [obj[key]] finds an own property first,
    then an inherited one. *)
Definition Object_prototype_names : list string :=
  [ "constructor"; "__defineGetter__"; "__defineSetter__"; "hasOwnProperty";
    "__lookupGetter__"; "__lookupSetter__"; "isPrototypeOf";
    "propertyIsEnumerable"; "toString"; "valueOf"; "__proto__";
    "toLocaleString" ].

Inductive Property (A : Type) :=
| Own (a : A)                  (* an own property, with its value *)
| Inherited (name : string)    (* the member [name] of Object.prototype *)
| Absent.                      (* [undefined] *)
Arguments Own {A} a.
Arguments Inherited {A} name.
Arguments Absent {A}.

(** [obj[key]], for the object whose own properties are [own]. *)
Definition get_property {A} (own : gmap string A) (key : string) : Property A :=
  match own !! key with
  | Some a => Own a
  | None => if includes Object_prototype_names key then Inherited key else Absent
  end.

(** What [obj[key]] gives, as a value, when [obj] has no own property
    [key]: a member of Object.prototype, which is an object without a
    long [length], or [undefined]. *)
Definition inherited_member (key : string) : JsVal :=
  if includes Object_prototype_names key then VObject false else VUndefined.

(** [Array.prototype.sort(cmp)]: a stable sort.  [cmp a b] is the number the
    comparator returns, with NaN already read as 0 as the language
    prescribes; an element goes before the ones it compares [<= 0] with. *)
Section ArraySort.
Context {A : Type} (cmp : A -> A -> Z).

Fixpoint sort_insert (x : A) (l : list A) : list A :=
  match l with
  | [] => [x]
  | y :: l' => if cmp x y <=? 0 then x :: y :: l' else y :: sort_insert x l'
  end.

Fixpoint Array_sort (l : list A) : list A :=
  match l with
  | [] => []
  | x :: l' => sort_insert x (Array_sort l')
  end.
End ArraySort.

(** ** The date functions of the host

    [new Date(string)], the local calendar fields of a time value and
    [toISOString] belong to the JavaScript engine, and string parsing is
    implementation-defined outside the ISO forms.  The development is
    parametric in them. *)
Class Runtime := {
  (** time value of [new Date(s)] for a string [s]; [None] is Invalid Date *)
  Date_parse : string -> option Z;
  (** [`${getFullYear()}-${pad2(getMonth()+1)}-${pad2(getDate())}`] of a
      time value, in the local time zone *)
  localYMD : Z -> string;
  (** time value after [setHours(0, 0, 0, 0)]: local midnight of that day *)
  setHoursZero : Z -> Z;
  (** [toISOString()] of a time value *)
  toISOString : Z -> string
}.

(** A date argument as the code receives it ([@param {Date|string}]): a
    string, a Date object (with its time value), or nothing. *)
Inductive DateInput :=
| DStr (s : string)
| DObj (t : option Z)
| DUndef.

Definition date_truthy (d : DateInput) : bool :=
  match d with
  | DStr s => negb (String.eqb s "")
  | DObj _ => true
  | DUndef => false
  end.

Module DateUtils.

Definition is_digit (c : ascii) : bool :=
  let n := nat_of_ascii c in (48 <=? n)%nat && (n <=? 57)%nat.

Definition is_dash (c : ascii) : bool := Ascii.eqb c "-"%char.

(** [/^\d{4}-\d{2}-\d{2}$/.test(s)] *)
Definition isYMD (s : string) : bool :=
  match list_ascii_of_string s with
  | [y1; y2; y3; y4; d1; m1; m2; d2; a1; a2] =>
      is_digit y1 && is_digit y2 && is_digit y3 && is_digit y4 && is_dash d1
      && is_digit m1 && is_digit m2 && is_dash d2 && is_digit a1 && is_digit a2
  | _ => false
  end.

Section WithRuntime.
Context {RT : Runtime}.

(** [new Date(d)] *)
Definition new_Date (d : DateInput) : option Z :=
  match d with
  | DStr s => Date_parse s
  | DObj t => t
  | DUndef => None
  end.

(** formatDateISO: the storage form of a date, [''] when it is not a
valid date. *)
Definition formatDateISO (d : DateInput) : string :=
  match d with
  | DStr s =>
      match Date_parse s with
      | Some t => if isYMD s then s else localYMD t
      | None => ""
      end
  | DObj (Some t) => localYMD t
  | DObj None => ""
  | DUndef => ""
  end.

(** One bound of isDateInRange: a falsy or unparseable bound does not
constrain. *)
Definition not_before (check : Z) (startDate : DateInput) : bool :=
  if date_truthy startDate then
    match new_Date startDate with
    | Some s => negb (check <? setHoursZero s)
    | None => true
    end
  else true.

Definition not_after (check : Z) (endDate : DateInput) : bool :=
  if date_truthy endDate then
    match new_Date endDate with
    | Some e => negb (setHoursZero e <? check)
    | None => true
    end
  else true.

(** isDateInRange *)
Definition isDateInRange (date : string) (startDate endDate : DateInput) : bool :=
  match Date_parse date with
  | None => false
  | Some t =>
      let check := setHoursZero t in
      if negb (not_before check startDate) then false
      else if negb (not_after check endDate) then false
      else true
  end.
End WithRuntime.
End DateUtils.

(** ** Constants (src/config/constants.js) *)

Definition EXPENSE_CATEGORIES : list string :=
  ["Food"; "Transport"; "Utilities"; "Entertainment"; "Healthcare";
   "Shopping"; "Education"; "Other"].

Definition INCOME_SOURCES : list string :=
  ["Salary"; "Freelance"; "Investment"; "Gift"; "Business"; "Other"].

Record CurrencyOption := { co_symbol : string; co_name : string; co_code : string }.

Definition CURRENCY_OPTIONS : list CurrencyOption :=
  [ {| co_symbol := "$";  co_name := "US Dollar (USD)";       co_code := "USD" |};
    {| co_symbol := "€";  co_name := "Euro (EUR)";            co_code := "EUR" |};
    {| co_symbol := "£";  co_name := "British Pound (GBP)";   co_code := "GBP" |};
    {| co_symbol := "₹";  co_name := "Indian Rupee (INR)";    co_code := "INR" |};
    {| co_symbol := "¥";  co_name := "Japanese Yen (JPY)";    co_code := "JPY" |};
    {| co_symbol := "¥";  co_name := "Chinese Yuan (CNY)";    co_code := "CNY" |};
    {| co_symbol := "C$"; co_name := "Canadian Dollar (CAD)"; co_code := "CAD" |};
    {| co_symbol := "A$"; co_name := "Australian Dollar (AUD)"; co_code := "AUD" |};
    {| co_symbol := "Fr"; co_name := "Swiss Franc (CHF)";     co_code := "CHF" |};
    {| co_symbol := "R$"; co_name := "Brazilian Real (BRL)";  co_code := "BRL" |} ].

(** ** The transaction model (src/models) *)

(** A transaction object.  The same record is used for the class instances
    and for the items of the stored document; a property the object does not
    have reads [VUndefined] ([source] of an expense, [category] of an
    income). *)
Record Txn := {
  id : string;
  amount : JsVal;
  date : string;
  description : JsVal;
  currency : JsVal;
  createdAt : JsVal;
  category : JsVal;
  source : JsVal;
  type : string
}.

(** What the two impure calls of the constructor return when it runs:
    [new Date()] (as a time value) and [uuidv4()]. *)
Record Env := { now : Z; uuid : string }.

Record Validation := { isValid : bool; errors : list string }.

Definition mkValidation (errs : list string) : Validation :=
  {| isValid := (List.length errs =? 0)%nat; errors := errs |}.

Module Transaction.
Section WithRuntime.
Context {RT : Runtime}.

(** constructor(amount, date, description = '', currency = '$', id = null);
the variant-specific fields are filled in by the subclasses. *)
Definition new (env : Env) (amt : JsVal) (dt : DateInput)
    (desc cur : JsVal) (ident : option string) : Txn :=
  {| id := match ident with
           | Some i => if String.eqb i "" then uuid env else i
           | None => uuid env
           end;
     amount := amt;
     date := DateUtils.formatDateISO dt;
     description := default_param (VStr "") desc;
     currency := default_param (VStr "$") cur;
     createdAt := VStr (toISOString (now env));
     category := VUndefined;
     source := VUndefined;
     type := "" |}.

Definition amount_errors (a : JsVal) : list string :=
  match a with
  | VNum x =>
      if isNaN x then ["Amount cannot be NaN"]
      else if negb (isFinite x) then ["Amount must be finite"]
      else if PrimFloat.leb x 0 then ["Amount must be a positive number"]
      else []
  | _ => ["Amount must be a number"]
  end.

Definition date_errors (d : string) : list string :=
  if String.eqb d "" then ["Date is required"]
  else match Date_parse d with
       | None => ["Date must be a valid date"]
       | Some _ => []
       end.

Definition description_type_errors (d : JsVal) : list string :=
  match d with
  | VUndefined | VNull | VStr _ => []
  | _ => ["Description must be a string"]
  end.

(** [this.description && this.description.length > 500]: a boolean and a
number have no [length]. *)
Definition description_length_errors (d : JsVal) : list string :=
  match d with
  | VStr s => if (500 <? js_length s)%nat
              then ["Description is too long (max 500 characters)"] else []
  | VObject true => ["Description is too long (max 500 characters)"]
  | _ => []
  end.

(** validate() of the base class: the list of messages, in order. *)
Definition validate_errors (t : Txn) : list string :=
  amount_errors (amount t) ++ date_errors (date t)
  ++ description_type_errors (description t)
  ++ description_length_errors (description t).

Definition validate (t : Txn) : Validation := mkValidation (validate_errors t).
End WithRuntime.

(** toJSON() of the base class: the six shared fields. *)
Definition toJSON (t : Txn) : Txn :=
  {| id := id t; amount := amount t; date := date t;
     description := description t; currency := currency t;
     createdAt := createdAt t;
     category := VUndefined; source := VUndefined; type := "" |}.
End Transaction.

(** The check shared by [Expense.validate] (on [category]) and
    [Income.validate] (on [source]); [what] is "Category" or "Source",
    [what_lc] its lower-case form. *)
Definition member_errors (what what_lc : string) (allowed : list string)
    (v : JsVal) : list string :=
  if negb (truthy v) then [what +:+ " is required"]
  else match v with
       | VStr s =>
           if includes allowed s then []
           else ["Invalid " +:+ what_lc +:+ ". Must be one of: " +:+ join ", " allowed]
       | _ => [what +:+ " must be a string"]
       end.

Module Expense.
Section WithRuntime.
Context {RT : Runtime}.

Definition new (env : Env) (amt : JsVal) (dt : DateInput)
    (cat desc cur : JsVal) (ident : option string) : Txn :=
  let t := Transaction.new env amt dt desc cur ident in
  {| id := id t; amount := amount t; date := date t;
     description := description t; currency := currency t;
     createdAt := createdAt t;
     category := cat; source := VUndefined; type := "expense" |}.

Definition category_errors (c : JsVal) : list string :=
  member_errors "Category" "category" EXPENSE_CATEGORIES c.

Definition validate (t : Txn) : Validation :=
  mkValidation (errors (Transaction.validate t) ++ category_errors (category t)).

Definition toJSON (t : Txn) : Txn :=
  let b := Transaction.toJSON t in
  {| id := id b; amount := amount b; date := date b;
     description := description b; currency := currency b;
     createdAt := createdAt b;
     category := category t; source := VUndefined; type := type t |}.

Definition fromJSON (env : Env) (json : Txn) : Txn :=
  let e := new env (amount json) (DStr (date json)) (category json)
               (js_or (description json) (VStr ""))
               (js_or (currency json) (VStr "$")) (Some (id json)) in
  {| id := id e; amount := amount e; date := date e;
     description := description e; currency := currency e;
     createdAt := createdAt json;
     category := category e; source := source e; type := type e |}.
End WithRuntime.
End Expense.

Module Income.
Section WithRuntime.
Context {RT : Runtime}.

Definition new (env : Env) (amt : JsVal) (dt : DateInput)
    (src desc cur : JsVal) (ident : option string) : Txn :=
  let t := Transaction.new env amt dt desc cur ident in
  {| id := id t; amount := amount t; date := date t;
     description := description t; currency := currency t;
     createdAt := createdAt t;
     category := VUndefined; source := src; type := "income" |}.

Definition source_errors (s : JsVal) : list string :=
  member_errors "Source" "source" INCOME_SOURCES s.

Definition validate (t : Txn) : Validation :=
  mkValidation (errors (Transaction.validate t) ++ source_errors (source t)).

Definition toJSON (t : Txn) : Txn :=
  let b := Transaction.toJSON t in
  {| id := id b; amount := amount b; date := date b;
     description := description b; currency := currency b;
     createdAt := createdAt b;
     category := VUndefined; source := source t; type := type t |}.

Definition fromJSON (env : Env) (json : Txn) : Txn :=
  let e := new env (amount json) (DStr (date json)) (source json)
               (js_or (description json) (VStr ""))
               (js_or (currency json) (VStr "$")) (Some (id json)) in
  {| id := id e; amount := amount e; date := date e;
     description := description e; currency := currency e;
     createdAt := createdAt json;
     category := category e; source := source e; type := type e |}.
End WithRuntime.
End Income.

(** ** Exceptions and state

    A method that touches the store is a function from the store's state to
    an outcome and the state it leaves.  A thrown error keeps the effects
    made before the throw, as in the language. *)

Inductive JsError :=
| SyntaxError (msg : string)
| TypeError (msg : string)
| Error (msg : string).

Definition error_message (e : JsError) : string :=
  match e with SyntaxError m | TypeError m | Error m => m end.

Inductive Outcome (A : Type) :=
| Return (a : A)
| Throw (e : JsError).
Arguments Return {A} a.
Arguments Throw {A} e.

Definition M (S A : Type) : Type := S -> Outcome A * S.

Definition ret {S A} (a : A) : M S A := fun s => (Return a, s).

Definition throw {S A} (e : JsError) : M S A := fun s => (Throw e, s).

Definition bind {S A B} (m : M S A) (k : A -> M S B) : M S B :=
  fun s => match m s with
           | (Return a, s') => k a s'
           | (Throw e, s') => (Throw e, s')
           end.

(** [try { m } catch (error) { handler error }] *)
Definition try_catch {S A} (m : M S A) (handler : JsError -> M S A) : M S A :=
  fun s => match m s with
           | (Return a, s') => (Return a, s')
           | (Throw e, s') => handler e s'
           end.

Notation "'let!' x ':=' m 'in' k" := (bind m (fun x => k))
  (at level 10, x name, m at level 100, k at level 200).
Notation "'do!' m 'in' k" := (bind m (fun _ => k))
  (at level 10, m at level 100, k at level 200).

Definition throws {A} (o : Outcome A) : bool :=
  match o with Throw _ => true | Return _ => false end.

(** ** The storage interface the Transaction Service is written against

    [TransactionService]'s constructor takes the storage object as an
    argument; the methods it calls on it are these. *)
Class Storage (S : Type) := {
  st_getExpenses : M S (list Txn);
  st_getIncome : M S (list Txn);
  st_addExpense : Txn -> M S unit;
  st_addIncome : Txn -> M S unit;
  st_updateExpense : string -> Txn -> M S bool;
  st_updateIncome : string -> Txn -> M S bool;
  st_deleteExpense : string -> M S bool;
  st_deleteIncome : string -> M S bool
}.

(** ** Transaction Service (src/services/TransactionService.js) *)

(** The result object [{ success, message, expense | income }]. *)
Record Result := { success : bool; message : string; payload : option Txn }.

(** [a === b] *)
Definition strict_eq (a b : JsVal) : bool :=
  match a, b with
  | VUndefined, VUndefined => true
  | VNull, VNull => true
  | VBool x, VBool y => Bool.eqb x y
  | VNum x, VNum y => PrimFloat.eqb x y
  | VStr x, VStr y => String.eqb x y
  | _, _ => false   (* two objects met here are never the same object *)
  end.

(** The [filters] argument of getTransactions; an absent key is
    [VUndefined] (resp. [DUndef]). *)
Record Filters := {
  f_type : JsVal;
  f_startDate : DateInput;
  f_endDate : DateInput;
  f_category : JsVal;
  f_source : JsVal
}.

Definition no_filters : Filters :=
  {| f_type := VUndefined; f_startDate := DUndef; f_endDate := DUndef;
     f_category := VUndefined; f_source := VUndefined |}.

(** The [updates] argument of updateExpense / updateIncome; an absent key is
    [VUndefined] (resp. [DUndef]). *)
Record Updates := {
  u_amount : JsVal;
  u_date : DateInput;
  u_category : JsVal;
  u_source : JsVal;
  u_description : JsVal;
  u_currency : JsVal
}.

Definition is_undefined (v : JsVal) : bool :=
  match v with VUndefined => true | _ => false end.

(** [u !== undefined ? u : old] *)
Definition override (u old : JsVal) : JsVal :=
  if is_undefined u then old else u.

(** [{ ...t, type: tag }] *)
Definition with_type (tag : string) (t : Txn) : Txn :=
  {| id := id t; amount := amount t; date := date t;
     description := description t; currency := currency t;
     createdAt := createdAt t; category := category t; source := source t;
     type := tag |}.

(** The object getSummary returns; [byCategory] and [bySource] keep their
    keys in insertion order. *)
Record Summary := {
  totalIncome : JsVal;
  totalExpenses : JsVal;
  balance : JsVal;
  byCategory : list (string * JsVal);
  bySource : list (string * JsVal);
  transactionCount : nat;
  expenseCount : nat;
  incomeCount : nat
}.

(** The arithmetic of the language on arbitrary values, used by getSummary
    only: [a + b], [a - b] and the property key a value converts to. *)
Class Arith := {
  js_add : JsVal -> JsVal -> JsVal;
  js_sub : JsVal -> JsVal -> JsVal;
  toPropertyKey : JsVal -> string
}.

(** [obj[k] = (obj[k] || 0) + v], on an object kept as the list of its
    own properties.  For a new key, [obj[k]] is what the object inherits.
    Assigning to [__proto__] adds no property: the sum is not an object,
    and the setter of [__proto__] ignores it. *)
Fixpoint bump `{Arith} (k : string) (v : JsVal) (obj : list (string * JsVal))
    : list (string * JsVal) :=
  match obj with
  | [] =>
      if String.eqb k "__proto__" then []
      else [(k, js_add (js_or (inherited_member k) (VNum 0)) v)]
  | (k', w) :: rest =>
      if String.eqb k' k then (k', js_add (js_or w (VNum 0)) v) :: rest
      else (k', w) :: bump k v rest
  end.

Module TransactionService.
Section WithStorage.
Context {RT : Runtime} {AR : Arith} {S : Type} {ST : Storage S}.

Definition failure (msg : string) : Result :=
  {| success := false; message := msg; payload := None |}.

Definition addExpense (env : Env) (amt : JsVal) (dt : DateInput)
    (cat desc cur : JsVal) : M S Result :=
  try_catch
    (let expense := Expense.new env amt dt cat
                      (default_param (VStr "") desc)
                      (default_param (VStr "$") cur) None in
     let validation := Expense.validate expense in
     if negb (isValid validation) then
       ret (failure (join ", " (errors validation)))
     else
       do! st_addExpense (Expense.toJSON expense) in
       ret {| success := true; message := "Expense added successfully";
              payload := Some (Expense.toJSON expense) |})
    (fun error => ret (failure ("Failed to add expense: " +:+ error_message error))).

Definition addIncome (env : Env) (amt : JsVal) (dt : DateInput)
    (src desc cur : JsVal) : M S Result :=
  try_catch
    (let income := Income.new env amt dt src
                     (default_param (VStr "") desc)
                     (default_param (VStr "$") cur) None in
     let validation := Income.validate income in
     if negb (isValid validation) then
       ret (failure (join ", " (errors validation)))
     else
       do! st_addIncome (Income.toJSON income) in
       ret {| success := true; message := "Income added successfully";
              payload := Some (Income.toJSON income) |})
    (fun error => ret (failure ("Failed to add income: " +:+ error_message error))).

(** The four filters, each a predicate on a tagged record. *)
Definition type_filter (f : Filters) (t : Txn) : bool :=
  if strict_eq (f_type f) (VStr "expense") then String.eqb (type t) "expense"
  else if strict_eq (f_type f) (VStr "income") then String.eqb (type t) "income"
  else true.

Definition date_filter (f : Filters) (t : Txn) : bool :=
  if date_truthy (f_startDate f) || date_truthy (f_endDate f)
  then DateUtils.isDateInRange (date t) (f_startDate f) (f_endDate f)
  else true.

Definition category_filter (f : Filters) (t : Txn) : bool :=
  if truthy (f_category f)
  then String.eqb (type t) "expense" && strict_eq (category t) (f_category f)
  else true.

Definition source_filter (f : Filters) (t : Txn) : bool :=
  if truthy (f_source f)
  then String.eqb (type t) "income" && strict_eq (source t) (f_source f)
  else true.

(** [new Date(b.date) - new Date(a.date)], NaN read as 0 by the sort. *)
Definition by_date_desc (a b : Txn) : Z :=
  match Date_parse (date b), Date_parse (date a) with
  | Some tb, Some ta => tb - ta
  | _, _ => 0
  end.

Definition select (f : Filters) (expenses income : list Txn) : list Txn :=
  let transactions :=
    List.map (with_type "expense") expenses ++ List.map (with_type "income") income in
  let transactions := List.filter (type_filter f) transactions in
  let transactions := List.filter (date_filter f) transactions in
  let transactions := List.filter (category_filter f) transactions in
  let transactions := List.filter (source_filter f) transactions in
  Array_sort by_date_desc transactions.

Definition getTransactions (f : Filters) : M S (list Txn) :=
  let! expenses := st_getExpenses in
  let! income := st_getIncome in
  ret (select f expenses income).

Definition summarize (transactions : list Txn) : Summary :=
  let step (acc : Summary) (t : Txn) : Summary :=
    if String.eqb (type t) "expense" then
      {| totalIncome := totalIncome acc;
         totalExpenses := js_add (totalExpenses acc) (amount t);
         balance := balance acc;
         byCategory := bump (toPropertyKey (js_or (category t) (VStr "Other")))
                            (amount t) (byCategory acc);
         bySource := bySource acc;
         transactionCount := transactionCount acc;
         expenseCount := Datatypes.S (expenseCount acc);
         incomeCount := incomeCount acc |}
    else
      {| totalIncome := js_add (totalIncome acc) (amount t);
         totalExpenses := totalExpenses acc;
         balance := balance acc;
         byCategory := byCategory acc;
         bySource := bump (toPropertyKey (js_or (source t) (VStr "Other")))
                          (amount t) (bySource acc);
         transactionCount := transactionCount acc;
         expenseCount := expenseCount acc;
         incomeCount := Datatypes.S (incomeCount acc) |} in
  let acc := List.fold_left step transactions
    {| totalIncome := VNum 0; totalExpenses := VNum 0; balance := VNum 0;
       byCategory := []; bySource := [];
       transactionCount := List.length transactions;
       expenseCount := 0; incomeCount := 0 |} in
  {| totalIncome := totalIncome acc; totalExpenses := totalExpenses acc;
     balance := js_sub (totalIncome acc) (totalExpenses acc);
     byCategory := byCategory acc; bySource := bySource acc;
     transactionCount := transactionCount acc;
     expenseCount := expenseCount acc; incomeCount := incomeCount acc |}.

Definition getSummary (f : Filters) : M S Summary :=
  let! transactions := getTransactions f in
  ret (summarize transactions).

(** [list.find(e => e.id === id) || null] *)
Definition find_by_id (ident : string) (l : list Txn) : option Txn :=
  List.find (fun e => String.eqb (id e) ident) l.

Definition getExpenseById (ident : string) : M S (option Txn) :=
  let! expenses := st_getExpenses in ret (find_by_id ident expenses).

Definition getIncomeById (ident : string) : M S (option Txn) :=
  let! income := st_getIncome in ret (find_by_id ident income).

Definition getTransactionById (ident : string) : M S (option Txn) :=
  let! expense := getExpenseById ident in
  match expense with
  | Some e => ret (Some (with_type "expense" e))
  | None =>
      let! income := getIncomeById ident in
      match income with
      | Some i => ret (Some (with_type "income" i))
      | None => ret None
      end
  end.

(** [e.id && e.id.startsWith(partialId)] *)
Definition id_starts_with (partialId : string) (e : Txn) : bool :=
  negb (String.eqb (id e) "") && String.prefix partialId (id e).

Definition findTransactionById (partialId : string)
  : M S (option (string * Txn)) :=
  let! expenses := st_getExpenses in
  let! income := st_getIncome in
  match List.find (id_starts_with partialId) expenses with
  | Some e => ret (Some ("expense", e))
  | None =>
      match List.find (id_starts_with partialId) income with
      | Some i => ret (Some ("income", i))
      | None => ret None
      end
  end.

Definition deleteExpense (ident : string) : M S Result :=
  try_catch
    (let! expense := getExpenseById ident in
     match expense with
     | None => ret (failure "Expense not found")
     | Some _ =>
         do! st_deleteExpense ident in
         ret {| success := true; message := "Expense deleted successfully";
                payload := None |}
     end)
    (fun error => ret (failure ("Failed to delete expense: " +:+ error_message error))).

Definition deleteIncome (ident : string) : M S Result :=
  try_catch
    (let! income := getIncomeById ident in
     match income with
     | None => ret (failure "Income not found")
     | Some _ =>
         do! st_deleteIncome ident in
         ret {| success := true; message := "Income deleted successfully";
                payload := None |}
     end)
    (fun error => ret (failure ("Failed to delete income: " +:+ error_message error))).

Definition deleteTransaction (ident : string) : M S Result :=
  let! transaction := getTransactionById ident in
  match transaction with
  | None => ret (failure "Transaction not found")
  | Some t =>
      if String.eqb (type t) "expense" then deleteExpense ident
      else deleteIncome ident
  end.

(** The date handed to the constructor by an update: always a Date
object, built from the update or from the stored string. *)
Definition update_date (u : DateInput) (stored : string) : DateInput :=
  match u with
  | DUndef => DObj (Date_parse stored)
  | _ => DObj (DateUtils.new_Date u)
  end.

Definition updatedExpense (env : Env) (expense : Txn) (u : Updates) : Txn :=
  Expense.new env
    (override (u_amount u) (amount expense))
    (update_date (u_date u) (date expense))
    (override (u_category u) (category expense))
    (override (u_description u) (description expense))
    (if is_undefined (u_currency u) then js_or (currency expense) (VStr "$")
     else u_currency u)
    (Some (id expense)).

Definition updateExpense (env : Env) (ident : string) (u : Updates) : M S Result :=
  try_catch
    (let! expense := getExpenseById ident in
     match expense with
     | None => ret (failure "Expense not found")
     | Some expense =>
         let updated := updatedExpense env expense u in
         let validation := Expense.validate updated in
         if negb (isValid validation) then
           ret (failure (join ", " (errors validation)))
         else
           do! st_updateExpense ident (Expense.toJSON updated) in
           ret {| success := true; message := "Expense updated successfully";
                  payload := Some (Expense.toJSON updated) |}
     end)
    (fun error => ret (failure ("Failed to update expense: " +:+ error_message error))).

Definition updatedIncome (env : Env) (income : Txn) (u : Updates) : Txn :=
  Income.new env
    (override (u_amount u) (amount income))
    (update_date (u_date u) (date income))
    (override (u_source u) (source income))
    (override (u_description u) (description income))
    (if is_undefined (u_currency u) then js_or (currency income) (VStr "$")
     else u_currency u)
    (Some (id income)).

Definition updateIncome (env : Env) (ident : string) (u : Updates) : M S Result :=
  try_catch
    (let! income := getIncomeById ident in
     match income with
     | None => ret (failure "Income not found")
     | Some income =>
         let updated := updatedIncome env income u in
         let validation := Income.validate updated in
         if negb (isValid validation) then
           ret (failure (join ", " (errors validation)))
         else
           do! st_updateIncome ident (Income.toJSON updated) in
           ret {| success := true; message := "Income updated successfully";
                  payload := Some (Income.toJSON updated) |}
     end)
    (fun error => ret (failure ("Failed to update income: " +:+ error_message error))).

Definition updateTransaction (env : Env) (ident : string) (u : Updates)
  : M S Result :=
  let! transaction := getTransactionById ident in
  match transaction with
  | None => ret (failure "Transaction not found")
  | Some t =>
      if String.eqb (type t) "expense" then updateExpense env ident u
      else updateIncome env ident u
  end.
End WithStorage.
End TransactionService.

(** ** The file system

    The data directory as a finite map from file names to files.  Names are
    relative to that directory, which holds the data file and every
    artifact the service derives from its path.  A call of the [fs] module
    fails only when the file it needs is missing; [now] is the time at
    which the enclosing service call runs and becomes the modification time
    of what it writes or copies. *)

Record File := { content : string; mtime : Z }.

Abbreviation FS := (gmap string File).

Module fs.
Definition enoent {A} (p : string) : M FS A :=
  throw (Error ("ENOENT: no such file or directory, " +:+ p)).

Definition existsSync (p : string) : M FS bool :=
  fun s => (Return (match s !! p with Some _ => true | None => false end), s).

Definition statSync (p : string) : M FS File :=
  fun s => match s !! p with
           | Some f => (Return f, s)
           | None => enoent p s
           end.

Definition readFileSync (p : string) : M FS string :=
  fun s => match s !! p with
           | Some f => (Return (content f), s)
           | None => enoent p s
           end.

Definition writeFileSync (now : Z) (p data : string) : M FS unit :=
  fun s => (Return tt, <[p := {| content := data; mtime := now |}]> s).

Definition copyFileSync (now : Z) (src dst : string) : M FS unit :=
  fun s => match s !! src with
           | Some f => (Return tt, <[dst := {| content := content f; mtime := now |}]> s)
           | None => enoent src s
           end.

Definition renameSync (src dst : string) : M FS unit :=
  fun s => match s !! src with
           | Some f => (Return tt, <[dst := f]> (delete src s))
           | None => enoent src s
           end.

Definition unlinkSync (p : string) : M FS unit :=
  fun s => match s !! p with
           | Some _ => (Return tt, delete p s)
           | None => enoent p s
           end.

(** The names in the directory, in the order the map enumerates them. *)
Definition readdirSync : M FS (list string) :=
  fun s => (Return (List.map fst (map_to_list s)), s).
End fs.

(** [for (x of l) body x], and [l.map(f)] for an [f] that may throw. *)
Fixpoint forEach {S A} (body : A -> M S unit) (l : list A) : M S unit :=
  match l with
  | [] => ret tt
  | x :: l' => do! body x in forEach body l'
  end.

Fixpoint mapM {S A B} (f : A -> M S B) (l : list A) : M S (list B) :=
  match l with
  | [] => ret []
  | x :: l' => let! y := f x in let! ys := mapM f l' in ret (y :: ys)
  end.

(** ** The stored document and its text form *)

Definition Settings := list (string * JsVal).

Record Doc := {
  expenses : list Txn;
  income : list Txn;
  settings : option Settings   (* [None]: the object has no such key *)
}.

Definition emptyDoc : Doc := {| expenses := []; income := []; settings := Some [] |}.

(** What [JSON.parse] returned, as far as readData looks at it: [null], or a
    value whose [expenses] / [income] is an array of items or not, and
    whose [settings] is a plain object or not. *)
Inductive Parsed :=
| PNull
| PValue (exps : option (list Txn)) (inc : option (list Txn)) (sett : option Settings).

(** [JSON.parse] ([None]: it throws a SyntaxError) and
    [JSON.stringify(data, null, 2)]. *)
Class JsonCodec := {
  JSON_parse : string -> option Parsed;
  JSON_stringify : Doc -> string
}.

(** [s.endsWith(suffix)] *)
Definition endsWith (s suffix : string) : bool :=
  let n := String.length s in
  let k := String.length suffix in
  (k <=? n)%nat && String.eqb (String.substring (n - k) k s) suffix.

(** [s.replace(/[:.]/g, '-')] *)
Fixpoint replace_colon_dot (s : string) : string :=
  match s with
  | EmptyString => EmptyString
  | String c s' =>
      String (if Ascii.eqb c ":"%char || Ascii.eqb c "."%char then "-"%char else c)
             (replace_colon_dot s')
  end.

(** The characters [String.prototype.trim] strips (the white space and
    the line terminators of the language), by their UTF-8 bytes. *)

(** U+0009 to U+000D and U+0020 *)
Definition is_space (c : ascii) : bool :=
  let n := nat_of_ascii c in
  (n =? 32)%nat || ((9 <=? n)%nat && (n <=? 13)%nat).

(** U+00A0, the no-break space *)
Definition is_space2 (c1 c2 : ascii) : bool :=
  (nat_of_ascii c1 =? 194)%nat && (nat_of_ascii c2 =? 160)%nat.

(** U+1680; U+2000 to U+200A, U+2028, U+2029, U+202F; U+205F; U+3000; and
    U+FEFF, the byte order mark *)
Definition is_space3 (c1 c2 c3 : ascii) : bool :=
  let n1 := nat_of_ascii c1 in
  let n2 := nat_of_ascii c2 in
  let n3 := nat_of_ascii c3 in
  ((n1 =? 225) && (n2 =? 154) && (n3 =? 128))%nat
  || ((n1 =? 226) && (n2 =? 128)
      && (((128 <=? n3) && (n3 <=? 138)) || (n3 =? 168) || (n3 =? 169) || (n3 =? 175)))%nat
  || ((n1 =? 226) && (n2 =? 129) && (n3 =? 159))%nat
  || ((n1 =? 227) && (n2 =? 128) && (n3 =? 128))%nat
  || ((n1 =? 239) && (n2 =? 187) && (n3 =? 191))%nat.

(** [!s.trim()]: the text consists of such characters only. *)
Fixpoint is_blank (s : string) : bool :=
  match s with
  | EmptyString => true
  | String c1 s1 =>
      if is_space c1 then is_blank s1
      else
        match s1 with
        | EmptyString => false
        | String c2 s2 =>
            if is_space2 c1 c2 then is_blank s2
            else
              match s2 with
              | EmptyString => false
              | String c3 s3 => is_space3 c1 c2 c3 && is_blank s3
              end
        end
  end.

(** [arr.findIndex(p)], [None] for -1. *)
Fixpoint findIndex {A} (p : A -> bool) (l : list A) : option nat :=
  match l with
  | [] => None
  | x :: l' => if p x then Some O else option_map Datatypes.S (findIndex p l')
  end.

(** [{ ...old, ...new }] on objects kept as association lists. *)
Fixpoint assign (old : Settings) (k : string) (v : JsVal) : Settings :=
  match old with
  | [] => [(k, v)]
  | (k', w) :: rest =>
      if String.eqb k' k then (k', v) :: rest else (k', w) :: assign rest k v
  end.

Definition spread (old new : Settings) : Settings :=
  List.fold_left (fun acc kv => assign acc (fst kv) (snd kv)) new old.

(** ** Storage Service (src/services/StorageService.js) *)

Record BackupFile := { bf_name : string; bf_time : Z }.

Module StorageService.
Section WithPath.
Context {RT : Runtime} {JC : JsonCodec}.
Variable dataFilePath : string.

Definition maxSize : Z := 10 * 1024 * 1024.

Definition tempPath : string := dataFilePath +:+ ".tmp".
Definition backupPath : string := dataFilePath +:+ ".backup".

(** [new Date().toISOString().replace(/[:.]/g, '-')] *)
Definition timestamp (now : Z) : string := replace_colon_dot (toISOString now).

Definition timestampedBackupPath (now : Z) : string :=
  dataFilePath +:+ ".backup." +:+ timestamp now +:+ ".json".

Definition corruptedPath (now : Z) : string :=
  dataFilePath +:+ ".corrupted." +:+ timestamp now +:+ ".bak".

(** [f.startsWith(baseName + '.backup.') && f.endsWith('.json')] *)
Definition is_backup_name (f : string) : bool :=
  String.prefix (dataFilePath +:+ ".backup.") f && endsWith f ".json".

Definition newest_first (a b : BackupFile) : Z := bf_time b - bf_time a.

(** The sorted list of timestamped backups rotateBackups works on. *)
Definition listBackups : M FS (list BackupFile) :=
  let! names := fs.readdirSync in
  let! files := mapM (fun f => let! st := fs.statSync f in
                               ret {| bf_name := f; bf_time := mtime st |})
                     (List.filter is_backup_name names) in
  ret (Array_sort newest_first files).

Definition rotateBackups (now : Z) : M FS unit :=
  try_catch
    (let! backupFiles := listBackups in
     do! (if (3 <=? List.length backupFiles)%nat then
            forEach (fun file => try_catch (fs.unlinkSync (bf_name file))
                                           (fun err => ret tt))
                    (List.skipn 2 backupFiles)
          else ret tt) in
     let! present := fs.existsSync dataFilePath in
     if present then fs.copyFileSync now dataFilePath (timestampedBackupPath now)
     else ret tt)
    (fun error => ret tt).

Definition writeData (now : Z) (data : Doc) : M FS unit :=
  try_catch
    (let jsonData := JSON_stringify data in
     (* Buffer.byteLength(jsonData, 'utf8') *)
     let dataSize := Z.of_nat (String.length jsonData) in
     if maxSize <? dataSize then
       throw (Error "Data file too large. Maximum is 10MB. Consider archiving old transactions.")
     else
       do! fs.writeFileSync now tempPath jsonData in
       let! present := fs.existsSync dataFilePath in
       do! (if present then
              do! rotateBackups now in
              fs.copyFileSync now dataFilePath backupPath
            else ret tt) in
       do! fs.renameSync tempPath dataFilePath in
       let! leftover := fs.existsSync backupPath in
       if leftover then fs.unlinkSync backupPath else ret tt)
    (fun error =>
       let! stale := fs.existsSync tempPath in
       do! (if stale then try_catch (fs.unlinkSync tempPath) (fun cleanupError => ret tt)
            else ret tt) in
       throw (Error ("Failed to write data: " +:+ error_message error))).

Definition ensureDataFileExists (now : Z) : M FS unit :=
  try_catch
    (let! present := fs.existsSync dataFilePath in
     if negb present
     then writeData now {| expenses := []; income := []; settings := None |}
     else ret tt)
    (fun error => throw (Error ("Failed to initialize storage: " +:+ error_message error))).

Definition backupCorruptedFile (now : Z) : M FS unit :=
  try_catch
    (let! present := fs.existsSync dataFilePath in
     do! (if present then fs.copyFileSync now dataFilePath (corruptedPath now)
          else ret tt) in
     writeData now emptyDoc)
    (fun error => ret tt).

(** [JSON.parse(fileContent)] followed by the shape checks. *)
Definition parseDoc (fileContent : string) : M FS Doc :=
  match JSON_parse fileContent with
  | None => throw (SyntaxError "Unexpected token in JSON")
  | Some PNull => throw (TypeError "Cannot read properties of null")
  | Some (PValue exps inc sett) =>
      ret {| expenses := default [] exps;
             income := default [] inc;
             settings := Some (default [] sett) |}
  end.

Definition readData (now : Z) : M FS Doc :=
  try_catch
    (let! stats := fs.statSync dataFilePath in
     (* stats.size, in bytes *)
     if maxSize <? Z.of_nat (String.length (content stats)) then
       throw (Error "Data file too large. Maximum is 10MB.")
     else
       let! fileContent := fs.readFileSync dataFilePath in
       if is_blank fileContent then ret emptyDoc
       else parseDoc fileContent)
    (fun error =>
       match error with
       | SyntaxError _ => do! backupCorruptedFile now in ret emptyDoc
       | _ => throw (Error ("Failed to read data: " +:+ error_message error))
       end).

Definition getSettings (now : Z) : M FS Settings :=
  let! data := readData now in ret (default [] (settings data)).

Definition saveSettings (now : Z) (new : Settings) : M FS bool :=
  let! data := readData now in
  do! writeData now {| expenses := expenses data; income := income data;
                       settings := Some (spread (default [] (settings data)) new) |} in
  ret true.

Definition getExpenses (now : Z) : M FS (list Txn) :=
  let! data := readData now in ret (expenses data).

Definition getIncome (now : Z) : M FS (list Txn) :=
  let! data := readData now in ret (income data).

Definition addExpense (now : Z) (expense : Txn) : M FS unit :=
  let! data := readData now in
  writeData now {| expenses := expenses data ++ [expense]; income := income data;
                   settings := settings data |}.

Definition addIncome (now : Z) (item : Txn) : M FS unit :=
  let! data := readData now in
  writeData now {| expenses := expenses data; income := income data ++ [item];
                   settings := settings data |}.

Definition updateExpense (now : Z) (ident : string) (updatedExpense : Txn)
  : M FS bool :=
  let! data := readData now in
  match findIndex (fun e => String.eqb (id e) ident) (expenses data) with
  | None => ret false
  | Some index =>
      do! writeData now {| expenses := <[index := updatedExpense]> (expenses data);
                           income := income data; settings := settings data |} in
      ret true
  end.

Definition updateIncome (now : Z) (ident : string) (updatedIncome : Txn)
  : M FS bool :=
  let! data := readData now in
  match findIndex (fun i => String.eqb (id i) ident) (income data) with
  | None => ret false
  | Some index =>
      do! writeData now {| expenses := expenses data;
                           income := <[index := updatedIncome]> (income data);
                           settings := settings data |} in
      ret true
  end.

Definition deleteExpense (now : Z) (ident : string) : M FS bool :=
  let! data := readData now in
  let kept := List.filter (fun e => negb (String.eqb (id e) ident)) (expenses data) in
  if (List.length kept =? List.length (expenses data))%nat then ret false
  else
    do! writeData now {| expenses := kept; income := income data;
                         settings := settings data |} in
    ret true.

Definition deleteIncome (now : Z) (ident : string) : M FS bool :=
  let! data := readData now in
  let kept := List.filter (fun i => negb (String.eqb (id i) ident)) (income data) in
  if (List.length kept =? List.length (income data))%nat then ret false
  else
    do! writeData now {| expenses := expenses data; income := kept;
                         settings := settings data |} in
    ret true.

(** The storage object a Transaction Service gets by default, for calls
made at time [now]. *)
Definition storage (now : Z) : Storage FS :=
  {| st_getExpenses := getExpenses now;
     st_getIncome := getIncome now;
     st_addExpense := addExpense now;
     st_addIncome := addIncome now;
     st_updateExpense := updateExpense now;
     st_updateIncome := updateIncome now;
     st_deleteExpense := deleteExpense now;
     st_deleteIncome := deleteIncome now |}.
End WithPath.
End StorageService.

(** ** Exchange Rate Service (src/services/ExchangeRateService.js) *)

(** A rate table: a plain object from currency codes to numbers, given by
    its own properties. *)
Abbreviation Rates := (gmap string float).

Module ExchangeRateService.

Definition CACHE_DURATION : Z := 24 * 60 * 60 * 1000.

Definition STATIC_RATES : gmap string Rates :=
  list_to_map
    [ ("USD", list_to_map
         [ ("EUR", 0.92); ("GBP", 0.79); ("INR", 83.00); ("JPY", 148.00);
           ("CNY", 7.10); ("CAD", 1.35); ("AUD", 1.52); ("CHF", 0.88);
           ("BRL", 4.95); ("USD", 1.00) ]%float);
      ("EUR", list_to_map
         [ ("USD", 1.09); ("GBP", 0.86); ("INR", 90.00); ("JPY", 161.00);
           ("CNY", 7.70); ("CAD", 1.47); ("AUD", 1.66); ("CHF", 0.96);
           ("BRL", 5.38); ("EUR", 1.00) ]%float);
      ("GBP", list_to_map
         [ ("USD", 1.27); ("EUR", 1.16); ("INR", 105.00); ("JPY", 188.00);
           ("CNY", 9.00); ("CAD", 1.71); ("AUD", 1.93); ("CHF", 1.12);
           ("BRL", 6.27); ("GBP", 1.00) ]%float);
      ("INR", list_to_map
         [ ("USD", 0.012); ("EUR", 0.011); ("GBP", 0.0095); ("JPY", 1.78);
           ("CNY", 0.085); ("CAD", 0.016); ("AUD", 0.018); ("CHF", 0.011);
           ("BRL", 0.060); ("INR", 1.00) ]%float);
      ("JPY", list_to_map
         [ ("USD", 0.0068); ("EUR", 0.0062); ("GBP", 0.0053); ("INR", 0.56);
           ("CNY", 0.048); ("CAD", 0.0091); ("AUD", 0.010); ("CHF", 0.0059);
           ("BRL", 0.033); ("JPY", 1.00) ]%float);
      ("CNY", list_to_map
         [ ("USD", 0.14); ("EUR", 0.13); ("GBP", 0.11); ("INR", 11.70);
           ("JPY", 20.80); ("CAD", 0.19); ("AUD", 0.21); ("CHF", 0.12);
           ("BRL", 0.70); ("CNY", 1.00) ]%float) ].

(** [STATIC_RATES['USD']] *)
Definition STATIC_USD : Rates := default ∅ (STATIC_RATES !! "USD").

(** The entries of the object literal [SYMBOL_TO_CODE], in source order. *)
Definition SYMBOL_TO_CODE_entries : list (string * string) :=
  [ ("$", "USD"); ("€", "EUR"); ("£", "GBP"); ("₹", "INR"); ("¥", "JPY");
    ("C$", "CAD"); ("A$", "AUD"); ("Fr", "CHF"); ("R$", "BRL") ].

Definition SYMBOL_TO_CODE : gmap string string :=
  list_to_map SYMBOL_TO_CODE_entries.

(** The single cache slot; [None] is [null] (or [undefined]). *)
Record Cache := {
rates : option Rates;
baseCurrency : option string;
timestamp : option Z
}.

Definition emptyCache : Cache :=
  {| rates := None; baseCurrency := None; timestamp := None |}.

(** What getCodeFromSymbol returns: a string or, for a symbol that names
  a member of Object.prototype, that member, which is an object. *)
Inductive Code :=
| CodeStr (code : string)
| CodeObject (name : string).

(** [SYMBOL_TO_CODE[symbol] || symbol]; a function and [Object.prototype]
  are truthy. *)
Definition getCodeFromSymbol (symbol : string) : Code :=
  match get_property SYMBOL_TO_CODE symbol with
  | Own code => if String.eqb code "" then CodeStr symbol else CodeStr code
  | Inherited name => CodeObject name
  | Absent => CodeStr symbol
  end.

(** [fromCode === toCode]; the members of Object.prototype are twelve
  different objects. *)
Definition same_code (a b : Code) : bool :=
  match a, b with
  | CodeStr x, CodeStr y => String.eqb x y
  | CodeObject x, CodeObject y => String.eqb x y
  | _, _ => false
  end.

(** The property key of [rates[code]]: a string is its own key; an object
  is converted by its [toString], which gives the source text of a
  built-in function and ["[object Object]"] for Object.prototype. *)
Definition property_key (c : Code) : string :=
  match c with
  | CodeStr code => code
  | CodeObject name =>
      if String.eqb name "__proto__" then "[object Object]"
      else "function "
           +:+ (if String.eqb name "constructor" then "Object" else name)
           +:+ "() { [native code] }"
  end.

(** [!rate] for what a table lookup returned: the key is missing, or the
  number is 0 or NaN; an inherited member is truthy. *)
Definition no_rate (r : Property float) : bool :=
  match r with
  | Own x => PrimFloat.is_zero x || PrimFloat.is_nan x
  | Inherited _ => false
  | Absent => true
  end.

(** The number a rate is in the arithmetic: an object converts to NaN. *)
Definition rate_number (r : Property float) : float :=
  match r with
  | Own x => x
  | _ => PrimFloat.nan
  end.

(** The last steps shared by convert and convertStatic: look both codes up
  and triangulate. *)
Definition cross (table : Rates) (amt : float) (fromCode toCode : Code) : float :=
  let fromRate := get_property table (property_key fromCode) in
  let toRate := get_property table (property_key toCode) in
  if no_rate fromRate || no_rate toRate then amt
  else ((amt / rate_number fromRate) * rate_number toRate)%float.

Definition convertStatic (cache : Cache) (amt : float)
    (fromCurrency toCurrency : string) : float :=
  let fromCode := getCodeFromSymbol fromCurrency in
  let toCode := getCodeFromSymbol toCurrency in
  if same_code fromCode toCode then amt
  else
    let table := default STATIC_USD (rates cache) in
    cross table amt fromCode toCode.

(** getCachedRates(baseCurrency), called at time [now] *)
Definition getCachedRates (cache : Cache) (now : Z) (base : string) : option Rates :=
  match rates cache, timestamp cache with
  | Some r, Some ts =>
      if (ts =? 0) || negb (bool_decide (baseCurrency cache = Some base)) then None
      else if CACHE_DURATION <? now - ts then None
      else Some r
  | _, _ => None
  end.

(** What the network request of fetchRates came to: it failed (network
  error, non-2xx status, unreadable body), or it produced a body whose
  [rates] member is a table, or is missing. *)
Inductive Fetched :=
| FetchFailed
| FetchBody (r : option Rates).

(** fetchRates: the rates it returns ([None] for null or undefined) and
  the cache afterwards. *)
Definition fetchRates (cache : Cache) (now : Z) (net : Fetched)
    : option Rates * Cache :=
  match net with
  | FetchFailed => (None, cache)
  | FetchBody r =>
      (r, {| rates := r; baseCurrency := Some "USD"; timestamp := Some now |})
  end.

Definition getRates (cache : Cache) (now : Z) (net : Fetched) : Rates * Cache :=
  match getCachedRates cache now "USD" with
  | Some cached => (cached, cache)
  | None =>
      match fetchRates cache now net with
      | (Some fetched, cache') => (fetched, cache')
      | (None, cache') => (STATIC_USD, cache')
      end
  end.

(** convert: the amount it resolves to and the cache afterwards. *)
Definition convert (cache : Cache) (now : Z) (net : Fetched) (amt : float)
    (fromCurrency toCurrency : string) : float * Cache :=
  let fromCode := getCodeFromSymbol fromCurrency in
  let toCode := getCodeFromSymbol toCurrency in
  if same_code fromCode toCode then (amt, cache)
  else
    let (table, cache') := getRates cache now net in
    (cross table amt fromCode toCode, cache').

Definition clearCache (cache : Cache) : Cache := emptyCache.
End ExchangeRateService.

(** ** Input validation (src/utils/inputValidator.js)

    The validators of the console front end take the text the user typed.
    [trim] and [toLowerCase] belong to the engine; the development is
    parametric in them. *)
Class StringOps := {
  trim : string -> string;
  toLowerCase : string -> string
}.

(** The object [{ isValid, value, error }] a validator returns; [None] is
    [null]. *)
Record Checked := {
  c_isValid : bool;
  c_value : option string;
  c_error : option string
}.

Module Validators.
Section WithStringOps.
Context {SO : StringOps}.

Definition rejected (msg : string) : Checked :=
  {| c_isValid := false; c_value := None; c_error := Some msg |}.

Definition accepted (v : string) : Checked :=
  {| c_isValid := true; c_value := Some v; c_error := None |}.

(** [!s || s.trim() === ''] *)
Definition is_empty_input (s : string) : bool :=
  String.eqb s "" || String.eqb (trim s) "".

(** [allowed.find(x => x.toLowerCase() === normalized.toLowerCase())] *)
Definition find_ignoring_case (allowed : list string) (normalized : string)
    : option string :=
  List.find (fun x => String.eqb (toLowerCase x) (toLowerCase normalized)) allowed.

Definition validateCategory (category : string) : Checked :=
  if is_empty_input category then rejected "Category cannot be empty"
  else
    let normalizedCategory := trim category in
    let invalid :=
      rejected ("Invalid category. Choose from: " +:+ join ", " EXPENSE_CATEGORIES) in
    match find_ignoring_case EXPENSE_CATEGORIES normalizedCategory with
    | Some matchedCategory =>
        if String.eqb matchedCategory "" then invalid else accepted matchedCategory
    | None => invalid
    end.

Definition validateSource (source : string) : Checked :=
  if is_empty_input source then rejected "Source cannot be empty"
  else
    let normalizedSource := trim source in
    let invalid :=
      rejected ("Invalid source. Choose from: " +:+ join ", " INCOME_SOURCES) in
    match find_ignoring_case INCOME_SOURCES normalizedSource with
    | Some matchedSource =>
        if String.eqb matchedSource "" then invalid else accepted matchedSource
    | None => invalid
    end.

(** validateDescription, on [(description || '').trim()]: the value is the
trimmed text, also when it is rejected. *)
Definition validateDescription (description : string) : Checked :=
  let trimmed := trim description in
  if (500 <? js_length trimmed)%nat then
    {| c_isValid := false; c_value := Some trimmed;
       c_error := Some "Description is too long (max 500 characters)" |}
  else accepted trimmed.

Definition validateId (ident : string) : Checked :=
  if is_empty_input ident then rejected "ID cannot be empty"
  else accepted (trim ident).
End WithStringOps.
End Validators.

(** ** A reference host

    A concrete [Runtime] for the examples: a host in a zone [tz]
    milliseconds east of UTC without daylight saving, whose [Date]
    constructor reads the date-only ISO form ["YYYY-MM-DD"] (as UTC
    midnight, as the language prescribes) and nothing else.  The theorems
    below hold for every runtime; this one evaluates. *)
Module Reference.

Definition msPerDay : Z := 86400000.

(** Days since 1970-01-01 of a proleptic Gregorian date, and back. *)
Definition days_from_civil (y m d : Z) : Z :=
  let y' := if m <=? 2 then y - 1 else y in
  let era := y' / 400 in
  let yoe := y' - era * 400 in
  let mp := if 2 <? m then m - 3 else m + 9 in
  let doy := (153 * mp + 2) / 5 + d - 1 in
  let doe := yoe * 365 + yoe / 4 - yoe / 100 + doy in
  era * 146097 + doe - 719468.

Definition civil_from_days (z : Z) : Z * Z * Z :=
  let z := z + 719468 in
  let era := z / 146097 in
  let doe := z - era * 146097 in
  let yoe := (doe - doe / 1460 + doe / 36524 - doe / 146096) / 365 in
  let doy := doe - (365 * yoe + yoe / 4 - yoe / 100) in
  let mp := (5 * doy + 2) / 153 in
  let d := doy - (153 * mp + 2) / 5 + 1 in
  let m := if mp <? 10 then mp + 3 else mp - 9 in
  let y := yoe + era * 400 + (if m <=? 2 then 1 else 0) in
  (y, m, d).

Definition is_leap (y : Z) : bool :=
  ((y mod 4 =? 0) && negb (y mod 100 =? 0)) || (y mod 400 =? 0).

Definition days_in_month (y m : Z) : Z :=
  if m =? 2 then (if is_leap y then 29 else 28)
  else if (m =? 4) || (m =? 6) || (m =? 9) || (m =? 11) then 30
  else 31.

Definition digit (c : ascii) : Z := Z.of_nat (nat_of_ascii c) - 48.

Definition parse_date_only (s : string) : option Z :=
  if DateUtils.isYMD s then
    match list_ascii_of_string s with
    | [y1; y2; y3; y4; _; m1; m2; _; d1; d2] =>
        let y := 1000 * digit y1 + 100 * digit y2 + 10 * digit y3 + digit y4 in
        let m := 10 * digit m1 + digit m2 in
        let d := 10 * digit d1 + digit d2 in
        if (1 <=? m) && (m <=? 12) && (1 <=? d) && (d <=? days_in_month y m)
        then Some (days_from_civil y m d * msPerDay)
        else None
    | _ => None
    end
  else None.

Fixpoint zeros (n : nat) : string :=
  match n with O => "" | Datatypes.S n' => "0" +:+ zeros n' end.

(** [String(z).padStart(width, '0')] *)
Definition pad (width : nat) (z : Z) : string :=
  let s := pretty z in zeros (width - String.length s) +:+ s.

Definition ymd (days : Z) : string :=
  let '(y, m, d) := civil_from_days days in
  pretty y +:+ "-" +:+ pad 2 m +:+ "-" +:+ pad 2 d.

Definition iso (t : Z) : string :=
  let '(y, m, d) := civil_from_days (t / msPerDay) in
  let ms := t mod msPerDay in
  pad 4 y +:+ "-" +:+ pad 2 m +:+ "-" +:+ pad 2 d +:+ "T"
  +:+ pad 2 (ms / 3600000) +:+ ":" +:+ pad 2 (ms / 60000 mod 60) +:+ ":"
  +:+ pad 2 (ms / 1000 mod 60) +:+ "." +:+ pad 3 (ms mod 1000) +:+ "Z".

Definition runtime (tz : Z) : Runtime :=
  {| Date_parse := parse_date_only;
     localYMD := fun t => ymd ((t + tz) / msPerDay);
     setHoursZero := fun t => (t + tz) / msPerDay * msPerDay - tz;
     toISOString := iso |}.

(** The host in the UTC zone. *)
Definition utc : Runtime := runtime 0.

(** [+] and [-] on numbers; the examples add nothing else. *)
Definition numbers : Arith :=
  {| js_add := fun a b => match a, b with
                          | VNum x, VNum y => VNum (x + y)
                          | _, _ => VNum PrimFloat.nan
                          end;
     js_sub := fun a b => match a, b with
                          | VNum x, VNum y => VNum (x - y)
                          | _, _ => VNum PrimFloat.nan
                          end;
     toPropertyKey := fun v => match v with VStr s => s | _ => "" end |}.

(** A storage object that keeps the document in memory: what a caller
  passes to [new TransactionService(storage)] in place of the file
  store.  Its state is the document; it never throws. *)
Definition memory : Storage Doc :=
  {| st_getExpenses := fun d => (Return (expenses d), d);
     st_getIncome := fun d => (Return (income d), d);
     st_addExpense := fun e d =>
       (Return tt, {| expenses := expenses d ++ [e]; income := income d;
                      settings := settings d |});
     st_addIncome := fun i d =>
       (Return tt, {| expenses := expenses d; income := income d ++ [i];
                      settings := settings d |});
     st_updateExpense := fun ident e d =>
       match findIndex (fun x => String.eqb (id x) ident) (expenses d) with
       | None => (Return false, d)
       | Some k => (Return true, {| expenses := <[k := e]> (expenses d);
                                    income := income d; settings := settings d |})
       end;
     st_updateIncome := fun ident i d =>
       match findIndex (fun x => String.eqb (id x) ident) (income d) with
       | None => (Return false, d)
       | Some k => (Return true, {| expenses := expenses d;
                                    income := <[k := i]> (income d);
                                    settings := settings d |})
       end;
     st_deleteExpense := fun ident d =>
       (Return (existsb (fun x => String.eqb (id x) ident) (expenses d)),
        {| expenses := List.filter (fun x => negb (String.eqb (id x) ident)) (expenses d);
           income := income d; settings := settings d |});
     st_deleteIncome := fun ident d =>
       (Return (existsb (fun x => String.eqb (id x) ident) (income d)),
        {| expenses := expenses d;
           income := List.filter (fun x => negb (String.eqb (id x) ident)) (income d);
           settings := settings d |}) |}.

(** A storage object whose every call throws [err]: a store whose file
  cannot be read or written. *)
Definition broken (err : JsError) : Storage unit :=
  {| st_getExpenses := throw err;
     st_getIncome := throw err;
     st_addExpense := fun _ => throw err;
     st_addIncome := fun _ => throw err;
     st_updateExpense := fun _ _ => throw err;
     st_updateIncome := fun _ _ => throw err;
     st_deleteExpense := fun _ => throw err;
     st_deleteIncome := fun _ => throw err |}.

(** A storage object that serves the document it is given and cannot
  write: every call that would change the store throws [err]. *)
Definition read_only (err : JsError) : Storage Doc :=
  {| st_getExpenses := fun d => (Return (expenses d), d);
     st_getIncome := fun d => (Return (income d), d);
     st_addExpense := fun _ => throw err;
     st_addIncome := fun _ => throw err;
     st_updateExpense := fun _ _ => throw err;
     st_updateIncome := fun _ _ => throw err;
     st_deleteExpense := fun _ => throw err;
     st_deleteIncome := fun _ => throw err |}.

(** A text form that only knows the empty document: it prints a document
  as the list of the ids of its records and reads back the text of a
  document without records alone.  Enough to run the store on files
  that are empty or corrupt. *)
Definition tiny_codec : JsonCodec :=
  {| JSON_stringify := fun d =>
       "{" +:+ join "," (List.map id (expenses d ++ income d)) +:+ "}";
     JSON_parse := fun s =>
       if String.eqb s "{}" then Some (PValue (Some []) (Some []) (Some []))
       else None |}.
(** [trim] and [toLowerCase] on text in the ASCII range. *)
Definition lower (c : ascii) : ascii :=
  let n := nat_of_ascii c in
  if (65 <=? n)%nat && (n <=? 90)%nat then ascii_of_nat (n + 32) else c.

Fixpoint lower_case (s : string) : string :=
  match s with
  | EmptyString => EmptyString
  | String c s' => String (lower c) (lower_case s')
  end.

Fixpoint trim_start (l : list ascii) : list ascii :=
  match l with
  | [] => []
  | c :: l' => if is_space c then trim_start l' else l
  end.

Definition trim_both (s : string) : string :=
  string_of_list_ascii
    (List.rev (trim_start (List.rev (trim_start (list_ascii_of_string s))))).

Definition ascii_ops : StringOps :=
  {| trim := trim_both; toLowerCase := lower_case |}.

(** Equality of stored documents, field by field; numbers are compared as
  bit patterns. *)
Definition JsVal_eqb (a b : JsVal) : bool :=
  match a, b with
  | VUndefined, VUndefined => true
  | VNull, VNull => true
  | VBool x, VBool y => Bool.eqb x y
  | VNum x, VNum y => PrimFloat.Leibniz.eqb x y
  | VStr x, VStr y => String.eqb x y
  | VObject x, VObject y => Bool.eqb x y
  | _, _ => false
  end.

Definition Txn_eqb (a b : Txn) : bool :=
  String.eqb (id a) (id b) && JsVal_eqb (amount a) (amount b)
  && String.eqb (date a) (date b) && JsVal_eqb (description a) (description b)
  && JsVal_eqb (currency a) (currency b) && JsVal_eqb (createdAt a) (createdAt b)
  && JsVal_eqb (category a) (category b) && JsVal_eqb (source a) (source b)
  && String.eqb (type a) (type b).

Fixpoint list_eqb {A} (eqb : A -> A -> bool) (l1 l2 : list A) : bool :=
  match l1, l2 with
  | [], [] => true
  | x :: l1', y :: l2' => eqb x y && list_eqb eqb l1' l2'
  | _, _ => false
  end.

Definition Settings_eqb (a b : option Settings) : bool :=
  match a, b with
  | None, None => true
  | Some x, Some y =>
      list_eqb (fun p q => String.eqb (fst p) (fst q) && JsVal_eqb (snd p) (snd q)) x y
  | _, _ => false
  end.

Definition Doc_eqb (a b : Doc) : bool :=
  list_eqb Txn_eqb (expenses a) (expenses b)
  && list_eqb Txn_eqb (income a) (income b)
  && Settings_eqb (settings a) (settings b).

(** A text form for the documents of a given table: the document at
  position [k] of the table is written [{doc:k}] and read back from
  that text; a document outside the table is written [{}], which reads as
  the empty object, and any other text is not JSON.  Enough to run the
  store on the documents of an example. *)
Definition table_codec (table : list Doc) : JsonCodec :=
  {| JSON_stringify := fun d =>
       match findIndex (Doc_eqb d) table with
       | Some k => "{doc:" +:+ pretty (Z.of_nat k) +:+ "}"
       | None => "{}"
       end;
     JSON_parse := fun s =>
       if String.eqb s "{}" then Some (PValue None None None)
       else
         match List.find (fun kd => String.eqb s ("{doc:" +:+ pretty (Z.of_nat (fst kd)) +:+ "}"))
                 (List.combine (List.seq 0 (List.length table)) table) with
         | Some (_, d) => Some (PValue (Some (expenses d)) (Some (income d)) (settings d))
         | None => None
         end |}.
End Reference.

(** ** Vocabulary of the specification *)

(** The four messages validate() has about the amount. *)
Definition amount_messages : list string :=
  ["Amount must be a number"; "Amount cannot be NaN"; "Amount must be finite";
   "Amount must be a positive number"].

(** A positive finite number: a number that is not NaN, not infinite and
    not [<= 0]. *)
Definition positive_finite (v : JsVal) : bool :=
  match v with
  | VNum x => negb (isNaN x) && isFinite x && negb (PrimFloat.leb x 0)
  | _ => false
  end.

(** What validate() reports about the fields other than the amount. *)
Definition other_errors {RT : Runtime} (t : Txn) : list string :=
  Transaction.date_errors (date t)
  ++ Transaction.description_type_errors (description t)
  ++ Transaction.description_length_errors (description t).

Definition set_amount (a : JsVal) (t : Txn) : Txn :=
  {| id := id t; amount := a; date := date t; description := description t;
     currency := currency t; createdAt := createdAt t; category := category t;
     source := source t; type := type t |}.

(** ** Example data *)

Definition lunch : Txn :=
  {| id := "3f2b6c1e-0001"; amount := VNum 12.5; date := "2024-01-15";
     description := VStr "Lunch"; currency := VStr "$";
     createdAt := VStr "2024-01-15T12:00:00.000Z";
     category := VStr "Food"; source := VUndefined; type := "expense" |}.

Definition salary : Txn :=
  {| id := "9a7d4e2f-0002"; amount := VNum 3000; date := "2024-01-31";
     description := VStr "January"; currency := VStr "$";
     createdAt := VStr "2024-01-31T09:00:00.000Z";
     category := VUndefined; source := VStr "Salary"; type := "income" |}.

(** A cache that holds a table with a zero rate, as a remote body
    [{"rates": {"USD": 1, "EUR": 0}}] would leave it. *)
Definition zero_rate_cache : ExchangeRateService.Cache :=
  {| ExchangeRateService.rates :=
       Some (list_to_map [("USD", 1%float); ("EUR", 0%float)]);
     ExchangeRateService.baseCurrency := Some "USD";
     ExchangeRateService.timestamp := Some 1705312800000 |}.

(** The shape the two constructors give their objects. *)
Definition is_Expense (t : Txn) : Prop := type t = "expense" /\ source t = VUndefined.
Definition is_Income (t : Txn) : Prop := type t = "income" /\ category t = VUndefined.

(** Two moments at which calls run, with the id [uuidv4()] would hand out. *)
Definition march_1st : Env := {| now := 1709290800000; uuid := "c0ffee00-0003" |}.
Definition june_10th : Env := {| now := 1718013600000; uuid := "deadbeef-0004" |}.

(** [new Expense(20, '2024-03-01', 'Food', null)]: an expense built with a
    null description. *)
Definition treat : Txn :=
  Expense.new (RT := Reference.utc) march_1st (VNum 20) (DStr "2024-03-01")
    (VStr "Food") VNull VUndefined None.

(** The error [e] came out of a read of the storage object: the read of
    the expenses or of the income threw it in some state of the store. *)
Definition storage_threw {S : Type} {ST : Storage S} (e : JsError) : Prop :=
  exists s s' : S,
    st_getExpenses s = (Throw e, s') \/ st_getIncome s = (Throw e, s').

Definition groceries : Txn :=
  {| id := "5e1a9b70-0005"; amount := VNum 54.25; date := "2024-01-05";
     description := VStr "Groceries"; currency := VStr "$";
     createdAt := VStr "2024-01-05T18:30:00.000Z";
     category := VStr "Food"; source := VUndefined; type := "expense" |}.

Definition bus : Txn :=
  {| id := "77c0d3a4-0006"; amount := VNum 2.75; date := "2024-01-20";
     description := VStr ""; currency := VStr "$";
     createdAt := VStr "2024-01-20T08:05:00.000Z";
     category := VStr "Transport"; source := VUndefined; type := "expense" |}.

Definition dinner : Txn :=
  {| id := "b81f20c9-0007"; amount := VNum 38; date := "2024-02-02";
     description := VStr "Dinner"; currency := VStr "$";
     createdAt := VStr "2024-02-02T21:10:00.000Z";
     category := VStr "Food"; source := VUndefined; type := "expense" |}.

(** A stored document, in storage order. *)
Definition ledger : Doc :=
  {| expenses := [groceries; bus; dinner; lunch];
     income := [salary];
     settings := Some [] |}.

(** The three messages Expense.validate has about the category. *)
Definition category_messages : list string :=
  ["Category is required"; "Category must be a string";
   "Invalid category. Must be one of: " +:+ join ", " EXPENSE_CATEGORIES].

(** An [updates] object without keys, and two with one key. *)
Definition no_updates : Updates :=
  {| u_amount := VUndefined; u_date := DUndef; u_category := VUndefined;
     u_source := VUndefined; u_description := VUndefined; u_currency := VUndefined |}.

Definition new_amount (a : JsVal) : Updates :=
  {| u_amount := a; u_date := DUndef; u_category := VUndefined;
     u_source := VUndefined; u_description := VUndefined; u_currency := VUndefined |}.

Definition new_category (c : JsVal) : Updates :=
  {| u_amount := VUndefined; u_date := DUndef; u_category := c;
     u_source := VUndefined; u_description := VUndefined; u_currency := VUndefined |}.

(** A host five hours west of UTC. *)
Definition new_york : Runtime := Reference.runtime (-18000000).

(** Descending order of a key. *)
Definition descending {A : Type} (key : A -> Z) : A -> A -> Prop :=
  fun a b => key b <= key a.

(** The records getTransactions starts from: every stored expense and
    income, tagged with its type. *)
Definition tagged (es inc : list Txn) : list Txn :=
  List.map (with_type "expense") es ++ List.map (with_type "income") inc.

(** The date string [d] lies in the inclusive range of the two bounds: it
    parses, and its day (the time value normalised by [setHours(0,0,0,0)])
    is not before the day of a given, parseable start bound and not after
    the day of a given, parseable end bound. *)
Definition within_bounds {RT : Runtime} (startDate endDate : DateInput) (d : string)
    : Prop :=
  exists t, Date_parse d = Some t
    /\ (forall b, date_truthy startDate = true ->
                  DateUtils.new_Date startDate = Some b ->
                  setHoursZero b <= setHoursZero t)
    /\ (forall b, date_truthy endDate = true ->
                  DateUtils.new_Date endDate = Some b ->
                  setHoursZero t <= setHoursZero b).

(** The conjunction of the four filters. *)
Definition passes {RT : Runtime} (f : Filters) (t : Txn) : bool :=
  TransactionService.type_filter f t
  && (TransactionService.date_filter f t
      && (TransactionService.category_filter f t
          && TransactionService.source_filter f t)).

(** The time value of a record's date, 0 when it does not parse. *)
Definition time_of {RT : Runtime} (t : Txn) : Z := default 0 (Date_parse (date t)).

(** [a] may stand before [b] in a list sorted by date, most recent first. *)
Definition not_older {RT : Runtime} (a b : Txn) : Prop :=
  forall ta tb, Date_parse (date a) = Some ta -> Date_parse (date b) = Some tb ->
                tb <= ta.

(** The filters of the example in the specification. *)
Definition food_in_january : Filters :=
  {| f_type := VStr "expense"; f_startDate := DStr "2024-01-01";
     f_endDate := DStr "2024-01-31"; f_category := VStr "Food";
     f_source := VUndefined |}.

(** The file system after unlinking the given names, in order; a name
    that is absent stays absent. *)
Definition delete_all (names : list string) (fs : FS) : FS :=
  List.fold_left (fun m n => delete n m) names fs.

(** The timestamped backups of the data file [path] found in a directory:
    as listed, newest first, and the names rotateBackups unlinks. *)
Definition backup_entries (path : string) (fs : FS) : list BackupFile :=
  List.map (fun nf => {| bf_name := fst nf; bf_time := mtime (snd nf) |})
    (List.filter (fun nf => StorageService.is_backup_name path (fst nf))
       (map_to_list fs)).

Definition sorted_backups (path : string) (fs : FS) : list BackupFile :=
  Array_sort StorageService.newest_first (backup_entries path fs).

Definition dropped_backups (path : string) (fs : FS) : list string :=
  List.map bf_name
    (if (3 <=? List.length (sorted_backups path fs))%nat
     then List.skipn 2 (sorted_backups path fs) else []).

(** The directory rotateBackups leaves behind: the names it dropped are
    gone and, when the data file exists, its copy sits under the new
    timestamped name. *)
Definition rotated {RT : Runtime} (path : string) (now : Z) (fs : FS) : FS :=
  let fs' := delete_all (dropped_backups path fs) fs in
  match fs' !! path with
  | Some f =>
      <[StorageService.timestampedBackupPath path now :=
          {| content := content f; mtime := now |}]> fs'
  | None => fs'
  end.

(** The directory once writeData has written the temporary file. *)
Definition staged {RT : Runtime} {JC : JsonCodec} (path : string) (now : Z)
    (data : Doc) (fs : FS) : FS :=
  <[StorageService.tempPath path :=
      {| content := JSON_stringify data; mtime := now |}]> fs.

(** The directory writeData leaves behind when it succeeds. *)
Definition written {RT : Runtime} {JC : JsonCodec} (path : string) (now : Z)
    (data : Doc) (fs : FS) : FS :=
  let json := {| content := JSON_stringify data; mtime := now |} in
  let fs2 := <[StorageService.tempPath path := json]> fs in
  let fs4 :=
    match fs2 !! path with
    | Some f =>
        <[StorageService.backupPath path := {| content := content f; mtime := now |}]>
          (rotated path now fs2)
    | None => fs2
    end in
  delete (StorageService.backupPath path)
    (<[path := json]> (delete (StorageService.tempPath path) fs4)).

(** The document fits the size limit of the store. *)
Definition fits {JC : JsonCodec} (data : Doc) : Prop :=
  Z.of_nat (String.length (JSON_stringify data)) <= StorageService.maxSize.

(** A data directory whose data file holds text that is not JSON. *)
Definition data_file : string := "transactions.json".

Definition corrupt_directory : FS :=
  {[ data_file := {| content := "{oops"; mtime := 1700000000000 |} ]}.

(** The names of the timestamped backups present in a directory. *)
Definition backup_names (path : string) (fs : FS) : list string :=
  List.map bf_name (backup_entries path fs).

(** A run of successive writeData calls, each given as the time at which it
    runs and the document it writes; the directory the run leaves. *)
Fixpoint run_writes {RT : Runtime} {JC : JsonCodec} (path : string)
    (writes : list (Z * Doc)) (fs : FS) : FS :=
  match writes with
  | [] => fs
  | (t, d) :: rest => run_writes path rest (snd (StorageService.writeData path t d fs))
  end.

(** Every timestamped backup in the directory was last modified before [t]. *)
Definition backups_older_than (path : string) (t : Z) (fs : FS) : Prop :=
  forall p g, StorageService.is_backup_name path p = true ->
              fs !! p = Some g -> mtime g < t.

(** Four documents written one second apart, each with one more expense. *)
Definition doc_with (es : list Txn) : Doc :=
  {| expenses := es; income := []; settings := Some [] |}.

Definition four_writes : list (Z * Doc) :=
  [ (1718013600000, doc_with [groceries]);
    (1718013601000, doc_with [groceries; bus]);
    (1718013602000, doc_with [groceries; bus; dinner]);
    (1718013603000, doc_with [groceries; bus; dinner; lunch]) ].

(** The same four documents, the last three written within one
    millisecond. *)
Definition hasty_writes : list (Z * Doc) :=
  [ (1718013600000, doc_with [groceries]);
    (1718013601000, doc_with [groceries; bus]);
    (1718013601000, doc_with [groceries; bus; dinner]);
    (1718013601000, doc_with [groceries; bus; dinner; lunch]) ].

(** A data directory that holds, beside the data file, three timestamped
    backups last modified in January 2030, after the four writes above. *)
Definition future_backups_directory : FS :=
  <["transactions.json.backup.2030-01-03T00-00-00-000Z.json" :=
      {| content := "{c}"; mtime := 1893628800000 |}]>
  (<["transactions.json.backup.2030-01-02T00-00-00-000Z.json" :=
      {| content := "{b}"; mtime := 1893542400000 |}]>
  (<["transactions.json.backup.2030-01-01T00-00-00-000Z.json" :=
      {| content := "{a}"; mtime := 1893456000000 |}]> corrupt_directory)).

(** ** Vocabulary of the file store *)

(** The data file [path] holds the document [d]: the file is there, within
    the size limit and not blank, and its text parses to a value whose
    [expenses] and [income] are the arrays of [d] and whose [settings], read
    as [{}] when it is not a plain object, is the settings object of [d]. *)
Definition holds {JC : JsonCodec} (path : string) (s : FS) (d : Doc) : Prop :=
  exists f sett,
    s !! path = Some f
    /\ Z.of_nat (String.length (content f)) <= StorageService.maxSize
    /\ is_blank (content f) = false
    /\ JSON_parse (content f)
       = Some (PValue (Some (expenses d)) (Some (income d)) sett)
    /\ settings d = Some (default [] sett).

(** The text of [d] fits the size limit and parses back to the members of
    [d]: what [JSON.parse (JSON.stringify d)] gives for a document of
    records that survive serialisation. *)
Definition reads_back {JC : JsonCodec} (d : Doc) : Prop :=
  fits d
  /\ is_blank (JSON_stringify d) = false
  /\ JSON_parse (JSON_stringify d)
     = Some (PValue (Some (expenses d)) (Some (income d)) (settings d)).

(** The document readData returns for the text of [d]: a missing
    [settings] member reads as the empty object. *)
Definition normal (d : Doc) : Doc :=
  {| expenses := expenses d; income := income d;
     settings := Some (default [] (settings d)) |}.

(** The document with other expenses, other income, other settings. *)
Definition with_expenses (es : list Txn) (d : Doc) : Doc :=
  {| expenses := es; income := income d; settings := settings d |}.

Definition with_income (inc : list Txn) (d : Doc) : Doc :=
  {| expenses := expenses d; income := inc; settings := settings d |}.

Definition with_settings (sett : Settings) (d : Doc) : Doc :=
  {| expenses := expenses d; income := income d; settings := Some sett |}.

(** The document ensureDataFileExists writes: [{ expenses: [], income: [] }]. *)
Definition initialDoc : Doc := {| expenses := []; income := []; settings := None |}.

(** The own property [k] of an object kept as an association list,
    [VUndefined] when it has none. *)
Fixpoint get_key (k : string) (obj : Settings) : JsVal :=
  match obj with
  | [] => VUndefined
  | (k', v) :: rest => if String.eqb k' k then v else get_key k rest
  end.

Definition has_key (k : string) (obj : Settings) : Prop := In k (List.map fst obj).

(** ** Further examples and vocabulary *)

(** Example stores: the documents of the examples with a text form that
    knows them, and a data directory whose data file holds the ledger. *)
Definition ledger_with (es : list Txn) : Doc := with_expenses es ledger.

Definition coffee : Txn :=
  {| id := "deadbeef-0004"; amount := VNum 3.5; date := "2024-06-10";
     description := VStr "Coffee"; currency := VStr "$";
     createdAt := VStr "2024-06-10T10:00:00.000Z";
     category := VStr "Food"; source := VUndefined; type := "expense" |}.

(** The bus fare once its amount is updated to 3 on 10 June 2024. *)
Definition raised_fare : Txn :=
  {| id := "77c0d3a4-0006"; amount := VNum 3; date := "2024-01-20";
     description := VStr ""; currency := VStr "$";
     createdAt := VStr "2024-06-10T10:00:00.000Z";
     category := VStr "Transport"; source := VUndefined; type := "expense" |}.

Definition example_docs : list Doc :=
  [ ledger;
    ledger_with [groceries; bus; dinner; lunch; coffee];
    ledger_with [groceries; bus; dinner];
    ledger_with [groceries; coffee; dinner; lunch];
    with_settings [("currency", VStr "€")] ledger;
    initialDoc;
    ledger_with [groceries; raised_fare; dinner; lunch] ].

Definition example_codec : JsonCodec := Reference.table_codec example_docs.

Definition ledger_directory : FS :=
  {[ data_file := {| content := "{doc:0}"; mtime := 1700000000000 |} ]}.

(** A data directory whose data file holds only white space. *)
Definition blank_directory : FS :=
  {[ data_file := {| content := String "010" "  "; mtime := 1700000000000 |} ]}.

(** A data directory whose data file holds a byte order mark (U+FEFF), a
    no-break space (U+00A0) and a line feed, in UTF-8. *)
Definition marked_blank : string :=
  String "239" (String "187" (String "191"
    (String "194" (String "160" (String "010" ""))))).

Definition marked_directory : FS :=
  {[ data_file := {| content := marked_blank; mtime := 1700000000000 |} ]}.

(** The key under which getSummary groups a record: its category (its
    source, for an income), or "Other" when that is missing or falsy. *)
Definition category_key {AR : Arith} (t : Txn) : string :=
  toPropertyKey (js_or (category t) (VStr "Other")).

Definition source_key {AR : Arith} (t : Txn) : string :=
  toPropertyKey (js_or (source t) (VStr "Other")).

Definition is_expense (t : Txn) : bool := String.eqb (type t) "expense".
Definition is_income (t : Txn) : bool := String.eqb (type t) "income".

(** The three messages Income.validate has about the source. *)
Definition source_messages : list string :=
  ["Source is required"; "Source must be a string";
   "Invalid source. Must be one of: " +:+ join ", " INCOME_SOURCES].

Definition new_source (src : JsVal) : Updates :=
  {| u_amount := VUndefined; u_date := DUndef; u_category := VUndefined;
     u_source := src; u_description := VUndefined; u_currency := VUndefined |}.

(** A refund entered as an income under the id of the lunch. *)
Definition refund : Txn :=
  {| id := "3f2b6c1e-0001"; amount := VNum 12.5; date := "2024-01-16";
     description := VStr "Refund"; currency := VStr "$";
     createdAt := VStr "2024-01-16T09:00:00.000Z";
     category := VUndefined; source := VStr "Other"; type := "income" |}.

(** The symbols and the codes of the currencies the application offers. *)
Definition offered_currencies : list string :=
  List.map co_symbol CURRENCY_OPTIONS ++ List.map co_code CURRENCY_OPTIONS.

(** A table as the rate service of the network returns it. *)
Definition fetched_table : Rates :=
  list_to_map [("USD", 1%float); ("EUR", 0.9%float); ("INR", 84%float)].

(** The records of a list whose date is the time value [k]. *)
Definition dated {RT : Runtime} (k : Z) (l : list Txn) : list Txn :=
  List.filter (fun t => time_of t =? k) l.

(** A second expense on the day of the salary, stored after it was paid. *)
Definition rent : Txn :=
  {| id := "c4a1e8d2-0008"; amount := VNum 900; date := "2024-01-31";
     description := VStr "Rent"; currency := VStr "$";
     createdAt := VStr "2024-01-31T18:00:00.000Z";
     category := VStr "Utilities"; source := VUndefined; type := "expense" |}.

(** A text form whose every text is 16 MiB long: a document too large for
    the store.  [doubled n s] is [s] written [2 ^ n] times. *)
Fixpoint doubled (n : nat) (s : string) : string :=
  match n with
  | O => s
  | Datatypes.S n' => doubled n' (s +:+ s)
  end.

Definition bulky_codec : JsonCodec :=
  {| JSON_stringify := fun _ => doubled 20 "0123456789abcdef";
     JSON_parse := fun _ => None |}.

(** A text of 256 accented letters: 256 UTF-16 code units, 512 bytes of
    UTF-8. *)
Definition accented_text : string := doubled 8 "é".

(* ================================================================== *)
(** * Properties *)
(* ================================================================== *)

(** ** Validation *)

Section Validation.
Context {RT : Runtime}.

Lemma mkValidation_invalid (errs : list string) (m : string) :
  In m errs -> isValid (mkValidation errs) = false.
Proof. destruct errs; [intros [] | reflexivity]. Qed.

Lemma amount_errors_bad (a : JsVal) :
  positive_finite a = false ->
  exists m, In m amount_messages /\ Transaction.amount_errors a = [m].
Proof.
  unfold positive_finite, Transaction.amount_errors, amount_messages.
  destruct a as [| |b|x|s|]; intros H;
    try (exists "Amount must be a number"; split; [simpl; tauto | reflexivity]).
  destruct (isNaN x); [eexists; split; [|reflexivity]; simpl; tauto|].
  destruct (isFinite x); simpl in *; [|eexists; split; [|reflexivity]; simpl; tauto].
  destruct (PrimFloat.leb x 0); [|discriminate].
  eexists; split; [|reflexivity]; simpl; tauto.
Qed.

Lemma amount_errors_good (a : JsVal) :
  positive_finite a = true -> Transaction.amount_errors a = [].
Proof.
  unfold positive_finite, Transaction.amount_errors.
  destruct a as [| |b|x|s|]; try discriminate.
  destruct (isNaN x); [discriminate|].
  destruct (isFinite x); [|discriminate].
  destruct (PrimFloat.leb x 0); [discriminate | reflexivity].
Qed.
End Validation.

(** C1 (as amended).  validate() of an Expense and of an Income rejects,
    with one of the four amount messages in its error list, every value
    whose amount is not a positive finite number.  It applies no upper
    bound: for a positive finite amount the error list is exactly what the
    other fields give, whatever the size of the amount, and both 999999999
    and 1000000000 are positive finite amounts. *)
Theorem validate_amount_no_upper_bound {RT : Runtime} (t : Txn) :
  (positive_finite (amount t) = false ->
     exists m, In m amount_messages
       /\ In m (errors (Expense.validate t)) /\ isValid (Expense.validate t) = false
       /\ In m (errors (Income.validate t)) /\ isValid (Income.validate t) = false)
  /\ (positive_finite (amount t) = true ->
       errors (Expense.validate t)
         = other_errors t ++ Expense.category_errors (category t)
       /\ errors (Income.validate t)
         = other_errors t ++ Income.source_errors (source t))
  /\ positive_finite (VNum 999999999) = true
  /\ positive_finite (VNum 1000000000) = true.
Proof.
  split; [|split; [|split; reflexivity]].
  - intros H. destruct (amount_errors_bad _ H) as (m & Hm & He).
    assert (Hin : In m (Transaction.validate_errors t)).
    { unfold Transaction.validate_errors. rewrite He. simpl. tauto. }
    exists m. split; [exact Hm|].
    assert (HE : In m (errors (Expense.validate t))).
    { simpl. apply in_or_app. left. exact Hin. }
    assert (HI : In m (errors (Income.validate t))).
    { simpl. apply in_or_app. left. exact Hin. }
    repeat split; try assumption.
    + exact (mkValidation_invalid _ _ HE).
    + exact (mkValidation_invalid _ _ HI).
  - intros H. simpl. unfold Transaction.validate_errors, other_errors.
    rewrite (amount_errors_good _ H). simpl. rewrite <- !app_assoc. split; reflexivity.
Qed.

(** The amended C1 at work: an expense of 1000000000 with valid other fields
    has the error list of its other fields, which is empty. *)
Lemma validate_amount_no_upper_bound_witness :
  positive_finite (amount (set_amount (VNum 1000000000) lunch)) = true
  /\ errors (Expense.validate (RT := Reference.utc) (set_amount (VNum 1000000000) lunch)) = [].
Proof.
  split; [reflexivity|].
  destruct (validate_amount_no_upper_bound (RT := Reference.utc)
              (set_amount (VNum 1000000000) lunch)) as (_ & H & _).
  destruct (H eq_refl) as [-> _]. vm_compute. reflexivity.
Defined.

(** C1 as stated fails: an expense whose amount is 1000000000, over the
    maximum of 999999999, passes validate(). *)
Lemma validate_accepts_amount_over_maximum :
  Expense.validate (RT := Reference.utc) (set_amount (VNum 1000000000) lunch)
  = {| isValid := true; errors := [] |}.
Proof. vm_compute. reflexivity. Qed.

(** ** Currency conversion *)

Module ConversionFacts.
Import ExchangeRateService.

Lemma includes_In (l : list string) (s : string) : includes l s = true <-> In s l.
Proof.
  unfold includes. rewrite existsb_exists. split.
  - intros (x & Hin & Heq). apply String.eqb_eq in Heq. subst x. exact Hin.
  - intros Hin. exists s. split; [exact Hin | apply String.eqb_refl].
Qed.

Lemma get_property_own {A} (own : gmap string A) (key : string) (a : A) :
  get_property own key = Own a <-> own !! key = Some a.
Proof.
  unfold get_property. destruct (own !! key) as [b|].
  - split; intros H; inversion H; reflexivity.
  - destruct (includes Object_prototype_names key); split; discriminate.
Qed.

Lemma same_code_eq (a b : Code) : same_code a b = true <-> a = b.
Proof.
  destruct a as [x|x], b as [y|y]; simpl;
    try (split; discriminate);
    rewrite String.eqb_eq; split; congruence.
Qed.

Lemma same_code_neq (a b : Code) : same_code a b = false <-> a <> b.
Proof.
  rewrite <- same_code_eq. destruct (same_code a b); split; congruence.
Qed.

Lemma lookup_symbol_entry (sym code : string) :
  In (sym, code) SYMBOL_TO_CODE_entries -> SYMBOL_TO_CODE !! sym = Some code.
Proof.
  intros H. apply elem_of_list_to_map_1.
  - apply (bool_decide_unpack _). vm_compute. exact I.
  - apply list_elem_of_In. exact H.
Qed.

Lemma lookup_symbol_other (s : string) :
  ~ In s (List.map fst SYMBOL_TO_CODE_entries) -> SYMBOL_TO_CODE !! s = None.
Proof.
  intros H. apply not_elem_of_list_to_map_1. intros Hin. apply H.
  apply list_elem_of_In. exact Hin.
Qed.

Lemma lookup_symbol_inv (s code : string) :
  SYMBOL_TO_CODE !! s = Some code -> In (s, code) SYMBOL_TO_CODE_entries.
Proof. intros H. apply list_elem_of_In. apply elem_of_list_to_map_2. exact H. Qed.

Lemma entries_codes_nonempty (sym code : string) :
  In (sym, code) SYMBOL_TO_CODE_entries -> String.eqb code "" = false /\ code <> "CNY".
Proof.
  simpl. intros H.
  repeat (destruct H as [H|H]; [inversion H; subst; split; [reflexivity | discriminate]|]).
  destruct H.
Qed.

(** No currency code of the table is the name of an inherited property. *)
Lemma entries_codes_not_inherited (sym code : string) :
  In (sym, code) SYMBOL_TO_CODE_entries -> includes Object_prototype_names code = false.
Proof.
  simpl. intros H.
  repeat (destruct H as [H|H]; [inversion H; subst; reflexivity|]).
  destruct H.
Qed.

(** No inherited name is a symbol of the table. *)
Lemma inherited_not_symbol (s : string) :
  In s Object_prototype_names -> SYMBOL_TO_CODE !! s = None.
Proof.
  simpl. intros H.
  repeat (destruct H as [H|H]; [subst s; vm_compute; reflexivity|]).
  destruct H.
Qed.

(** The key an inherited member converts to is not an inherited name. *)
Lemma object_key_not_inherited (s : string) :
  In s Object_prototype_names ->
  includes Object_prototype_names (property_key (CodeObject s)) = false.
Proof.
  simpl In. intros H.
  repeat (destruct H as [H|H]; [subst s; vm_compute; reflexivity|]).
  destruct H.
Qed.

Lemma getCodeFromSymbol_known (sym code : string) :
  In (sym, code) SYMBOL_TO_CODE_entries -> getCodeFromSymbol sym = CodeStr code.
Proof.
  intros H. unfold getCodeFromSymbol, get_property.
  rewrite (lookup_symbol_entry _ _ H).
  destruct (entries_codes_nonempty _ _ H) as [-> _]. reflexivity.
Qed.

Lemma getCodeFromSymbol_other (s : string) :
  ~ In s (List.map fst SYMBOL_TO_CODE_entries) -> ~ In s Object_prototype_names ->
  getCodeFromSymbol s = CodeStr s.
Proof.
  intros H Hn. unfold getCodeFromSymbol, get_property.
  rewrite (lookup_symbol_other _ H).
  destruct (includes Object_prototype_names s) eqn:E; [|reflexivity].
  apply includes_In in E. contradiction.
Qed.

Lemma getCodeFromSymbol_inherited (s : string) :
  In s Object_prototype_names -> getCodeFromSymbol s = CodeObject s.
Proof.
  intros H. unfold getCodeFromSymbol, get_property.
  rewrite (inherited_not_symbol _ H).
  apply includes_In in H. rewrite H. reflexivity.
Qed.

Lemma getCodeFromSymbol_never_CNY (s : string) :
  getCodeFromSymbol s = CodeStr "CNY" -> s = "CNY".
Proof.
  unfold getCodeFromSymbol, get_property.
  destruct (SYMBOL_TO_CODE !! s) as [code|] eqn:E.
  - apply lookup_symbol_inv in E. destruct (entries_codes_nonempty _ _ E) as [-> Hne].
    intros H. inversion H. contradiction.
  - destruct (includes Object_prototype_names s); intros H; inversion H. reflexivity.
Qed.

(** Whatever the symbol, the key its code converts to names no inherited
    property: a lookup under it finds an own property or nothing. *)
Lemma code_key_not_inherited (s : string) :
  includes Object_prototype_names (property_key (getCodeFromSymbol s)) = false.
Proof.
  unfold getCodeFromSymbol, get_property.
  destruct (SYMBOL_TO_CODE !! s) as [code|] eqn:E.
  - apply lookup_symbol_inv in E. destruct (entries_codes_nonempty _ _ E) as [-> _].
    exact (entries_codes_not_inherited _ _ E).
  - destruct (includes Object_prototype_names s) eqn:I; [|exact I].
    apply object_key_not_inherited. apply includes_In. exact I.
Qed.

Lemma code_rate_not_inherited (table : Rates) (s name : string) :
  get_property table (property_key (getCodeFromSymbol s)) <> Inherited name.
Proof.
  unfold get_property. destruct (table !! _); [discriminate|].
  rewrite code_key_not_inherited. discriminate.
Qed.

(** The cross rate, when both rates are own properties that can be used. *)
Lemma cross_rate (table : Rates) (amt : float) (a b : Code) (ra rb : float) :
  table !! property_key a = Some ra -> table !! property_key b = Some rb ->
  no_rate (Own ra) = false -> no_rate (Own rb) = false ->
  cross table amt a b = (amt / ra * rb)%float.
Proof.
  intros Ha Hb Hna Hnb. unfold cross.
  apply get_property_own in Ha, Hb. rewrite Ha, Hb, Hna, Hnb. reflexivity.
Qed.
End ConversionFacts.

(** C10 (as amended).  getCodeFromSymbol returns the table's code for each
    of the nine symbols of SYMBOL_TO_CODE.  Any other string is returned
    unchanged (so a code maps to itself) unless it names a property every
    object inherits from Object.prototype, such as [constructor] or
    [toString]: for such a name the result is the inherited object, not a
    string.  The yen sign maps to JPY, and the only string mapped to CNY is
    the code CNY itself, although CURRENCY_OPTIONS lists the yen sign for
    both JPY and CNY.  Hence convertStatic and convert take an amount in
    the yen sign at the JPY rate of the table they consult. *)
Theorem symbol_to_code_mapping :
  List.length ExchangeRateService.SYMBOL_TO_CODE_entries = 9%nat
  /\ (forall sym code, In (sym, code) ExchangeRateService.SYMBOL_TO_CODE_entries ->
        ExchangeRateService.getCodeFromSymbol sym = ExchangeRateService.CodeStr code)
  /\ (forall s, ~ In s (List.map fst ExchangeRateService.SYMBOL_TO_CODE_entries) ->
        ~ In s Object_prototype_names ->
        ExchangeRateService.getCodeFromSymbol s = ExchangeRateService.CodeStr s)
  /\ (forall s, In s Object_prototype_names ->
        ExchangeRateService.getCodeFromSymbol s = ExchangeRateService.CodeObject s)
  /\ ExchangeRateService.getCodeFromSymbol "¥" = ExchangeRateService.CodeStr "JPY"
  /\ (forall s, ExchangeRateService.getCodeFromSymbol s = ExchangeRateService.CodeStr "CNY" ->
        s = "CNY")
  /\ (In {| co_symbol := "¥"; co_name := "Japanese Yen (JPY)"; co_code := "JPY" |}
         CURRENCY_OPTIONS
      /\ In {| co_symbol := "¥"; co_name := "Chinese Yuan (CNY)"; co_code := "CNY" |}
         CURRENCY_OPTIONS)
  /\ (forall cache amt other yen rate,
        let table :=
          default ExchangeRateService.STATIC_USD (ExchangeRateService.rates cache) in
        let code := ExchangeRateService.getCodeFromSymbol other in
        code <> ExchangeRateService.CodeStr "JPY" ->
        table !! "JPY" = Some yen ->
        table !! ExchangeRateService.property_key code = Some rate ->
        ExchangeRateService.no_rate (Own yen) = false ->
        ExchangeRateService.no_rate (Own rate) = false ->
        ExchangeRateService.convertStatic cache amt "¥" other = (amt / yen * rate)%float
        /\ ExchangeRateService.convertStatic cache amt other "¥" = (amt / rate * yen)%float)
  /\ (forall cache now net amt other yen rate,
        let table := fst (ExchangeRateService.getRates cache now net) in
        let cache' := snd (ExchangeRateService.getRates cache now net) in
        let code := ExchangeRateService.getCodeFromSymbol other in
        code <> ExchangeRateService.CodeStr "JPY" ->
        table !! "JPY" = Some yen ->
        table !! ExchangeRateService.property_key code = Some rate ->
        ExchangeRateService.no_rate (Own yen) = false ->
        ExchangeRateService.no_rate (Own rate) = false ->
        ExchangeRateService.convert cache now net amt "¥" other
          = ((amt / yen * rate)%float, cache')
        /\ ExchangeRateService.convert cache now net amt other "¥"
          = ((amt / rate * yen)%float, cache')).
Proof.
  split; [reflexivity|].
  split; [exact ConversionFacts.getCodeFromSymbol_known|].
  split; [exact ConversionFacts.getCodeFromSymbol_other|].
  split; [exact ConversionFacts.getCodeFromSymbol_inherited|].
  assert (Hyen : ExchangeRateService.getCodeFromSymbol "¥"
                 = ExchangeRateService.CodeStr "JPY").
  { apply ConversionFacts.getCodeFromSymbol_known. simpl. tauto. }
  split; [exact Hyen|].
  split; [exact ConversionFacts.getCodeFromSymbol_never_CNY|].
  split; [split; simpl; tauto|].
  split.
  - intros cache amt other yen rate table code Hne Hy Hr Hny Hnr.
    unfold ExchangeRateService.convertStatic. rewrite Hyen. fold code. fold table.
    assert (E1 : ExchangeRateService.same_code (ExchangeRateService.CodeStr "JPY") code
                 = false) by (apply ConversionFacts.same_code_neq; congruence).
    assert (E2 : ExchangeRateService.same_code code (ExchangeRateService.CodeStr "JPY")
                 = false) by (apply ConversionFacts.same_code_neq; exact Hne).
    rewrite E1, E2. split; apply ConversionFacts.cross_rate; assumption.
  - intros cache now net amt other yen rate table cache' code Hne Hy Hr Hny Hnr.
    unfold ExchangeRateService.convert. rewrite Hyen. fold code.
    assert (E1 : ExchangeRateService.same_code (ExchangeRateService.CodeStr "JPY") code
                 = false) by (apply ConversionFacts.same_code_neq; congruence).
    assert (E2 : ExchangeRateService.same_code code (ExchangeRateService.CodeStr "JPY")
                 = false) by (apply ConversionFacts.same_code_neq; exact Hne).
    rewrite E1, E2. subst table cache'.
    destruct (ExchangeRateService.getRates cache now net) as [t c]. cbn [fst snd] in *.
    split; f_equal; apply ConversionFacts.cross_rate; assumption.
Qed.

(** The amended C10 at work: the rupee sign, a code, and a thousand yen in
    dollars on the static table. *)
Lemma symbol_to_code_mapping_witness :
  ExchangeRateService.getCodeFromSymbol "₹" = ExchangeRateService.CodeStr "INR"
  /\ ExchangeRateService.getCodeFromSymbol "EUR" = ExchangeRateService.CodeStr "EUR"
  /\ ExchangeRateService.convertStatic ExchangeRateService.emptyCache 1000 "¥" "USD"
     = (1000 / 148 * 1)%float.
Proof.
  destruct symbol_to_code_mapping as (_ & Hknown & Hother & _ & _ & _ & _ & Hyen & _).
  split; [apply Hknown; simpl; tauto|].
  split.
  - apply Hother; simpl; intros H;
      repeat (destruct H as [H|H]; [discriminate H|]); exact H.
  - apply (Hyen ExchangeRateService.emptyCache 1000%float "USD" 148%float 1%float).
    + vm_compute. discriminate.
    + reflexivity.
    + reflexivity.
    + reflexivity.
    + reflexivity.
Defined.

(** C10 as stated fails: [constructor] is none of the nine symbols, and
    getCodeFromSymbol does not return it unchanged: it returns the
    function every object inherits under that name. *)
Lemma inherited_name_is_not_returned_unchanged :
  ~ In "constructor" (List.map fst ExchangeRateService.SYMBOL_TO_CODE_entries)
  /\ ExchangeRateService.getCodeFromSymbol "constructor"
     = ExchangeRateService.CodeObject "constructor"
  /\ ExchangeRateService.getCodeFromSymbol "constructor"
     <> ExchangeRateService.CodeStr "constructor".
Proof.
  split; [|split].
  - simpl. intros H. repeat (destruct H as [H|H]; [discriminate H|]). exact H.
  - vm_compute. reflexivity.
  - vm_compute. discriminate.
Qed.

(** C7 (as amended).  convertStatic returns the amount itself when the
    symbol-mapped codes are equal.  Otherwise it consults one table, the
    cached rates if there are any and the static USD table if not, and
    returns the amount unchanged when the rate of either code is missing
    from that table, or is zero or NaN; in every other case it returns the
    cross rate (amount / rate[from]) * rate[to].  There is no further
    case: a lookup under a mapped code never lands on an inherited
    property of the table. *)
Theorem convertStatic_cases (cache : ExchangeRateService.Cache) (amt : float)
    (fromCurrency toCurrency : string) :
  let fromCode := ExchangeRateService.getCodeFromSymbol fromCurrency in
  let toCode := ExchangeRateService.getCodeFromSymbol toCurrency in
  let table := default ExchangeRateService.STATIC_USD (ExchangeRateService.rates cache) in
  let fromRate := get_property table (ExchangeRateService.property_key fromCode) in
  let toRate := get_property table (ExchangeRateService.property_key toCode) in
  let result := ExchangeRateService.convertStatic cache amt fromCurrency toCurrency in
  (forall r, ExchangeRateService.no_rate r = true <->
     r = Absent \/ exists x, r = Own x /\ (PrimFloat.is_zero x = true \/ PrimFloat.is_nan x = true))
  /\ (fromCode = toCode -> result = amt)
  /\ (fromCode <> toCode ->
      ExchangeRateService.no_rate fromRate = true
      \/ ExchangeRateService.no_rate toRate = true ->
      result = amt)
  /\ (fromCode <> toCode ->
      forall rf rt, fromRate = Own rf -> toRate = Own rt ->
      ExchangeRateService.no_rate (Own rf) = false ->
      ExchangeRateService.no_rate (Own rt) = false ->
      result = (amt / rf * rt)%float)
  /\ (forall name, fromRate <> Inherited name /\ toRate <> Inherited name).
Proof.
  cbv zeta. unfold ExchangeRateService.convertStatic.
  split; [|split; [|split; [|split]]].
  - intros [x|n|]; simpl.
    + rewrite orb_true_iff. split.
      * intros H. right. exists x. split; [reflexivity | exact H].
      * intros [H | (y & Hy & H)]; [discriminate | congruence].
    + split; [discriminate|]. intros [H | (y & Hy & _)]; discriminate.
    + split; [tauto | reflexivity].
  - intros ->. rewrite (proj2 (ConversionFacts.same_code_eq _ _) eq_refl). reflexivity.
  - intros Hne Hno. apply ConversionFacts.same_code_neq in Hne. rewrite Hne.
    unfold ExchangeRateService.cross.
    destruct Hno as [-> | ->]; [reflexivity | rewrite orb_true_r; reflexivity].
  - intros Hne rf rt Hf Ht Hrf Hrt. apply ConversionFacts.same_code_neq in Hne.
    rewrite Hne. unfold ExchangeRateService.cross. rewrite Hf, Ht, Hrf, Hrt. reflexivity.
  - intros name. split; apply ConversionFacts.code_rate_not_inherited.
Qed.

(** The amended C7 on the static table: 100 dollars in euros. *)
Lemma convertStatic_cases_witness :
  ExchangeRateService.convertStatic ExchangeRateService.emptyCache 100 "$" "€"
  = (100 / 1.00 * 0.92)%float.
Proof.
  destruct (convertStatic_cases ExchangeRateService.emptyCache 100 "$" "€")
    as (_ & _ & _ & H & _).
  apply H.
  - vm_compute. discriminate.
  - reflexivity.
  - reflexivity.
  - reflexivity.
  - reflexivity.
Defined.

(** C7 as stated fails: with a cached table that holds both rates, one of
    them zero, convertStatic does not return the cross rate but the amount
    unchanged. *)
Lemma convertStatic_zero_rate_is_not_cross_rate :
  ExchangeRateService.getCodeFromSymbol "$" = ExchangeRateService.CodeStr "USD"
  /\ ExchangeRateService.getCodeFromSymbol "€" = ExchangeRateService.CodeStr "EUR"
  /\ default ExchangeRateService.STATIC_USD (ExchangeRateService.rates zero_rate_cache)
       !! "USD" = Some 1%float
  /\ default ExchangeRateService.STATIC_USD (ExchangeRateService.rates zero_rate_cache)
       !! "EUR" = Some 0%float
  /\ ExchangeRateService.convertStatic zero_rate_cache 100 "$" "€" = 100%float
  /\ ExchangeRateService.convertStatic zero_rate_cache 100 "$" "€" <> (100 / 1 * 0)%float.
Proof.
  repeat split; try (vm_compute; reflexivity).
  intros H. apply (f_equal (fun x => PrimFloat.eqb x 100)) in H.
  vm_compute in H. discriminate H.
Qed.

(** ** Serialization *)

Section RoundTrip.
Context {RT : Runtime}.

Lemma isValid_errors_nil (errs : list string) :
  isValid (mkValidation errs) = true -> errs = [].
Proof. destruct errs; [reflexivity | discriminate]. Qed.

Lemma valid_base_date (t : Txn) :
  Transaction.validate_errors t = [] -> exists d, Date_parse (date t) = Some d.
Proof.
  unfold Transaction.validate_errors. intros H.
  apply app_eq_nil in H as [_ H]. apply app_eq_nil in H as [H _].
  unfold Transaction.date_errors in H.
  destruct (String.eqb (date t) ""); [discriminate|].
  destruct (Date_parse (date t)) as [d|]; [eauto | discriminate].
Qed.

Lemma valid_expense_date (t : Txn) :
  isValid (Expense.validate t) = true -> exists d, Date_parse (date t) = Some d.
Proof.
  intros H. apply isValid_errors_nil in H. apply app_eq_nil in H as [H _].
  apply valid_base_date. exact H.
Qed.

Lemma valid_income_date (t : Txn) :
  isValid (Income.validate t) = true -> exists d, Date_parse (date t) = Some d.
Proof.
  intros H. apply isValid_errors_nil in H. apply app_eq_nil in H as [H _].
  apply valid_base_date. exact H.
Qed.

Lemma formatDateISO_canonical (s : string) (d : Z) :
  Date_parse s = Some d -> DateUtils.isYMD s = true ->
  DateUtils.formatDateISO (DStr s) = s.
Proof. intros Hd Hy. simpl. rewrite Hd, Hy. reflexivity. Qed.

Lemma default_param_js_or (v d : JsVal) :
  d <> VUndefined -> default_param d (js_or v d) = js_or v d.
Proof.
  unfold js_or. intros H. destruct (truthy v) eqn:E.
  - destruct v; simpl in *; try discriminate; reflexivity.
  - destruct d; simpl; congruence.
Qed.

Lemma js_or_keeps (v d : JsVal) : truthy v = true -> js_or v d = v.
Proof. unfold js_or. intros ->. reflexivity. Qed.

Lemma id_kept (env : Env) (i : string) :
  i <> "" -> (if String.eqb i "" then uuid env else i) = i.
Proof. intros H. apply String.eqb_neq in H. rewrite H. reflexivity. Qed.
End RoundTrip.

(** C8 (as amended).  For every valid Expense or Income value whose id is
    non-empty, whose date has the stored shape YYYY-MM-DD, whose description
    is the empty string or a truthy value, and whose currency is truthy,
    toJSON followed by the matching fromJSON yields an equal value: the same
    id, amount, date, category or source, description, currency (and
    createdAt).  Whatever the value, the description comes back as
    [description || ''] and the currency as [currency || '$']. *)
Theorem toJSON_fromJSON_round_trip {RT : Runtime} (env : Env) (t : Txn) :
  (description (Expense.fromJSON env (Expense.toJSON t))
     = js_or (description t) (VStr "")
   /\ currency (Expense.fromJSON env (Expense.toJSON t))
     = js_or (currency t) (VStr "$")
   /\ description (Income.fromJSON env (Income.toJSON t))
     = js_or (description t) (VStr "")
   /\ currency (Income.fromJSON env (Income.toJSON t))
     = js_or (currency t) (VStr "$"))
  /\ (id t <> "" ->
      DateUtils.isYMD (date t) = true ->
      description t = VStr "" \/ truthy (description t) = true ->
      truthy (currency t) = true ->
      (is_Expense t -> isValid (Expense.validate t) = true ->
         Expense.fromJSON env (Expense.toJSON t) = t)
      /\ (is_Income t -> isValid (Income.validate t) = true ->
         Income.fromJSON env (Income.toJSON t) = t)).
Proof.
  split.
  - simpl. rewrite !default_param_js_or by discriminate. repeat split; reflexivity.
  - intros Hid Hymd Hdesc Hcur.
    assert (Hd : js_or (description t) (VStr "") = description t).
    { destruct Hdesc as [-> | H]; [reflexivity | apply js_or_keeps; exact H]. }
    split.
    + intros [Hty Hsrc] Hv. destruct (valid_expense_date t Hv) as [d Hparse].
      unfold Expense.fromJSON, Expense.new, Transaction.new, Expense.toJSON,
        Transaction.toJSON. cbv zeta. cbn [id amount date description currency
        createdAt category source type].
      rewrite (formatDateISO_canonical _ _ Hparse Hymd), (id_kept env _ Hid).
      rewrite !default_param_js_or by discriminate.
      rewrite Hd, (js_or_keeps _ (VStr "$") Hcur), <- Hty, <- Hsrc.
      destruct t; reflexivity.
    + intros [Hty Hcat] Hv. destruct (valid_income_date t Hv) as [d Hparse].
      unfold Income.fromJSON, Income.new, Transaction.new, Income.toJSON,
        Transaction.toJSON. cbv zeta. cbn [id amount date description currency
        createdAt category source type].
      rewrite (formatDateISO_canonical _ _ Hparse Hymd), (id_kept env _ Hid).
      rewrite !default_param_js_or by discriminate.
      rewrite Hd, (js_or_keeps _ (VStr "$") Hcur), <- Hty, <- Hcat.
      destruct t; reflexivity.
Qed.

(** The amended C8 on a stored expense, rebuilt months later. *)
Lemma toJSON_fromJSON_round_trip_witness :
  Expense.fromJSON (RT := Reference.utc) june_10th (Expense.toJSON lunch) = lunch.
Proof.
  destruct (toJSON_fromJSON_round_trip (RT := Reference.utc) june_10th lunch)
    as [_ H].
  apply H.
  - discriminate.
  - reflexivity.
  - right. reflexivity.
  - reflexivity.
  - split; reflexivity.
  - reflexivity.
Defined.

(** C8 as stated fails: an expense built with a null description is valid,
    and comes back from toJSON and fromJSON with the description ['']. *)
Lemma round_trip_changes_null_description :
  isValid (Expense.validate (RT := Reference.utc) treat) = true
  /\ description treat = VNull
  /\ description (Expense.fromJSON (RT := Reference.utc) june_10th (Expense.toJSON treat))
     = VStr ""
  /\ Expense.fromJSON (RT := Reference.utc) june_10th (Expense.toJSON treat) <> treat.
Proof.
  repeat split; try (vm_compute; reflexivity).
  intros H. apply (f_equal description) in H. vm_compute in H. discriminate H.
Qed.

(** ** The service boundary *)

Section ServiceBoundary.
Context {RT : Runtime} {AR : Arith} {S : Type} {ST : Storage S}.
Import TransactionService.

Lemma caught_never_throws {A} (m : M S A) (h : JsError -> A) (s : S) :
  throws (fst (try_catch m (fun e => ret (h e)) s)) = false.
Proof. unfold try_catch, ret. destruct (m s) as [[a|e] s']; reflexivity. Qed.

Lemma getExpenseById_throw (ident : string) (s : S) (e : JsError) :
  fst (getExpenseById ident s) = Throw e -> storage_threw e.
Proof.
  unfold getExpenseById, bind, ret.
  destruct (st_getExpenses s) as [[es|e1] s1] eqn:E1; simpl; intros H;
    [discriminate | inversion H; subst; exists s, s1; left; exact E1].
Qed.

Lemma getIncomeById_throw (ident : string) (s : S) (e : JsError) :
  fst (getIncomeById ident s) = Throw e -> storage_threw e.
Proof.
  unfold getIncomeById, bind, ret.
  destruct (st_getIncome s) as [[es|e1] s1] eqn:E1; simpl; intros H;
    [discriminate | inversion H; subst; exists s, s1; right; exact E1].
Qed.

Lemma getTransactionById_throw (ident : string) (s : S) (e : JsError) :
  fst (getTransactionById ident s) = Throw e -> storage_threw e.
Proof.
  unfold getTransactionById. unfold bind at 1.
  destruct (getExpenseById ident s) as [[[x|]|e1] s1] eqn:E1; simpl.
  - discriminate.
  - unfold bind. destruct (getIncomeById ident s1) as [[[y|]|e2] s2] eqn:E2;
      simpl; try discriminate.
    intros H. inversion H; subst. apply (getIncomeById_throw ident s1).
    rewrite E2. reflexivity.
  - intros H. inversion H; subst. apply (getExpenseById_throw ident s).
    rewrite E1. reflexivity.
Qed.

Lemma two_reads_throw {A} (k : list Txn -> list Txn -> M S A) (s : S) (e : JsError) :
  (forall es inc s0, throws (fst (k es inc s0)) = false) ->
  fst ((let! es := st_getExpenses in let! inc := st_getIncome in k es inc) s) = Throw e ->
  storage_threw e.
Proof.
  intros Hk. unfold bind.
  destruct (st_getExpenses s) as [[es|e1] s1] eqn:E1; simpl.
  - destruct (st_getIncome s1) as [[inc|e2] s2] eqn:E2; simpl.
    + intros H. specialize (Hk es inc s2). rewrite H in Hk. discriminate.
    + intros H. inversion H; subst. exists s1, s2. right. exact E2.
  - intros H. inversion H; subst. exists s, s1. left. exact E1.
Qed.

Lemma getTransactions_throw (f : Filters) (s : S) (e : JsError) :
  fst (getTransactions f s) = Throw e -> storage_threw e.
Proof. apply two_reads_throw. reflexivity. Qed.

Lemma getSummary_throw (f : Filters) (s : S) (e : JsError) :
  fst (getSummary f s) = Throw e -> storage_threw e.
Proof.
  unfold getSummary. unfold bind at 1.
  destruct (getTransactions f s) as [[l|e1] s1] eqn:E1; simpl; [discriminate|].
  intros H. inversion H; subst. apply (getTransactions_throw f s).
  rewrite E1. reflexivity.
Qed.

Lemma findTransactionById_throw (partialId : string) (s : S) (e : JsError) :
  fst (findTransactionById partialId s) = Throw e -> storage_threw e.
Proof.
  apply two_reads_throw. intros es inc s0.
  destruct (List.find _ es); [reflexivity|].
  destruct (List.find _ inc); reflexivity.
Qed.

Lemma deleteTransaction_throw (ident : string) (s : S) (e : JsError) :
  fst (deleteTransaction ident s) = Throw e -> storage_threw e.
Proof.
  unfold deleteTransaction. unfold bind at 1.
  destruct (getTransactionById ident s) as [[[t|]|e1] s1] eqn:E1; cbn [fst].
  - intros H. exfalso.
    assert (Hn : throws (fst ((if String.eqb (type t) "expense"
                               then deleteExpense ident else deleteIncome ident) s1)) = false).
    { destruct (String.eqb (type t) "expense"); apply caught_never_throws. }
    rewrite H in Hn. discriminate.
  - discriminate.
  - intros H. inversion H; subst. apply (getTransactionById_throw ident s).
    rewrite E1. reflexivity.
Qed.

Lemma updateTransaction_throw (env : Env) (ident : string) (u : Updates)
    (s : S) (e : JsError) :
  fst (updateTransaction env ident u s) = Throw e -> storage_threw e.
Proof.
  unfold updateTransaction. unfold bind at 1.
  destruct (getTransactionById ident s) as [[[t|]|e1] s1] eqn:E1; cbn [fst].
  - intros H. exfalso.
    assert (Hn : throws (fst ((if String.eqb (type t) "expense"
                               then updateExpense env ident u
                               else updateIncome env ident u) s1)) = false).
    { destruct (String.eqb (type t) "expense"); apply caught_never_throws. }
    rewrite H in Hn. discriminate.
  - discriminate.
  - intros H. inversion H; subst. apply (getTransactionById_throw ident s).
    rewrite E1. reflexivity.
Qed.

(** Validation failures. *)
Lemma addExpense_invalid (env : Env) (amt : JsVal) (dt : DateInput)
    (cat desc cur : JsVal) (s : S) :
  let expense := Expense.new env amt dt cat (default_param (VStr "") desc)
                   (default_param (VStr "$") cur) None in
  isValid (Expense.validate expense) = false ->
  addExpense env amt dt cat desc cur s
  = (Return (failure (join ", " (errors (Expense.validate expense)))), s).
Proof.
  cbv zeta. intros H. unfold addExpense, try_catch. rewrite H. reflexivity.
Qed.

Lemma addIncome_invalid (env : Env) (amt : JsVal) (dt : DateInput)
    (src desc cur : JsVal) (s : S) :
  let item := Income.new env amt dt src (default_param (VStr "") desc)
                (default_param (VStr "$") cur) None in
  isValid (Income.validate item) = false ->
  addIncome env amt dt src desc cur s
  = (Return (failure (join ", " (errors (Income.validate item)))), s).
Proof.
  cbv zeta. intros H. unfold addIncome, try_catch. rewrite H. reflexivity.
Qed.

Lemma updateExpense_invalid (env : Env) (ident : string) (u : Updates)
    (s s1 : S) (es : list Txn) (x : Txn) :
  st_getExpenses s = (Return es, s1) ->
  find_by_id ident es = Some x ->
  isValid (Expense.validate (updatedExpense env x u)) = false ->
  updateExpense env ident u s
  = (Return (failure (join ", " (errors (Expense.validate (updatedExpense env x u))))), s1).
Proof.
  intros Hr Hf Hv. unfold updateExpense, try_catch, getExpenseById, bind, ret.
  rewrite Hr, Hf, Hv. reflexivity.
Qed.

Lemma updateIncome_invalid (env : Env) (ident : string) (u : Updates)
    (s s1 : S) (inc : list Txn) (x : Txn) :
  st_getIncome s = (Return inc, s1) ->
  find_by_id ident inc = Some x ->
  isValid (Income.validate (updatedIncome env x u)) = false ->
  updateIncome env ident u s
  = (Return (failure (join ", " (errors (Income.validate (updatedIncome env x u))))), s1).
Proof.
  intros Hr Hf Hv. unfold updateIncome, try_catch, getIncomeById, bind, ret.
  rewrite Hr, Hf, Hv. reflexivity.
Qed.

(** Lookup misses. *)
Lemma expense_not_found (env : Env) (ident : string) (u : Updates)
    (s s1 : S) (es : list Txn) :
  st_getExpenses s = (Return es, s1) ->
  find_by_id ident es = None ->
  deleteExpense ident s = (Return (failure "Expense not found"), s1)
  /\ updateExpense env ident u s = (Return (failure "Expense not found"), s1).
Proof.
  intros Hr Hf.
  unfold deleteExpense, updateExpense, try_catch, getExpenseById, bind, ret.
  rewrite Hr, Hf. split; reflexivity.
Qed.

Lemma income_not_found (env : Env) (ident : string) (u : Updates)
    (s s1 : S) (inc : list Txn) :
  st_getIncome s = (Return inc, s1) ->
  find_by_id ident inc = None ->
  deleteIncome ident s = (Return (failure "Income not found"), s1)
  /\ updateIncome env ident u s = (Return (failure "Income not found"), s1).
Proof.
  intros Hr Hf.
  unfold deleteIncome, updateIncome, try_catch, getIncomeById, bind, ret.
  rewrite Hr, Hf. split; reflexivity.
Qed.

Lemma transaction_not_found (env : Env) (ident : string) (u : Updates)
    (s s1 s2 : S) (es inc : list Txn) :
  st_getExpenses s = (Return es, s1) ->
  st_getIncome s1 = (Return inc, s2) ->
  find_by_id ident es = None ->
  find_by_id ident inc = None ->
  deleteTransaction ident s = (Return (failure "Transaction not found"), s2)
  /\ updateTransaction env ident u s = (Return (failure "Transaction not found"), s2).
Proof.
  intros Hr1 Hr2 Hf1 Hf2.
  unfold deleteTransaction, updateTransaction, getTransactionById,
    getExpenseById, getIncomeById, bind, ret.
  rewrite Hr1, Hf1, Hr2, Hf2. split; reflexivity.
Qed.

(** Storage errors inside the guarded operations: each of the two calls
    such an operation makes on the storage object. *)
Lemma addExpense_storage_error (env : Env) (amt : JsVal) (dt : DateInput)
    (cat desc cur : JsVal) (s s1 : S) (e : JsError) :
  let expense := Expense.new env amt dt cat (default_param (VStr "") desc)
                   (default_param (VStr "$") cur) None in
  isValid (Expense.validate expense) = true ->
  st_addExpense (Expense.toJSON expense) s = (Throw e, s1) ->
  addExpense env amt dt cat desc cur s
  = (Return (failure ("Failed to add expense: " +:+ error_message e)), s1).
Proof.
  cbv zeta. intros Hv He. unfold addExpense, try_catch, bind, ret.
  rewrite Hv. cbn [negb]. rewrite He. reflexivity.
Qed.

Lemma addIncome_storage_error (env : Env) (amt : JsVal) (dt : DateInput)
    (src desc cur : JsVal) (s s1 : S) (e : JsError) :
  let item := Income.new env amt dt src (default_param (VStr "") desc)
                (default_param (VStr "$") cur) None in
  isValid (Income.validate item) = true ->
  st_addIncome (Income.toJSON item) s = (Throw e, s1) ->
  addIncome env amt dt src desc cur s
  = (Return (failure ("Failed to add income: " +:+ error_message e)), s1).
Proof.
  cbv zeta. intros Hv He. unfold addIncome, try_catch, bind, ret.
  rewrite Hv. cbn [negb]. rewrite He. reflexivity.
Qed.

Lemma expense_read_error (env : Env) (ident : string) (u : Updates)
    (s s1 : S) (e : JsError) :
  st_getExpenses s = (Throw e, s1) ->
  deleteExpense ident s
    = (Return (failure ("Failed to delete expense: " +:+ error_message e)), s1)
  /\ updateExpense env ident u s
    = (Return (failure ("Failed to update expense: " +:+ error_message e)), s1).
Proof.
  intros He. unfold deleteExpense, updateExpense, try_catch, getExpenseById, bind, ret.
  rewrite He. split; reflexivity.
Qed.

Lemma income_read_error (env : Env) (ident : string) (u : Updates)
    (s s1 : S) (e : JsError) :
  st_getIncome s = (Throw e, s1) ->
  deleteIncome ident s
    = (Return (failure ("Failed to delete income: " +:+ error_message e)), s1)
  /\ updateIncome env ident u s
    = (Return (failure ("Failed to update income: " +:+ error_message e)), s1).
Proof.
  intros He. unfold deleteIncome, updateIncome, try_catch, getIncomeById, bind, ret.
  rewrite He. split; reflexivity.
Qed.

Lemma deleteExpense_storage_error (ident : string) (s s1 s2 : S)
    (es : list Txn) (x : Txn) (e : JsError) :
  st_getExpenses s = (Return es, s1) ->
  find_by_id ident es = Some x ->
  st_deleteExpense ident s1 = (Throw e, s2) ->
  deleteExpense ident s
  = (Return (failure ("Failed to delete expense: " +:+ error_message e)), s2).
Proof.
  intros Hr Hf He. unfold deleteExpense, try_catch, getExpenseById, bind, ret.
  rewrite Hr, Hf, He. reflexivity.
Qed.

Lemma deleteIncome_storage_error (ident : string) (s s1 s2 : S)
    (inc : list Txn) (x : Txn) (e : JsError) :
  st_getIncome s = (Return inc, s1) ->
  find_by_id ident inc = Some x ->
  st_deleteIncome ident s1 = (Throw e, s2) ->
  deleteIncome ident s
  = (Return (failure ("Failed to delete income: " +:+ error_message e)), s2).
Proof.
  intros Hr Hf He. unfold deleteIncome, try_catch, getIncomeById, bind, ret.
  rewrite Hr, Hf, He. reflexivity.
Qed.

Lemma updateExpense_storage_error (env : Env) (ident : string) (u : Updates)
    (s s1 s2 : S) (es : list Txn) (x : Txn) (e : JsError) :
  st_getExpenses s = (Return es, s1) ->
  find_by_id ident es = Some x ->
  isValid (Expense.validate (updatedExpense env x u)) = true ->
  st_updateExpense ident (Expense.toJSON (updatedExpense env x u)) s1 = (Throw e, s2) ->
  updateExpense env ident u s
  = (Return (failure ("Failed to update expense: " +:+ error_message e)), s2).
Proof.
  intros Hr Hf Hv He. unfold updateExpense, try_catch, getExpenseById, bind, ret.
  rewrite Hr, Hf, Hv. cbn [negb]. rewrite He. reflexivity.
Qed.

Lemma updateIncome_storage_error (env : Env) (ident : string) (u : Updates)
    (s s1 s2 : S) (inc : list Txn) (x : Txn) (e : JsError) :
  st_getIncome s = (Return inc, s1) ->
  find_by_id ident inc = Some x ->
  isValid (Income.validate (updatedIncome env x u)) = true ->
  st_updateIncome ident (Income.toJSON (updatedIncome env x u)) s1 = (Throw e, s2) ->
  updateIncome env ident u s
  = (Return (failure ("Failed to update income: " +:+ error_message e)), s2).
Proof.
  intros Hr Hf Hv He. unfold updateIncome, try_catch, getIncomeById, bind, ret.
  rewrite Hr, Hf, Hv. cbn [negb]. rewrite He. reflexivity.
Qed.
End ServiceBoundary.

(** C4 (as amended).  Across the Transaction Service, a validation failure
    and a lookup miss come back as a failure result (success = false, with
    the joined validation messages or a not-found message) and are never
    thrown.  addExpense, addIncome, updateExpense, updateIncome,
    deleteExpense and deleteIncome never throw at all: an error the storage
    object throws inside any of them, at the read of the list or at the
    write, is caught and reported as a failure result whose message is
    "Failed to add expense: " (add income, update expense, update income,
    delete expense, delete income) followed by the message of the error.
    The remaining operations (getTransactions, getSummary,
    findTransactionById, the by-id getters, deleteTransaction and
    updateTransaction) can throw, and what they throw is always an error
    that a read of the store threw.  The lists the storage object returns
    hold records, objects with an id. *)
Theorem failures_reported_only_storage_errors_thrown
    {RT : Runtime} {AR : Arith} {S : Type} {ST : Storage S} (env : Env) (s : S) :
  (* the guarded operations never throw *)
  ((forall amt dt cat desc cur,
      throws (fst (TransactionService.addExpense env amt dt cat desc cur s)) = false)
   /\ (forall amt dt src desc cur,
      throws (fst (TransactionService.addIncome env amt dt src desc cur s)) = false)
   /\ (forall ident u,
      throws (fst (TransactionService.updateExpense env ident u s)) = false
      /\ throws (fst (TransactionService.updateIncome env ident u s)) = false)
   /\ (forall ident,
      throws (fst (TransactionService.deleteExpense ident s)) = false
      /\ throws (fst (TransactionService.deleteIncome ident s)) = false))
  (* validation failures are reported, and nothing is stored *)
  /\ ((forall amt dt cat desc cur,
      let expense := Expense.new env amt dt cat (default_param (VStr "") desc)
                       (default_param (VStr "$") cur) None in
      isValid (Expense.validate expense) = false ->
      TransactionService.addExpense env amt dt cat desc cur s
      = (Return (TransactionService.failure
                   (join ", " (errors (Expense.validate expense)))), s))
   /\ (forall amt dt src desc cur,
      let item := Income.new env amt dt src (default_param (VStr "") desc)
                    (default_param (VStr "$") cur) None in
      isValid (Income.validate item) = false ->
      TransactionService.addIncome env amt dt src desc cur s
      = (Return (TransactionService.failure
                   (join ", " (errors (Income.validate item)))), s))
   /\ (forall ident u s1 es x,
      st_getExpenses s = (Return es, s1) ->
      TransactionService.find_by_id ident es = Some x ->
      isValid (Expense.validate (TransactionService.updatedExpense env x u)) = false ->
      TransactionService.updateExpense env ident u s
      = (Return (TransactionService.failure
                   (join ", " (errors (Expense.validate
                                         (TransactionService.updatedExpense env x u))))), s1))
   /\ (forall ident u s1 inc x,
      st_getIncome s = (Return inc, s1) ->
      TransactionService.find_by_id ident inc = Some x ->
      isValid (Income.validate (TransactionService.updatedIncome env x u)) = false ->
      TransactionService.updateIncome env ident u s
      = (Return (TransactionService.failure
                   (join ", " (errors (Income.validate
                                         (TransactionService.updatedIncome env x u))))), s1)))
  (* lookup misses are reported *)
  /\ ((forall ident u s1 es,
      st_getExpenses s = (Return es, s1) ->
      TransactionService.find_by_id ident es = None ->
      TransactionService.deleteExpense ident s
        = (Return (TransactionService.failure "Expense not found"), s1)
      /\ TransactionService.updateExpense env ident u s
        = (Return (TransactionService.failure "Expense not found"), s1))
   /\ (forall ident u s1 inc,
      st_getIncome s = (Return inc, s1) ->
      TransactionService.find_by_id ident inc = None ->
      TransactionService.deleteIncome ident s
        = (Return (TransactionService.failure "Income not found"), s1)
      /\ TransactionService.updateIncome env ident u s
        = (Return (TransactionService.failure "Income not found"), s1))
   /\ (forall ident u s1 s2 es inc,
      st_getExpenses s = (Return es, s1) ->
      st_getIncome s1 = (Return inc, s2) ->
      TransactionService.find_by_id ident es = None ->
      TransactionService.find_by_id ident inc = None ->
      TransactionService.deleteTransaction ident s
        = (Return (TransactionService.failure "Transaction not found"), s2)
      /\ TransactionService.updateTransaction env ident u s
        = (Return (TransactionService.failure "Transaction not found"), s2)))
  (* an error of the storage object inside a guarded operation is reported:
     at the write of an add, *)
  /\ ((forall amt dt cat desc cur s1 e,
      let expense := Expense.new env amt dt cat (default_param (VStr "") desc)
                       (default_param (VStr "$") cur) None in
      isValid (Expense.validate expense) = true ->
      st_addExpense (Expense.toJSON expense) s = (Throw e, s1) ->
      TransactionService.addExpense env amt dt cat desc cur s
      = (Return (TransactionService.failure
                   ("Failed to add expense: " +:+ error_message e)), s1))
   /\ (forall amt dt src desc cur s1 e,
      let item := Income.new env amt dt src (default_param (VStr "") desc)
                    (default_param (VStr "$") cur) None in
      isValid (Income.validate item) = true ->
      st_addIncome (Income.toJSON item) s = (Throw e, s1) ->
      TransactionService.addIncome env amt dt src desc cur s
      = (Return (TransactionService.failure
                   ("Failed to add income: " +:+ error_message e)), s1))
     (* at the read of an update or a delete, *)
   /\ (forall ident u s1 e,
      st_getExpenses s = (Throw e, s1) ->
      TransactionService.deleteExpense ident s
        = (Return (TransactionService.failure
                     ("Failed to delete expense: " +:+ error_message e)), s1)
      /\ TransactionService.updateExpense env ident u s
        = (Return (TransactionService.failure
                     ("Failed to update expense: " +:+ error_message e)), s1))
   /\ (forall ident u s1 e,
      st_getIncome s = (Throw e, s1) ->
      TransactionService.deleteIncome ident s
        = (Return (TransactionService.failure
                     ("Failed to delete income: " +:+ error_message e)), s1)
      /\ TransactionService.updateIncome env ident u s
        = (Return (TransactionService.failure
                     ("Failed to update income: " +:+ error_message e)), s1))
     (* and at the write of a delete or an update *)
   /\ (forall ident s1 s2 es x e,
      st_getExpenses s = (Return es, s1) ->
      TransactionService.find_by_id ident es = Some x ->
      st_deleteExpense ident s1 = (Throw e, s2) ->
      TransactionService.deleteExpense ident s
      = (Return (TransactionService.failure
                   ("Failed to delete expense: " +:+ error_message e)), s2))
   /\ (forall ident s1 s2 inc x e,
      st_getIncome s = (Return inc, s1) ->
      TransactionService.find_by_id ident inc = Some x ->
      st_deleteIncome ident s1 = (Throw e, s2) ->
      TransactionService.deleteIncome ident s
      = (Return (TransactionService.failure
                   ("Failed to delete income: " +:+ error_message e)), s2))
   /\ (forall ident u s1 s2 es x e,
      st_getExpenses s = (Return es, s1) ->
      TransactionService.find_by_id ident es = Some x ->
      isValid (Expense.validate (TransactionService.updatedExpense env x u)) = true ->
      st_updateExpense ident
        (Expense.toJSON (TransactionService.updatedExpense env x u)) s1 = (Throw e, s2) ->
      TransactionService.updateExpense env ident u s
      = (Return (TransactionService.failure
                   ("Failed to update expense: " +:+ error_message e)), s2))
   /\ (forall ident u s1 s2 inc x e,
      st_getIncome s = (Return inc, s1) ->
      TransactionService.find_by_id ident inc = Some x ->
      isValid (Income.validate (TransactionService.updatedIncome env x u)) = true ->
      st_updateIncome ident
        (Income.toJSON (TransactionService.updatedIncome env x u)) s1 = (Throw e, s2) ->
      TransactionService.updateIncome env ident u s
      = (Return (TransactionService.failure
                   ("Failed to update income: " +:+ error_message e)), s2)))
  (* what is thrown was thrown by the storage object *)
  /\ (forall e,
      (exists f, fst (TransactionService.getTransactions f s) = Throw e)
      \/ (exists f, fst (TransactionService.getSummary f s) = Throw e)
      \/ (exists p, fst (TransactionService.findTransactionById p s) = Throw e)
      \/ (exists ident, fst (TransactionService.getExpenseById ident s) = Throw e)
      \/ (exists ident, fst (TransactionService.getIncomeById ident s) = Throw e)
      \/ (exists ident, fst (TransactionService.getTransactionById ident s) = Throw e)
      \/ (exists ident, fst (TransactionService.deleteTransaction ident s) = Throw e)
      \/ (exists ident u, fst (TransactionService.updateTransaction env ident u s) = Throw e) ->
      storage_threw e).
Proof.
  split; [|split; [|split; [|split]]].
  - repeat split; intros; apply caught_never_throws.
  - split; [|split; [|split]].
    + intros. apply addExpense_invalid. assumption.
    + intros. apply addIncome_invalid. assumption.
    + intros. eapply updateExpense_invalid; eassumption.
    + intros. eapply updateIncome_invalid; eassumption.
  - split; [|split].
    + intros. eapply expense_not_found; eassumption.
    + intros. eapply income_not_found; eassumption.
    + intros. eapply transaction_not_found; eassumption.
  - split; [|split; [|split; [|split; [|split; [|split; [|split]]]]]].
    + intros. apply addExpense_storage_error; assumption.
    + intros. apply addIncome_storage_error; assumption.
    + intros. apply expense_read_error. assumption.
    + intros. apply income_read_error. assumption.
    + intros. eapply deleteExpense_storage_error; eassumption.
    + intros. eapply deleteIncome_storage_error; eassumption.
    + intros. eapply updateExpense_storage_error; eassumption.
    + intros. eapply updateIncome_storage_error; eassumption.
  - intros e H.
    destruct H as [[f H]|[[f H]|[[q H]|[[i H]|[[i H]|[[i H]|[[i H]|[i [u H]]]]]]]]].
    + exact (getTransactions_throw _ _ _ H).
    + exact (getSummary_throw _ _ _ H).
    + exact (findTransactionById_throw _ _ _ H).
    + exact (getExpenseById_throw _ _ _ H).
    + exact (getIncomeById_throw _ _ _ H).
    + exact (getTransactionById_throw _ _ _ H).
    + exact (deleteTransaction_throw _ _ _ H).
    + exact (updateTransaction_throw _ _ _ _ _ H).
Qed.

(** The amended C4 at work: an expense of amount 0 is refused with the
    message of the rule it breaks, an unknown id is reported as not found,
    an update of the salary on a store that reads but cannot write is
    reported as failed, and the error a store that cannot be read throws
    is the one getTransactions throws. *)
Lemma failures_reported_only_storage_errors_thrown_witness :
  TransactionService.addExpense (RT := Reference.utc)
      (ST := Reference.memory) june_10th (VNum 0) (DStr "2024-06-10")
      (VStr "Food") VUndefined VUndefined ledger
    = (Return (TransactionService.failure "Amount must be a positive number"), ledger)
  /\ TransactionService.deleteExpense (ST := Reference.memory) "no-such-id" ledger
    = (Return (TransactionService.failure "Expense not found"), ledger)
  /\ TransactionService.updateIncome (RT := Reference.utc)
       (ST := Reference.read_only (Error "Failed to write data: EROFS"))
       june_10th "9a7d4e2f-0002" (new_amount (VNum 3100)) ledger
    = (Return (TransactionService.failure
                 "Failed to update income: Failed to write data: EROFS"), ledger)
  /\ storage_threw (ST := Reference.broken (Error "Failed to read data: EACCES"))
      (Error "Failed to read data: EACCES").
Proof.
  split; [|split; [|split]].
  - destruct (failures_reported_only_storage_errors_thrown
                (RT := Reference.utc) (AR := Reference.numbers)
                (ST := Reference.memory) june_10th ledger) as (_ & (H & _) & _).
    apply (H (VNum 0) (DStr "2024-06-10") (VStr "Food") VUndefined VUndefined).
    reflexivity.
  - destruct (failures_reported_only_storage_errors_thrown
                (RT := Reference.utc) (AR := Reference.numbers)
                (ST := Reference.memory) june_10th ledger) as (_ & _ & (H & _) & _).
    apply (H "no-such-id" (Build_Updates VUndefined DUndef VUndefined VUndefined
                             VUndefined VUndefined) ledger (expenses ledger));
      reflexivity.
  - destruct (failures_reported_only_storage_errors_thrown
                (RT := Reference.utc) (AR := Reference.numbers)
                (ST := Reference.read_only (Error "Failed to write data: EROFS"))
                june_10th ledger)
      as (_ & _ & _ & (_ & _ & _ & _ & _ & _ & _ & H) & _).
    apply (H "9a7d4e2f-0002" (new_amount (VNum 3100)) ledger ledger
             (income ledger) salary (Error "Failed to write data: EROFS"));
      reflexivity.
  - destruct (failures_reported_only_storage_errors_thrown
                (RT := Reference.utc) (AR := Reference.numbers)
                (ST := Reference.broken (Error "Failed to read data: EACCES"))
                june_10th tt) as (_ & _ & _ & _ & H).
    apply H. left. exists no_filters. reflexivity.
Defined.

(** C4 as stated fails: when the store cannot write, addExpense does not let
    the store's error through as a thrown error; it returns a failure
    result. *)
Lemma addExpense_reports_storage_error :
  st_addExpense (Storage := Reference.broken (Error "Failed to write data: ENOSPC"))
    (Expense.toJSON (Expense.new (RT := Reference.utc) june_10th (VNum 12.5)
                       (DStr "2024-06-10") (VStr "Food") (VStr "") (VStr "$") None)) tt
  = (Throw (Error "Failed to write data: ENOSPC"), tt)
  /\ TransactionService.addExpense (RT := Reference.utc)
       (ST := Reference.broken (Error "Failed to write data: ENOSPC"))
       june_10th (VNum 12.5) (DStr "2024-06-10") (VStr "Food") VUndefined VUndefined tt
     = (Return (TransactionService.failure
                  "Failed to add expense: Failed to write data: ENOSPC"), tt).
Proof. split; vm_compute; reflexivity. Qed.

(** ** Updates *)

Section Updates.
Context {RT : Runtime} {S : Type} {ST : Storage S}.
Import TransactionService.

Lemma member_errors_outside (what what_lc : string) (allowed : list string) (v : JsVal) :
  (forall c, In c allowed -> v <> VStr c) ->
  exists m, member_errors what what_lc allowed v = [m]
    /\ In m [what +:+ " is required"; what +:+ " must be a string";
             "Invalid " +:+ what_lc +:+ ". Must be one of: " +:+ join ", " allowed].
Proof.
  intros Hout. unfold member_errors. destruct (truthy v) eqn:Ht; cbn [negb].
  - destruct v as [| |b|x|str|]; try (eexists; split; [reflexivity | simpl; tauto]).
    assert (Hinc : includes allowed str = false).
    { unfold includes. apply not_true_iff_false. intros H.
      apply existsb_exists in H as (c & Hc & Heq). apply String.eqb_eq in Heq.
      subst c. exact (Hout str Hc eq_refl). }
    rewrite Hinc. eexists; split; [reflexivity | simpl; tauto].
  - eexists; split; [reflexivity | simpl; tauto].
Qed.

Lemma override_given (u old : JsVal) : u <> VUndefined -> override u old = u.
Proof. unfold override. intros H. destruct u; simpl; congruence. Qed.

(** What an update does to each field of the stored record. *)
Lemma updatedExpense_fields (env : Env) (x : Txn) (u : Updates) :
  let y := updatedExpense env x u in
  id y = (if String.eqb (id x) "" then uuid env else id x)
  /\ amount y = override (u_amount u) (amount x)
  /\ date y = DateUtils.formatDateISO (update_date (u_date u) (date x))
  /\ category y = override (u_category u) (category x)
  /\ description y = default_param (VStr "") (override (u_description u) (description x))
  /\ currency y = default_param (VStr "$")
                    (if is_undefined (u_currency u) then js_or (currency x) (VStr "$")
                     else u_currency u)
  /\ createdAt y = VStr (toISOString (now env)).
Proof. cbv zeta. repeat split; reflexivity. Qed.
End Updates.

(** C5, at an input where it fails.  A stored expense created on
    2024-01-15 is updated on 2024-06-10 with [{ amount: 15 }] only.  The
    update succeeds and replaces the record; id, date, category, description
    and currency are kept, but createdAt, which is absent from the updates,
    is no longer the stored creation time: it is the time of the update. *)
Theorem updateExpense_overwrites_createdAt :
  exists stored : Txn,
    TransactionService.updateExpense (RT := Reference.utc) (ST := Reference.memory)
      june_10th (id lunch) (new_amount (VNum 15)) ledger
    = (Return {| success := true; message := "Expense updated successfully";
                 payload := Some stored |},
       {| expenses := [groceries; bus; dinner; stored]; income := [salary];
          settings := Some [] |})
    /\ id stored = id lunch /\ amount stored = VNum 15
    /\ date stored = date lunch /\ category stored = category lunch
    /\ description stored = description lunch /\ currency stored = currency lunch
    /\ createdAt lunch = VStr "2024-01-15T12:00:00.000Z"
    /\ createdAt stored = VStr "2024-06-10T10:00:00.000Z".
Proof.
  eexists. split; [vm_compute; reflexivity|].
  repeat split; vm_compute; reflexivity.
Qed.

(** The same update on a host west of UTC also moves the date, which is
    absent from the updates, one day back: the stored string is read as
    UTC midnight and written back from its local calendar fields. *)
Lemma updateExpense_moves_date_west_of_utc :
  date lunch = "2024-01-15"
  /\ date (TransactionService.updatedExpense (RT := new_york) june_10th lunch
             (new_amount (VNum 15))) = "2024-01-14".
Proof. split; vm_compute; reflexivity. Qed.

(** C6.  Updating a stored expense with a category that is present in the
    updates and is not one of EXPENSE_CATEGORIES is rejected: updateExpense
    returns a failure result whose message is the joined error list of
    validate() on the whole rebuilt value, a list that contains a category
    message.  Nothing is written: the store is left in the state in which the
    lookup read left it. *)
Theorem updateExpense_rejects_unknown_category
    {RT : Runtime} {S : Type} {ST : Storage S}
    (env : Env) (ident : string) (u : Updates) (s s1 : S) (es : list Txn) (x : Txn) :
  st_getExpenses s = (Return es, s1) ->
  TransactionService.find_by_id ident es = Some x ->
  u_category u <> VUndefined ->
  (forall c, In c EXPENSE_CATEGORIES -> u_category u <> VStr c) ->
  exists m,
    In m category_messages
    /\ In m (errors (Expense.validate (TransactionService.updatedExpense env x u)))
    /\ TransactionService.updateExpense env ident u s
       = (Return {| success := false;
                    message := join ", " (errors (Expense.validate
                                 (TransactionService.updatedExpense env x u)));
                    payload := None |}, s1).
Proof.
  intros Hread Hfind Hgiven Hout.
  destruct (member_errors_outside "Category" "category" EXPENSE_CATEGORIES _ Hout)
    as (m & Hm & Hin).
  assert (Herr : In m (errors (Expense.validate (TransactionService.updatedExpense env x u)))).
  { cbn [errors Expense.validate mkValidation]. apply in_or_app. right.
    unfold Expense.category_errors.
    replace (category (TransactionService.updatedExpense env x u)) with (u_category u).
    - rewrite Hm. simpl. tauto.
    - symmetry. apply (override_given _ (category x) Hgiven). }
  exists m. split; [exact Hin|]. split; [exact Herr|].
  apply (updateExpense_invalid env ident u s s1 es x Hread Hfind).
  exact (mkValidation_invalid _ _ Herr).
Qed.

(** C6 at work: changing the category of a stored expense to "Travel". *)
Lemma updateExpense_rejects_unknown_category_witness :
  TransactionService.updateExpense (RT := Reference.utc) (ST := Reference.memory)
    june_10th (id lunch) (new_category (VStr "Travel")) ledger
  = (Return {| success := false;
               message := "Invalid category. Must be one of: Food, Transport, Utilities, Entertainment, Healthcare, Shopping, Education, Other";
               payload := None |}, ledger).
Proof.
  destruct (updateExpense_rejects_unknown_category (RT := Reference.utc)
              (ST := Reference.memory) june_10th (id lunch)
              (new_category (VStr "Travel")) ledger ledger (expenses ledger) lunch)
    as (m & _ & _ & H).
  - reflexivity.
  - reflexivity.
  - discriminate.
  - simpl. intros c Hc.
    repeat (destruct Hc as [<-|Hc]; [discriminate|]). destruct Hc.
  - rewrite H. vm_compute. reflexivity.
Defined.

(** ** Sorting *)

Section ArraySortFacts.
Context {A : Type} (cmp : A -> A -> Z).

Lemma sort_insert_perm (x : A) (l : list A) :
  Permutation (x :: l) (sort_insert cmp x l).
Proof.
  induction l as [|y l IH]; simpl; [reflexivity|].
  destruct (cmp x y <=? 0); [reflexivity|].
  rewrite perm_swap. apply perm_skip. exact IH.
Qed.

Lemma Array_sort_perm (l : list A) : Permutation l (Array_sort cmp l).
Proof.
  induction l as [|x l IH]; simpl; [reflexivity|].
  rewrite <- sort_insert_perm. apply perm_skip. exact IH.
Qed.

Lemma Array_sort_In (x : A) (l : list A) : In x (Array_sort cmp l) <-> In x l.
Proof.
  split; apply Permutation_in; [symmetry|]; apply Array_sort_perm.
Qed.

Lemma Array_sort_length (l : list A) :
  List.length (Array_sort cmp l) = List.length l.
Proof. symmetry. apply Permutation_length, Array_sort_perm. Qed.

(** When the comparator is the difference of a key on the elements at
    hand, the result is in descending key order. *)
Variable key : A -> Z.

Lemma sort_insert_sorted (x : A) (l : list A) :
  (forall b, In b l -> cmp x b = key b - key x) ->
  StronglySorted (descending key) l ->
  StronglySorted (descending key) (sort_insert cmp x l).
Proof.
  intros Hcmp Hs. induction Hs as [|y l Hs IH Hall]; simpl.
  - constructor; constructor.
  - destruct (cmp x y <=? 0) eqn:E.
    + apply Z.leb_le in E. rewrite (Hcmp y) in E by (left; reflexivity).
      constructor; [constructor; assumption|].
      constructor; [unfold descending; lia|].
      rewrite List.Forall_forall in Hall |- *. intros z Hz.
      specialize (Hall z Hz). unfold descending in *. lia.
    + apply Z.leb_gt in E. rewrite (Hcmp y) in E by (left; reflexivity).
      constructor.
      * apply IH. intros b Hb. apply Hcmp. right. exact Hb.
      * rewrite List.Forall_forall in Hall |- *. intros z Hz.
        apply (Permutation_in _ (Permutation_sym (sort_insert_perm x l))) in Hz.
        destruct Hz as [<-|Hz]; [unfold descending; lia | apply Hall; exact Hz].
Qed.

Lemma Array_sort_sorted (l : list A) :
  (forall a b, In a l -> In b l -> cmp a b = key b - key a) ->
  StronglySorted (descending key) (Array_sort cmp l).
Proof.
  induction l as [|x l IH]; intros Hcmp; simpl; [constructor|].
  apply sort_insert_sorted.
  - intros b Hb. apply Hcmp; [left; reflexivity | right].
    apply (proj1 (Array_sort_In b l)). exact Hb.
  - apply IH. intros a b Ha Hb. apply Hcmp; right; assumption.
Qed.
End ArraySortFacts.

(** ** Queries *)

Section Queries.
Context {RT : Runtime}.
Import TransactionService.

Lemma strict_eq_string (v : JsVal) (str : string) :
  strict_eq v (VStr str) = true <-> v = VStr str.
Proof.
  destruct v; simpl; try (split; [discriminate | congruence]).
  rewrite String.eqb_eq. split; congruence.
Qed.

Lemma type_filter_spec (f : Filters) (t : Txn) :
  type_filter f t = true <->
  (f_type f = VStr "expense" -> type t = "expense")
  /\ (f_type f = VStr "income" -> type t = "income").
Proof.
  unfold type_filter.
  destruct (strict_eq (f_type f) (VStr "expense")) eqn:E1.
  - apply strict_eq_string in E1. rewrite String.eqb_eq. split.
    + intros H. split; [auto | rewrite E1; discriminate].
    + intros [H _]. auto.
  - destruct (strict_eq (f_type f) (VStr "income")) eqn:E2.
    + apply strict_eq_string in E2. rewrite String.eqb_eq. split.
      * intros H. split; [rewrite E2; discriminate | auto].
      * intros [_ H]. auto.
    + split; [|reflexivity]. intros _. split; intros H;
        apply strict_eq_string in H; congruence.
Qed.

Lemma not_before_spec (check : Z) (startDate : DateInput) :
  DateUtils.not_before check startDate = true <->
  (forall b, date_truthy startDate = true -> DateUtils.new_Date startDate = Some b ->
             setHoursZero b <= check).
Proof.
  unfold DateUtils.not_before. destruct (date_truthy startDate).
  - destruct (DateUtils.new_Date startDate) as [b|].
    + rewrite negb_true_iff, Z.ltb_ge. split.
      * intros H b' _ Hb. inversion Hb; subst. exact H.
      * intros H. apply H; reflexivity.
    + split; [discriminate | reflexivity].
  - split; [discriminate | reflexivity].
Qed.

Lemma not_after_spec (check : Z) (endDate : DateInput) :
  DateUtils.not_after check endDate = true <->
  (forall b, date_truthy endDate = true -> DateUtils.new_Date endDate = Some b ->
             check <= setHoursZero b).
Proof.
  unfold DateUtils.not_after. destruct (date_truthy endDate).
  - destruct (DateUtils.new_Date endDate) as [b|].
    + rewrite negb_true_iff, Z.ltb_ge. split.
      * intros H b' _ Hb. inversion Hb; subst. exact H.
      * intros H. apply H; reflexivity.
    + split; [discriminate | reflexivity].
  - split; [discriminate | reflexivity].
Qed.

Lemma isDateInRange_spec (d : string) (startDate endDate : DateInput) :
  DateUtils.isDateInRange d startDate endDate = true <->
  within_bounds startDate endDate d.
Proof.
  unfold DateUtils.isDateInRange, within_bounds.
  destruct (Date_parse d) as [t|].
  - destruct (DateUtils.not_before (setHoursZero t) startDate) eqn:E1; cbn [negb].
    + destruct (DateUtils.not_after (setHoursZero t) endDate) eqn:E2; cbn [negb].
      * split; [|reflexivity]. intros _. exists t.
        split; [reflexivity|]. split.
        -- apply not_before_spec. exact E1.
        -- apply not_after_spec. exact E2.
      * split; [discriminate|]. intros (t' & Ht & _ & H). inversion Ht; subst.
        apply not_after_spec in H. congruence.
    + split; [discriminate|]. intros (t' & Ht & H & _). inversion Ht; subst.
      apply not_before_spec in H. congruence.
  - split; [discriminate|]. intros (t & Ht & _). discriminate.
Qed.

Lemma date_filter_spec (f : Filters) (t : Txn) :
  date_filter f t = true <->
  (date_truthy (f_startDate f) = true \/ date_truthy (f_endDate f) = true ->
   within_bounds (f_startDate f) (f_endDate f) (date t)).
Proof.
  unfold date_filter.
  destruct (date_truthy (f_startDate f) || date_truthy (f_endDate f)) eqn:E.
  - rewrite isDateInRange_spec. apply orb_true_iff in E. tauto.
  - apply orb_false_iff in E as [E1 E2]. rewrite E1, E2.
    split; [|reflexivity]. intros _ [H|H]; discriminate.
Qed.

Lemma category_filter_spec (f : Filters) (t : Txn) :
  category_filter f t = true <->
  (truthy (f_category f) = true ->
   type t = "expense" /\ strict_eq (category t) (f_category f) = true).
Proof.
  unfold category_filter. destruct (truthy (f_category f)).
  - rewrite andb_true_iff, String.eqb_eq. tauto.
  - split; [discriminate | reflexivity].
Qed.

Lemma source_filter_spec (f : Filters) (t : Txn) :
  source_filter f t = true <->
  (truthy (f_source f) = true ->
   type t = "income" /\ strict_eq (source t) (f_source f) = true).
Proof.
  unfold source_filter. destruct (truthy (f_source f)).
  - rewrite andb_true_iff, String.eqb_eq. tauto.
  - split; [discriminate | reflexivity].
Qed.

Lemma filter_filter {A} (p q : A -> bool) (l : list A) :
  List.filter q (List.filter p l) = List.filter (fun x => p x && q x) l.
Proof.
  induction l as [|x l IH]; simpl; [reflexivity|].
  destruct (p x); simpl; [destruct (q x); rewrite IH; reflexivity | exact IH].
Qed.

Lemma select_as_one_filter (f : Filters) (es inc : list Txn) :
  select f es inc = Array_sort by_date_desc (List.filter (passes f) (tagged es inc)).
Proof.
  unfold select, passes, tagged. rewrite !filter_filter. reflexivity.
Qed.

Lemma by_date_desc_is_key (a b : Txn) :
  Date_parse (date a) <> None -> Date_parse (date b) <> None ->
  by_date_desc a b = time_of b - time_of a.
Proof.
  unfold by_date_desc, time_of.
  destruct (Date_parse (date a)), (Date_parse (date b)); simpl; congruence.
Qed.

Lemma descending_not_older (l : list Txn) :
  StronglySorted (descending time_of) l -> StronglySorted not_older l.
Proof.
  induction 1 as [|x l Hs IH Hall]; constructor; [exact IH|].
  rewrite List.Forall_forall in Hall |- *. intros y Hy ta tb Ha Hb.
  specialize (Hall y Hy). unfold descending, time_of in Hall.
  rewrite Ha, Hb in Hall. exact Hall.
Qed.

Lemma select_sorted (f : Filters) (es inc : list Txn) :
  (forall t, In t (select f es inc) -> Date_parse (date t) <> None) ->
  StronglySorted not_older (select f es inc).
Proof.
  intros Hvalid. apply descending_not_older.
  rewrite select_as_one_filter in *. apply Array_sort_sorted.
  intros a b Ha Hb. apply by_date_desc_is_key; apply Hvalid;
    apply Array_sort_In; assumption.
Qed.

Lemma passes_spec (f : Filters) (t : Txn) :
  passes f t = true <->
  type_filter f t = true /\ date_filter f t = true
  /\ category_filter f t = true /\ source_filter f t = true.
Proof. unfold passes. rewrite !andb_true_iff. tauto. Qed.
End Queries.

(** X29.  What getTransactions computes, on every host.  It reads the expenses
    and the income, tags each record with its type and keeps exactly the
    records that pass all of: the type filter (the record's type is the one
    asked for, when filters.type is 'expense' or 'income'); the date filter
    (when a start or an end bound is given, the record's date parses and its
    day, normalised by setHours(0,0,0,0), is neither before the day of the
    start bound nor after the day of the end bound, either bound being
    optional); the category filter (when given: the record is an expense of
    that category); the source filter (when given: the record is an income
    from that source).  The survivors are returned, each as often as it was
    stored, sorted by date with the most recent first; this order holds
    whenever the dates of the survivors parse, which a date bound
    guarantees. *)
Theorem getTransactions_filters_then_sorts_by_date
    {RT : Runtime} {S : Type} {ST : Storage S} (f : Filters) :
  (forall s s1 s2 es inc,
     st_getExpenses s = (Return es, s1) ->
     st_getIncome s1 = (Return inc, s2) ->
     TransactionService.getTransactions f s
     = (Return (TransactionService.select f es inc), s2))
  /\ (forall es inc,
      Permutation (TransactionService.select f es inc)
                  (List.filter (passes f) (tagged es inc))
      /\ (forall t,
          In t (TransactionService.select f es inc) <->
          In t (tagged es inc)
          /\ ((f_type f = VStr "expense" -> type t = "expense")
              /\ (f_type f = VStr "income" -> type t = "income"))
          /\ (date_truthy (f_startDate f) = true \/ date_truthy (f_endDate f) = true ->
              within_bounds (f_startDate f) (f_endDate f) (date t))
          /\ (truthy (f_category f) = true ->
              type t = "expense" /\ strict_eq (category t) (f_category f) = true)
          /\ (truthy (f_source f) = true ->
              type t = "income" /\ strict_eq (source t) (f_source f) = true))
      /\ ((forall t, In t (TransactionService.select f es inc) ->
                     Date_parse (date t) <> None) ->
          StronglySorted not_older (TransactionService.select f es inc))
      /\ (date_truthy (f_startDate f) = true \/ date_truthy (f_endDate f) = true ->
          StronglySorted not_older (TransactionService.select f es inc))).
Proof.
  split.
  - intros s s1 s2 es inc H1 H2.
    unfold TransactionService.getTransactions, bind, ret. rewrite H1, H2. reflexivity.
  - intros es inc.
    assert (Hmem : forall t,
      In t (TransactionService.select f es inc) <->
      In t (tagged es inc)
      /\ ((f_type f = VStr "expense" -> type t = "expense")
          /\ (f_type f = VStr "income" -> type t = "income"))
      /\ (date_truthy (f_startDate f) = true \/ date_truthy (f_endDate f) = true ->
          within_bounds (f_startDate f) (f_endDate f) (date t))
      /\ (truthy (f_category f) = true ->
          type t = "expense" /\ strict_eq (category t) (f_category f) = true)
      /\ (truthy (f_source f) = true ->
          type t = "income" /\ strict_eq (source t) (f_source f) = true)).
    { intros t. rewrite select_as_one_filter, Array_sort_In, List.filter_In, passes_spec.
      rewrite type_filter_spec, date_filter_spec, category_filter_spec,
        source_filter_spec. reflexivity. }
    split; [|split; [exact Hmem | split]].
    + rewrite select_as_one_filter. symmetry. apply Array_sort_perm.
    + apply select_sorted.
    + intros Hbound. apply select_sorted. intros t Ht.
      apply Hmem in Ht as (_ & _ & Hd & _).
      destruct (Hd Hbound) as (d & Hparse & _). congruence.
Qed.

(** The example of the specification: of four expenses and one income, the
    Food expenses of January 2024 come back, most recent first. *)
Lemma getTransactions_filters_then_sorts_by_date_witness :
  TransactionService.getTransactions (RT := Reference.utc) (ST := Reference.memory)
    food_in_january ledger
  = (Return [lunch; groceries], ledger).
Proof.
  destruct (getTransactions_filters_then_sorts_by_date (RT := Reference.utc)
              (ST := Reference.memory) food_in_january) as [H _].
  rewrite (H ledger ledger ledger (expenses ledger) (income ledger)
             eq_refl eq_refl).
  vm_compute. reflexivity.
Defined.

(** Both bounds are inclusive: a range that starts on the day of one expense
    and ends on the day of another keeps both. *)
Lemma range_bounds_are_inclusive :
  TransactionService.select (RT := Reference.utc)
    {| f_type := VUndefined; f_startDate := DStr "2024-01-05";
       f_endDate := DStr "2024-01-15"; f_category := VUndefined;
       f_source := VUndefined |}
    (expenses ledger) (income ledger)
  = [lunch; groceries].
Proof. vm_compute. reflexivity. Qed.

(** On the reference host, in any zone, the range filter on date-only
    strings is the comparison of calendar days. *)
Lemma parse_date_only_whole_days (s : string) (t : Z) :
  Reference.parse_date_only s = Some t -> exists k, t = k * Reference.msPerDay.
Proof.
  unfold Reference.parse_date_only. destruct (DateUtils.isYMD s); [|discriminate].
  destruct (list_ascii_of_string s) as [|c0 l]; [discriminate|].
  do 9 (destruct l as [|? l]; [discriminate|]).
  destruct l; [|discriminate].
  destruct (_ && _); [|discriminate].
  intros H. inversion H. eauto.
Qed.

Lemma parse_date_only_nonempty (s : string) (t : Z) :
  Reference.parse_date_only s = Some t -> date_truthy (DStr s) = true.
Proof. destruct s; [discriminate | reflexivity]. Qed.

Lemma reference_midnight_of_whole_day (tz k : Z) :
  setHoursZero (Runtime := Reference.runtime tz) (k * Reference.msPerDay)
  = (k + tz / Reference.msPerDay) * Reference.msPerDay - tz.
Proof.
  cbn [setHoursZero Reference.runtime]. rewrite Z.div_add_l by discriminate.
  reflexivity.
Qed.

(** X30.  With the record's date and both bounds given as date-only
    strings, on a host at any fixed offset from UTC, isDateInRange holds
    exactly when the date lies between the two bounds, both included. *)
Lemma reference_range_is_calendar_range (tz : Z) (d s e : string) (td ts te : Z) :
  Reference.parse_date_only d = Some td ->
  Reference.parse_date_only s = Some ts ->
  Reference.parse_date_only e = Some te ->
  DateUtils.isDateInRange (RT := Reference.runtime tz) d (DStr s) (DStr e) = true
  <-> ts <= td <= te.
Proof.
  intros Hd Hs He. rewrite isDateInRange_spec. unfold within_bounds.
  destruct (parse_date_only_whole_days _ _ Hd) as [kd ->].
  destruct (parse_date_only_whole_days _ _ Hs) as [ks ->].
  destruct (parse_date_only_whole_days _ _ He) as [ke ->].
  pose proof (parse_date_only_nonempty _ _ Hs) as Ts.
  pose proof (parse_date_only_nonempty _ _ He) as Te.
  assert (HD : 0 < Reference.msPerDay) by reflexivity.
  split.
  - intros (t & Ht & H1 & H2). cbn [Date_parse Reference.runtime] in Ht.
    rewrite Hd in Ht. inversion Ht; subst t.
    specialize (H1 _ Ts Hs). specialize (H2 _ Te He).
    rewrite !reference_midnight_of_whole_day in H1, H2. nia.
  - intros [H1 H2]. exists (kd * Reference.msPerDay). split; [exact Hd|].
    split; intros b _ Hb; cbn [DateUtils.new_Date Date_parse Reference.runtime] in Hb.
    + rewrite Hs in Hb. inversion Hb; subst b.
      rewrite !reference_midnight_of_whole_day. nia.
    + rewrite He in Hb. inversion Hb; subst b.
      rewrite !reference_midnight_of_whole_day. nia.
Qed.

(** ** The file store *)

Section Names.
Variable path : string.

Lemma append_cons (c : ascii) (a b : string) :
  String c a +:+ b = String c (a +:+ b).
Proof. reflexivity. Qed.

Lemma append_nil_l (b : string) : "" +:+ b = b.
Proof. reflexivity. Qed.

Lemma append_nil_r (a : string) : a +:+ "" = a.
Proof.
  induction a as [|c a IH]; [reflexivity|]. rewrite append_cons, IH. reflexivity.
Qed.

Lemma append_cancel (a b : string) : path +:+ a = path +:+ b -> a = b.
Proof. apply (String.app_inj path). Qed.

Lemma append_ne_self (a : string) : a <> "" -> path +:+ a <> path.
Proof.
  intros Ha H. apply Ha, append_cancel. rewrite append_nil_r. exact H.
Qed.

Lemma prefix_append (a b : string) :
  String.prefix (path +:+ a) (path +:+ b) = String.prefix a b.
Proof.
  induction path as [|c q IH]; [reflexivity|].
  rewrite !append_cons. simpl.
  destruct (ascii_dec c c) as [_|N]; [exact IH | contradiction].
Qed.

Lemma prefix_longer (a : string) : a <> "" -> String.prefix (path +:+ a) path = false.
Proof.
  intros Ha. induction path as [|c q IH].
  - rewrite append_nil_l. destruct a; [contradiction | reflexivity].
  - rewrite append_cons. simpl.
    destruct (ascii_dec c c) as [_|N]; [exact IH | contradiction].
Qed.

Lemma length_append (a b : string) :
  String.length (a +:+ b) = (String.length a + String.length b)%nat.
Proof.
  induction a as [|c a IH]; [reflexivity|]. rewrite append_cons. simpl.
  rewrite IH. reflexivity.
Qed.

Lemma substring_whole (b : string) : String.substring 0 (String.length b) b = b.
Proof. induction b as [|d b IH]; simpl; [reflexivity | rewrite IH; reflexivity]. Qed.

Lemma substring_append_r (a b : string) :
  String.substring (String.length a) (String.length b) (a +:+ b) = b.
Proof.
  induction a as [|c a IH].
  - rewrite append_nil_l. apply substring_whole.
  - rewrite append_cons. simpl. exact IH.
Qed.

Lemma prefix_self_append (a b : string) : String.prefix a (a +:+ b) = true.
Proof.
  induction a as [|c a IH].
  - destruct b; reflexivity.
  - rewrite append_cons. simpl.
    destruct (ascii_dec c c) as [_|N]; [exact IH | contradiction].
Qed.

Lemma append_assoc (a b c : string) : (a +:+ b) +:+ c = a +:+ (b +:+ c).
Proof.
  induction a as [|x a IH]; [reflexivity|]. rewrite !append_cons, IH. reflexivity.
Qed.

Lemma endsWith_append (a b : string) : endsWith (a +:+ b) b = true.
Proof.
  unfold endsWith. rewrite length_append.
  replace (String.length a + String.length b - String.length b)%nat
    with (String.length a) by lia.
  rewrite substring_append_r, String.eqb_refl, andb_true_r.
  apply Nat.leb_le. lia.
Qed.
End Names.

Section StoreFacts.
Context {RT : Runtime} {JC : JsonCodec}.
Variable path : string.

Import StorageService.

(** *** Names *)

Lemma stamped_is_backup (now : Z) :
  is_backup_name path (timestampedBackupPath path now) = true.
Proof.
  unfold StorageService.is_backup_name, StorageService.timestampedBackupPath.
  apply andb_true_intro. split.
  - rewrite <- (append_assoc path). apply prefix_self_append.
  - rewrite <- !append_assoc. apply endsWith_append.
Qed.

Lemma path_not_backup : is_backup_name path path = false.
Proof.
  unfold StorageService.is_backup_name. rewrite prefix_longer by discriminate.
  reflexivity.
Qed.

Lemma tempPath_not_backup : is_backup_name path (tempPath path) = false.
Proof.
  unfold StorageService.is_backup_name, StorageService.tempPath.
  rewrite prefix_append. vm_compute. reflexivity.
Qed.

Lemma backupPath_not_backup : is_backup_name path (backupPath path) = false.
Proof.
  unfold StorageService.is_backup_name, StorageService.backupPath.
  rewrite prefix_append. vm_compute. reflexivity.
Qed.

Lemma corrupted_not_backup (now : Z) : is_backup_name path (corruptedPath path now) = false.
Proof.
  unfold StorageService.is_backup_name, StorageService.corruptedPath.
  rewrite prefix_append. vm_compute. reflexivity.
Qed.

Lemma tempPath_ne_path : tempPath path <> path.
Proof. apply append_ne_self. discriminate. Qed.

Lemma backupPath_ne_path : backupPath path <> path.
Proof. apply append_ne_self. discriminate. Qed.

Lemma tempPath_ne_backupPath : tempPath path <> backupPath path.
Proof. intros H. apply append_cancel in H. discriminate H. Qed.

Lemma corrupted_ne_path (now : Z) : corruptedPath path now <> path.
Proof. apply append_ne_self. discriminate. Qed.

Lemma corrupted_ne_tempPath (now : Z) : corruptedPath path now <> tempPath path.
Proof. intros H. apply append_cancel in H. discriminate H. Qed.

Lemma corrupted_ne_backupPath (now : Z) : corruptedPath path now <> backupPath path.
Proof. intros H. apply append_cancel in H. discriminate H. Qed.

Lemma backup_name_ne (p q : string) :
  is_backup_name path p = true -> is_backup_name path q = false -> p <> q.
Proof. intros Hp Hq ->. congruence. Qed.
End StoreFacts.

Section StoreRuns.
Context {RT : Runtime} {JC : JsonCodec}.
Variable path : string.
Import StorageService.

(** *** Listing and unlinking *)

Lemma filter_map_fst {A B} (p : A -> bool) (l : list (A * B)) :
  List.filter p (List.map fst l) = List.map fst (List.filter (fun x => p (fst x)) l).
Proof.
  induction l as [|[a b] l IH]; simpl; [reflexivity|].
  destruct (p a); simpl; rewrite IH; reflexivity.
Qed.

Lemma mapM_stat (fs : FS) (l : list (string * File)) :
  (forall n f, In (n, f) l -> fs !! n = Some f) ->
  mapM (fun f => let! st := fs.statSync f in
                 ret {| bf_name := f; bf_time := mtime st |})
       (List.map fst l) fs
  = (Return (List.map (fun nf => {| bf_name := fst nf; bf_time := mtime (snd nf) |}) l),
     fs).
Proof.
  induction l as [|[n f] l IH]; intros H; [reflexivity|].
  specialize (IH (fun n' f' Hin => H n' f' (or_intror Hin))).
  simpl. unfold bind, ret, fs.statSync in *.
  rewrite (H n f) by (left; reflexivity). rewrite IH. reflexivity.
Qed.

Lemma listBackups_run (fs : FS) :
  listBackups path fs = (Return (sorted_backups path fs), fs).
Proof.
  unfold listBackups. unfold bind at 1. unfold fs.readdirSync.
  rewrite filter_map_fst. unfold bind. rewrite mapM_stat; [reflexivity|].
  intros n f Hin. apply List.filter_In in Hin as [Hin _].
  apply elem_of_map_to_list, list_elem_of_In. exact Hin.
Qed.

Lemma sorted_backups_In (fs : FS) (e : BackupFile) :
  In e (sorted_backups path fs) <->
  is_backup_name path (bf_name e) = true
  /\ exists f, fs !! bf_name e = Some f /\ bf_time e = mtime f.
Proof.
  unfold sorted_backups, backup_entries.
  rewrite Array_sort_In, List.in_map_iff. split.
  - intros ([n f] & <- & Hin). apply List.filter_In in Hin as [Hin Hb].
    simpl in *. split; [exact Hb|]. exists f. split; [|reflexivity].
    apply elem_of_map_to_list, list_elem_of_In. exact Hin.
  - intros (Hb & f & Hf & Ht). exists (bf_name e, f). split.
    + destruct e; simpl in *. subst. reflexivity.
    + apply List.filter_In. split; [|exact Hb].
      apply list_elem_of_In, elem_of_map_to_list. exact Hf.
Qed.

Lemma delete_all_lookup_out (names : list string) (fs : FS) (p : string) :
  ~ In p names -> delete_all names fs !! p = fs !! p.
Proof.
  revert fs. induction names as [|n names IH]; intros fs Hout; simpl; [reflexivity|].
  rewrite IH by (intros H; apply Hout; right; exact H).
  apply lookup_delete_ne. intros ->. apply Hout. left. reflexivity.
Qed.

Lemma delete_all_lookup_in (names : list string) (fs : FS) (p : string) :
  In p names -> delete_all names fs !! p = None.
Proof.
  revert fs. induction names as [|n names IH]; intros fs; simpl; [tauto|].
  intros Hin. destruct (in_dec string_dec p names) as [Hrest|Hout].
  - apply IH. exact Hrest.
  - destruct Hin as [->|Hin]; [|contradiction].
    rewrite delete_all_lookup_out by exact Hout. apply lookup_delete_eq.
Qed.

Lemma forEach_unlink (l : list BackupFile) (fs : FS) :
  forEach (fun file => try_catch (fs.unlinkSync (bf_name file)) (fun err => ret tt)) l fs
  = (Return tt, delete_all (List.map bf_name l) fs).
Proof.
  revert fs. induction l as [|e l IH]; intros fs; simpl; [reflexivity|].
  unfold bind, try_catch, fs.unlinkSync.
  destruct (fs !! bf_name e) as [f|] eqn:E.
  - apply IH.
  - unfold fs.enoent, throw, ret. rewrite IH.
    rewrite (delete_id fs (bf_name e)) by exact E. reflexivity.
Qed.

Lemma In_skipn_In {A} (k : nat) (l : list A) (x : A) :
  In x (List.skipn k l) -> In x l.
Proof.
  intros H. rewrite <- (List.firstn_skipn k l). apply in_or_app. right. exact H.
Qed.

Lemma dropped_are_backups (fs : FS) (n : string) :
  In n (dropped_backups path fs) -> is_backup_name path n = true.
Proof.
  unfold dropped_backups. intros H. apply List.in_map_iff in H as (e & <- & He).
  destruct (3 <=? _)%nat; [|destruct He].
  apply In_skipn_In in He. apply sorted_backups_In in He. tauto.
Qed.

Lemma rotated_lookup_other (now : Z) (fs : FS) (p : string) :
  is_backup_name path p = false -> rotated path now fs !! p = fs !! p.
Proof.
  intros Hp. unfold rotated.
  assert (Hd : delete_all (dropped_backups path fs) fs !! p = fs !! p).
  { apply delete_all_lookup_out. intros H. apply dropped_are_backups in H. congruence. }
  destruct (delete_all (dropped_backups path fs) fs !! path); [|exact Hd].
  rewrite lookup_insert_ne; [exact Hd|].
  apply backup_name_ne with (path := path); [apply stamped_is_backup | exact Hp].
Qed.

Lemma rotateBackups_run (now : Z) (fs : FS) :
  rotateBackups path now fs = (Return tt, rotated path now fs).
Proof.
  unfold rotateBackups, try_catch. unfold bind at 1. rewrite listBackups_run.
  unfold bind at 1, rotated, dropped_backups. cbv zeta.
  destruct (3 <=? List.length (sorted_backups path fs))%nat.
  - rewrite forEach_unlink. unfold bind, fs.existsSync, fs.copyFileSync.
    destruct (delete_all _ fs !! path) eqn:E; rewrite ?E; reflexivity.
  - unfold ret at 1. simpl delete_all. unfold bind, fs.existsSync, fs.copyFileSync, ret.
    destruct (fs !! path) eqn:E; rewrite ?E; reflexivity.
Qed.
End StoreRuns.

Section MonadFacts.
Context {S : Type}.

Lemma bind_return {A B} (m : M S A) (k : A -> M S B) (s s' : S) (a : A) :
  m s = (Return a, s') -> bind m k s = k a s'.
Proof. unfold bind. intros ->. reflexivity. Qed.

Lemma bind_throw {A B} (m : M S A) (k : A -> M S B) (s s' : S) (e : JsError) :
  m s = (Throw e, s') -> bind m k s = (Throw e, s').
Proof. unfold bind. intros ->. reflexivity. Qed.

Lemma try_catch_return {A} (m : M S A) (h : JsError -> M S A) (s s' : S) (a : A) :
  m s = (Return a, s') -> try_catch m h s = (Return a, s').
Proof. unfold try_catch. intros ->. reflexivity. Qed.

Lemma try_catch_throw {A} (m : M S A) (h : JsError -> M S A) (s s' : S) (e : JsError) :
  m s = (Throw e, s') -> try_catch m h s = h e s'.
Proof. unfold try_catch. intros ->. reflexivity. Qed.
End MonadFacts.

Section WriteRuns.
Context {RT : Runtime} {JC : JsonCodec}.
Variable path : string.
Import StorageService.

Lemma copyFileSync_present (now : Z) (src dst : string) (s : FS) (f : File) :
  s !! src = Some f ->
  fs.copyFileSync now src dst s
  = (Return tt, <[dst := {| content := content f; mtime := now |}]> s).
Proof. unfold fs.copyFileSync. intros ->. reflexivity. Qed.

Lemma renameSync_present (src dst : string) (s : FS) (f : File) :
  s !! src = Some f ->
  fs.renameSync src dst s = (Return tt, <[dst := f]> (delete src s)).
Proof. unfold fs.renameSync. intros ->. reflexivity. Qed.

(** Unlinking [p] when it exists, as writeData does with the transient
    backup: either way [p] is gone afterwards. *)
Lemma unlink_if_exists (p : string) (s : FS) :
  (let! leftover := fs.existsSync p in
   if leftover then fs.unlinkSync p else ret tt) s
  = (Return tt, delete p s).
Proof.
  unfold bind, fs.existsSync, fs.unlinkSync, ret.
  destruct (s !! p) eqn:E; rewrite ?E; [reflexivity|].
  rewrite delete_id by exact E. reflexivity.
Qed.

(** A successful writeData. *)
Lemma writeData_run (now : Z) (data : Doc) (s : FS) :
  fits data ->
  writeData path now data s = (Return tt, written path now data s).
Proof.
  intros Hfit. unfold writeData. apply try_catch_return. cbv zeta.
  apply Z.ltb_ge in Hfit. rewrite Hfit.
  set (json := {| content := JSON_stringify data; mtime := now |}).
  set (s2 := <[tempPath path := json]> s).
  assert (Htmp : s2 !! tempPath path = Some json) by apply lookup_insert_eq.
  erewrite bind_return by reflexivity. fold json. fold s2.
  erewrite bind_return by reflexivity.
  unfold written. cbv zeta. fold json. fold s2.
  destruct (s2 !! path) as [f|] eqn:Hpath.
  - assert (Hrot : rotated path now s2 !! path = Some f).
    { rewrite rotated_lookup_other by apply path_not_backup. exact Hpath. }
    erewrite bind_return; cycle 1.
    { erewrite bind_return by apply rotateBackups_run.
      apply copyFileSync_present. exact Hrot. }
    set (s4 := <[backupPath path := _]> (rotated path now s2)).
    assert (H4 : s4 !! tempPath path = Some json).
    { unfold s4. rewrite lookup_insert_ne by (apply not_eq_sym, tempPath_ne_backupPath).
      rewrite rotated_lookup_other by apply tempPath_not_backup. exact Htmp. }
    erewrite bind_return by (apply renameSync_present; exact H4).
    apply unlink_if_exists.
  - erewrite bind_return by reflexivity.
    erewrite bind_return by (apply renameSync_present; exact Htmp).
    apply unlink_if_exists.
Qed.

(** What a successful writeData leaves under the names that are not
    timestamped backups. *)
Lemma written_data_file (now : Z) (data : Doc) (s : FS) :
  written path now data s !! path
  = Some {| content := JSON_stringify data; mtime := now |}.
Proof.
  unfold written. cbv zeta.
  rewrite lookup_delete_ne by apply backupPath_ne_path.
  apply lookup_insert_eq.
Qed.

Lemma written_other (now : Z) (data : Doc) (s : FS) (p : string) :
  is_backup_name path p = false ->
  p <> path -> p <> tempPath path -> p <> backupPath path ->
  written path now data s !! p = s !! p.
Proof.
  intros Hb H1 H2 H3. unfold written. cbv zeta.
  rewrite lookup_delete_ne by congruence.
  rewrite lookup_insert_ne by congruence.
  rewrite lookup_delete_ne by congruence.
  destruct (<[tempPath path:=_]> s !! path).
  - rewrite lookup_insert_ne by congruence.
    rewrite rotated_lookup_other by exact Hb.
    apply lookup_insert_ne. congruence.
  - apply lookup_insert_ne. congruence.
Qed.
End WriteRuns.

(** ** Corruption recovery *)

Section Recovery.
Context {RT : Runtime} {JC : JsonCodec}.
Variable path : string.
Import StorageService.

(** readData up to the point where the text is parsed. *)
Lemma read_reaches_parse (now : Z) (s : FS) (f : File) :
  s !! path = Some f ->
  Z.of_nat (String.length (content f)) <= maxSize ->
  is_blank (content f) = false ->
  readData path now s
  = try_catch (parseDoc (content f))
      (fun error =>
         match error with
         | SyntaxError _ => do! backupCorruptedFile path now in ret emptyDoc
         | _ => throw (Error ("Failed to read data: " +:+ error_message error))
         end) s.
Proof.
  intros Hf Hsize Hblank. unfold readData, try_catch, bind, fs.statSync,
    fs.readFileSync. rewrite Hf. apply Z.ltb_ge in Hsize. rewrite Hsize, Hf, Hblank.
  reflexivity.
Qed.

(** A blank text is read as the empty document; nothing is parsed and
    nothing is written. *)
Lemma read_blank (now : Z) (s : FS) (f : File) :
  s !! path = Some f ->
  Z.of_nat (String.length (content f)) <= maxSize ->
  is_blank (content f) = true ->
  readData path now s = (Return emptyDoc, s).
Proof.
  intros Hf Hsize Hblank. unfold readData. apply try_catch_return.
  apply Z.ltb_ge in Hsize.
  unfold bind, fs.statSync, fs.readFileSync. rewrite Hf, Hsize, Hf, Hblank.
  reflexivity.
Qed.

Lemma backupCorruptedFile_run (now : Z) (s : FS) (f : File) :
  s !! path = Some f ->
  fits emptyDoc ->
  backupCorruptedFile path now s
  = (Return tt,
     written path now emptyDoc
       (<[corruptedPath path now := {| content := content f; mtime := now |}]> s)).
Proof.
  intros Hf Hfit. unfold backupCorruptedFile. apply try_catch_return.
  unfold bind at 1, fs.existsSync. rewrite Hf.
  erewrite bind_return by (apply copyFileSync_present; exact Hf).
  apply writeData_run. exact Hfit.
Qed.

Lemma backupCorruptedFile_never_throws (now : Z) (s : FS) :
  throws (fst (backupCorruptedFile path now s)) = false.
Proof.
  unfold backupCorruptedFile, try_catch, ret.
  destruct (bind _ _ s) as [[a|e] s']; reflexivity.
Qed.

(** Whatever the directory holds, an error readData throws is the wrapped
    error of the store, never the parser's SyntaxError. *)
Lemma readData_throws_wrapped (now : Z) (s : FS) (e : JsError) :
  fst (readData path now s) = Throw e ->
  exists msg, e = Error ("Failed to read data: " +:+ msg).
Proof.
  unfold readData, try_catch.
  destruct (bind _ _ s) as [[a|err] s']; cbn [fst]; [discriminate|].
  destruct err as [m|m|m].
  - unfold bind, ret.
    pose proof (backupCorruptedFile_never_throws now s') as Hn.
    destruct (backupCorruptedFile path now s') as [[u|e'] s'']; cbn [fst] in *;
      discriminate.
  - unfold throw. cbn [fst]. intros H. inversion H. eauto.
  - unfold throw. cbn [fst]. intros H. inversion H. eauto.
Qed.
End Recovery.

(** C3 (as amended).  When the data file exists within the size limit and
    its text fails to parse and is not blank (empty, or white space only),
    readData returns the empty document and does not throw.  Provided the
    text of the empty document fits the size limit, the directory then
    holds a copy of the bad file, with its original content, under the
    name <path>.corrupted.<timestamp>.bak, and the data file holds the text
    of the empty document.  A blank text is not parsed: it is read as the
    empty document and the directory is left as it is, without a copy and
    without a reset.  In no directory does readData throw the parser's
    SyntaxError: what it throws is an Error whose message starts with
    "Failed to read data: ". *)
Theorem readData_recovers_from_corruption
    {RT : Runtime} {JC : JsonCodec} (path : string) (now : Z) (s : FS) :
  (forall f,
     s !! path = Some f ->
     Z.of_nat (String.length (content f)) <= StorageService.maxSize ->
     (is_blank (content f) = false ->
      JSON_parse (content f) = None ->
      fst (StorageService.readData path now s) = Return emptyDoc
      /\ (fits emptyDoc ->
          exists s',
            StorageService.readData path now s = (Return emptyDoc, s')
            /\ s' !! StorageService.corruptedPath path now
               = Some {| content := content f; mtime := now |}
            /\ s' !! path
               = Some {| content := JSON_stringify emptyDoc; mtime := now |}))
     /\ (is_blank (content f) = true ->
         StorageService.readData path now s = (Return emptyDoc, s)))
  /\ (forall e,
       fst (StorageService.readData path now s) = Throw e ->
       exists msg, e = Error ("Failed to read data: " +:+ msg)).
Proof.
  split; [|apply readData_throws_wrapped].
  intros f Hf Hsize. split; [|apply read_blank; assumption].
  intros Hblank Hparse.
  rewrite (read_reaches_parse path now s f Hf Hsize Hblank).
  unfold StorageService.parseDoc. rewrite Hparse.
  erewrite try_catch_throw by reflexivity. split.
  - unfold bind, ret.
    pose proof (backupCorruptedFile_never_throws path now s) as Hn.
    destruct (StorageService.backupCorruptedFile path now s) as [[u|e] s'];
      cbn [fst] in *; [reflexivity | discriminate].
  - intros Hfit. eexists. split.
    + erewrite bind_return by (apply backupCorruptedFile_run; eassumption).
      reflexivity.
    + split.
      * rewrite written_other.
        -- apply lookup_insert_eq.
        -- apply corrupted_not_backup.
        -- apply corrupted_ne_path.
        -- apply corrupted_ne_tempPath.
        -- apply corrupted_ne_backupPath.
      * apply written_data_file.
Qed.

(** The amended C3 on a directory whose data file holds "{oops". *)
Lemma readData_recovers_from_corruption_witness :
  exists s',
    StorageService.readData (RT := Reference.utc) (JC := Reference.tiny_codec)
      data_file 1718013600000 corrupt_directory = (Return emptyDoc, s')
    /\ s' !! "transactions.json.corrupted.2024-06-10T10-00-00-000Z.bak"
       = Some {| content := "{oops"; mtime := 1718013600000 |}
    /\ s' !! data_file = Some {| content := "{}"; mtime := 1718013600000 |}.
Proof.
  destruct (readData_recovers_from_corruption (RT := Reference.utc)
              (JC := Reference.tiny_codec) data_file 1718013600000 corrupt_directory)
    as [H _].
  destruct (H {| content := "{oops"; mtime := 1700000000000 |}) as [H' _].
  - reflexivity.
  - vm_compute. discriminate.
  - destruct H' as [_ H'']; [reflexivity | reflexivity |].
    apply H''. vm_compute. discriminate.
Defined.

(** C3 as stated fails: a data file that holds a line feed and two spaces
    does not parse, yet readData makes no copy of it and does not reset
    it; the directory is as before. *)
Lemma blank_text_is_not_recovered :
  blank_directory !! data_file
  = Some {| content := String "010" "  "; mtime := 1700000000000 |}
  /\ JSON_parse (JsonCodec := Reference.tiny_codec) (String "010" "  ") = None
  /\ StorageService.readData (RT := Reference.utc) (JC := Reference.tiny_codec)
       data_file 1718013600000 blank_directory
     = (Return emptyDoc, blank_directory)
  /\ blank_directory
       !! StorageService.corruptedPath (RT := Reference.utc) data_file 1718013600000
     = None.
Proof. repeat split; vm_compute; reflexivity. Qed.

(** ** Backup rotation *)

Section SortedBackups.
Variable path : string.
Import StorageService.

Lemma NoDup_map_fst_filter {A B} (p : A * B -> bool) (l : list (A * B)) :
  List.NoDup (List.map fst l) -> List.NoDup (List.map fst (List.filter p l)).
Proof.
  induction l as [|x l IH]; simpl; intros H; [constructor|].
  inversion H as [|? ? Hnot Hnd]; subst.
  destruct (p x); simpl; [|apply IH; exact Hnd].
  constructor; [|apply IH; exact Hnd].
  intros Hin. apply Hnot. apply List.in_map_iff in Hin as (y & Hy & Hin).
  apply List.filter_In in Hin as [Hin _]. apply List.in_map_iff. eauto.
Qed.

Lemma fmap_is_map {A B} (f : A -> B) (l : list A) : f <$> l = List.map f l.
Proof. induction l as [|x l IH]; simpl; [reflexivity | rewrite <- IH; reflexivity]. Qed.

Lemma backup_names_NoDup (s : FS) : List.NoDup (backup_names path s).
Proof.
  unfold backup_names, backup_entries. rewrite List.map_map. simpl.
  apply (NoDup_map_fst_filter (fun nf => is_backup_name path (fst nf))).
  rewrite <- fmap_is_map. apply NoDup_ListNoDup, (NoDup_fst_map_to_list s).
Qed.

Lemma backup_names_In (s : FS) (p : string) :
  In p (backup_names path s) <->
  is_backup_name path p = true /\ exists g, s !! p = Some g.
Proof.
  unfold backup_names, backup_entries. rewrite List.map_map. simpl.
  rewrite List.in_map_iff. split.
  - intros ([n g] & <- & Hin). apply List.filter_In in Hin as [Hin Hb]. simpl in *.
    split; [exact Hb|]. exists g. apply elem_of_map_to_list, list_elem_of_In. exact Hin.
  - intros (Hb & g & Hg). exists (p, g). split; [reflexivity|].
    apply List.filter_In. split; [|exact Hb].
    apply list_elem_of_In, elem_of_map_to_list. exact Hg.
Qed.

Lemma sorted_backups_names (s : FS) :
  Permutation (List.map bf_name (sorted_backups path s)) (backup_names path s).
Proof.
  unfold sorted_backups, backup_names. apply Permutation_map. symmetry.
  apply Array_sort_perm.
Qed.

Lemma sorted_backups_NoDup (s : FS) :
  List.NoDup (List.map bf_name (sorted_backups path s)).
Proof.
  apply (Permutation_NoDup (Permutation_sym (sorted_backups_names s))).
  apply backup_names_NoDup.
Qed.

Lemma sorted_backups_sorted (s : FS) :
  StronglySorted (descending bf_time) (sorted_backups path s).
Proof. apply Array_sort_sorted. reflexivity. Qed.

(** In a list sorted newest first, an entry strictly newer than every
    entry of another name stands first. *)
Lemma newest_is_first (l : list BackupFile) (e1 : BackupFile) :
  StronglySorted (descending bf_time) l ->
  In e1 l ->
  (forall e, In e l -> bf_name e <> bf_name e1 -> bf_time e < bf_time e1) ->
  List.NoDup (List.map bf_name l) ->
  exists rest, l = e1 :: rest.
Proof.
  intros Hs Hin Hmax Hnd. destruct l as [|y rest]; [destruct Hin|].
  exists rest. f_equal. destruct Hin as [->|Hin]; [reflexivity|].
  exfalso. apply StronglySorted_inv in Hs as [_ Hall].
  rewrite List.Forall_forall in Hall. specialize (Hall e1 Hin).
  unfold descending in Hall.
  assert (Hne : bf_name y <> bf_name e1).
  { inversion Hnd as [|? ? Hnot _]; subst. intros Heq. apply Hnot. rewrite Heq.
    apply List.in_map. exact Hin. }
  specialize (Hmax y (or_introl eq_refl) Hne). lia.
Qed.

(** What rotateBackups drops, read off the sorted list. *)
Lemma first_not_dropped (s : FS) (e1 : BackupFile) (rest : list BackupFile) :
  sorted_backups path s = e1 :: rest -> ~ In (bf_name e1) (dropped_backups path s).
Proof.
  intros Hl Hin. pose proof (sorted_backups_NoDup s) as Hnd.
  unfold dropped_backups in Hin. rewrite Hl in *.
  destruct (3 <=? _)%nat; [|destruct Hin].
  inversion Hnd as [|? ? Hnot _]; subst. apply Hnot.
  destruct rest as [|e2 rest']; [destruct Hin|]. simpl in Hin. simpl. right. exact Hin.
Qed.

Lemma second_not_dropped (s : FS) (e1 e2 : BackupFile) (rest : list BackupFile) :
  sorted_backups path s = e1 :: e2 :: rest ->
  ~ In (bf_name e2) (dropped_backups path s).
Proof.
  intros Hl Hin. pose proof (sorted_backups_NoDup s) as Hnd.
  unfold dropped_backups in Hin. rewrite Hl in *.
  destruct (3 <=? _)%nat; [|destruct Hin]. simpl in Hin.
  inversion Hnd as [|? ? _ Hnd']; subst.
  inversion Hnd' as [|? ? Hnot _]; subst. contradiction.
Qed.

Lemma beyond_second_dropped (s : FS) (e1 e2 e : BackupFile) (rest : list BackupFile) :
  sorted_backups path s = e1 :: e2 :: rest ->
  In e rest -> In (bf_name e) (dropped_backups path s).
Proof.
  intros Hl Hin. unfold dropped_backups. rewrite Hl.
  destruct rest as [|e3 rest']; [destruct Hin|]. simpl.
  apply (List.in_map bf_name) in Hin. exact Hin.
Qed.

Lemma kept_in_first_two (s : FS) (e : BackupFile) :
  In e (sorted_backups path s) ->
  ~ In (bf_name e) (dropped_backups path s) ->
  In e (List.firstn 2 (sorted_backups path s)).
Proof.
  intros Hin Hnot. unfold dropped_backups in Hnot.
  destruct (sorted_backups path s) as [|e1 [|e2 rest]]; simpl in *; try tauto.
  destruct Hin as [H|[H|H]]; [tauto | tauto|].
  exfalso. apply Hnot. destruct rest as [|e3 rest']; [destruct H|].
  simpl. apply (List.in_map bf_name) in H. exact H.
Qed.
End SortedBackups.

Section RotationSteps.
Context {RT : Runtime} {JC : JsonCodec}.
Variable path : string.
Import StorageService.

(** *** One rotation *)

Lemma dropped_lookup_path (s : FS) :
  delete_all (dropped_backups path s) s !! path = s !! path.
Proof.
  apply delete_all_lookup_out. intros H. apply dropped_are_backups in H.
  rewrite path_not_backup in H. discriminate.
Qed.

Lemma rotated_new (now : Z) (s : FS) (f : File) :
  s !! path = Some f ->
  rotated path now s !! timestampedBackupPath path now
  = Some {| content := content f; mtime := now |}.
Proof.
  intros Hf. unfold rotated. cbv zeta. rewrite dropped_lookup_path, Hf.
  apply lookup_insert_eq.
Qed.

Lemma rotated_kept (now : Z) (s : FS) (p : string) :
  p <> timestampedBackupPath path now ->
  ~ In p (dropped_backups path s) ->
  rotated path now s !! p = s !! p.
Proof.
  intros Hne Hnot. unfold rotated. cbv zeta.
  destruct (delete_all _ s !! path).
  - rewrite lookup_insert_ne by congruence. apply delete_all_lookup_out. exact Hnot.
  - apply delete_all_lookup_out. exact Hnot.
Qed.

Lemma rotated_dropped (now : Z) (s : FS) (p : string) :
  p <> timestampedBackupPath path now ->
  In p (dropped_backups path s) ->
  rotated path now s !! p = None.
Proof.
  intros Hne Hin. unfold rotated. cbv zeta.
  destruct (delete_all _ s !! path).
  - rewrite lookup_insert_ne by congruence. apply delete_all_lookup_in. exact Hin.
  - apply delete_all_lookup_in. exact Hin.
Qed.

(** *** One write, seen from the timestamped backups *)

Lemma staged_lookup (now : Z) (data : Doc) (s : FS) (p : string) :
  p <> tempPath path ->
  staged path now data s !! p = s !! p.
Proof. intros H. unfold staged. apply lookup_insert_ne. congruence. Qed.

Lemma staged_backup (now : Z) (data : Doc) (s : FS) (p : string) :
  is_backup_name path p = true -> staged path now data s !! p = s !! p.
Proof.
  intros H. apply staged_lookup.
  apply (backup_name_ne path); [exact H | apply tempPath_not_backup].
Qed.

Lemma written_backup (now : Z) (data : Doc) (s : FS) (p : string) :
  is_backup_name path p = true ->
  written path now data s !! p
  = match s !! path with
    | Some _ => rotated path now (staged path now data s) !! p
    | None => s !! p
    end.
Proof.
  intros Hb.
  assert (H1 : p <> path) by (apply (backup_name_ne path); [exact Hb | apply path_not_backup]).
  assert (H2 : p <> tempPath path)
    by (apply (backup_name_ne path); [exact Hb | apply tempPath_not_backup]).
  assert (H3 : p <> backupPath path)
    by (apply (backup_name_ne path); [exact Hb | apply backupPath_not_backup]).
  unfold written. cbv zeta. fold (staged path now data s).
  rewrite lookup_delete_ne by congruence.
  rewrite lookup_insert_ne by congruence.
  rewrite lookup_delete_ne by congruence.
  rewrite (staged_lookup now data s path) by (apply not_eq_sym, tempPath_ne_path).
  destruct (s !! path).
  - apply lookup_insert_ne. congruence.
  - apply staged_lookup. exact H2.
Qed.

Lemma written_new_backup (now : Z) (data : Doc) (s : FS) (f : File) :
  s !! path = Some f ->
  written path now data s !! timestampedBackupPath path now
  = Some {| content := content f; mtime := now |}.
Proof.
  intros Hf. rewrite written_backup by apply stamped_is_backup. rewrite Hf.
  apply rotated_new. rewrite staged_lookup by (apply not_eq_sym, tempPath_ne_path).
  exact Hf.
Qed.

(** A timestamped backup found after a write is the new one or was there
    before. *)
Lemma written_backup_origin (now : Z) (data : Doc) (s : FS) (p : string) (g : File) :
  is_backup_name path p = true ->
  written path now data s !! p = Some g ->
  (p = timestampedBackupPath path now /\ mtime g = now) \/ s !! p = Some g.
Proof.
  intros Hb. rewrite written_backup by exact Hb.
  destruct (s !! path) as [f|] eqn:Hf; [|tauto].
  destruct (string_dec p (timestampedBackupPath path now)) as [->|Hne].
  - rewrite (rotated_new now _ f)
      by (rewrite staged_lookup by (apply not_eq_sym, tempPath_ne_path); exact Hf).
    intros H. inversion H. left. split; reflexivity.
  - destruct (in_dec string_dec p (dropped_backups path (staged path now data s)))
      as [Hin|Hnot].
    + rewrite rotated_dropped by assumption. discriminate.
    + rewrite rotated_kept by assumption. rewrite staged_backup by exact Hb. tauto.
Qed.

Lemma written_keeps_older (now t : Z) (data : Doc) (s : FS) :
  now < t -> backups_older_than path t s ->
  backups_older_than path t (written path now data s).
Proof.
  intros Hlt Hold p g Hb Hg.
  destruct (written_backup_origin now data s p g Hb Hg) as [[_ ->]|H];
    [exact Hlt | exact (Hold p g Hb H)].
Qed.

(** The entries rotateBackups sorts during a write are the timestamped
    backups that were there before the write. *)
Lemma staged_entry (now : Z) (data : Doc) (s : FS) (p : string) (g : File) :
  is_backup_name path p = true -> s !! p = Some g ->
  In {| bf_name := p; bf_time := mtime g |}
     (sorted_backups path (staged path now data s)).
Proof.
  intros Hb Hg. apply sorted_backups_In. split; [exact Hb|]. exists g.
  split; [|reflexivity]. simpl. rewrite staged_backup by exact Hb. exact Hg.
Qed.

Lemma staged_entry_inv (now : Z) (data : Doc) (s : FS) (e : BackupFile) :
  In e (sorted_backups path (staged path now data s)) ->
  is_backup_name path (bf_name e) = true
  /\ exists g, s !! bf_name e = Some g /\ bf_time e = mtime g.
Proof.
  intros H. apply sorted_backups_In in H as (Hb & g & Hg & Ht).
  split; [exact Hb|]. exists g. rewrite staged_backup in Hg by exact Hb. tauto.
Qed.
End RotationSteps.

Section RotationKeeps.
Context {RT : Runtime} {JC : JsonCodec}.
Variable path : string.
Import StorageService.

(** A write keeps the newest timestamped backup. *)
Lemma written_keeps_newest (now : Z) (data : Doc) (s : FS) (f : File)
    (pa : string) (ga : File) :
  s !! path = Some f ->
  is_backup_name path pa = true -> s !! pa = Some ga ->
  (forall p g, is_backup_name path p = true -> s !! p = Some g -> p <> pa ->
               mtime g < mtime ga) ->
  pa <> timestampedBackupPath path now ->
  written path now data s !! pa = Some ga.
Proof.
  intros Hf Hb Hga Hmax Hne.
  destruct (newest_is_first (sorted_backups path (staged path now data s))
              {| bf_name := pa; bf_time := mtime ga |}) as [rest Hl].
  - apply sorted_backups_sorted.
  - apply staged_entry; assumption.
  - intros e He Hname. apply staged_entry_inv in He as (Hbe & g & Hg & ->).
    simpl in *. exact (Hmax _ g Hbe Hg Hname).
  - apply sorted_backups_NoDup.
  - rewrite written_backup by exact Hb. rewrite Hf.
    rewrite rotated_kept; [rewrite staged_backup by exact Hb; exact Hga | exact Hne |].
    apply (first_not_dropped path _ _ _ Hl).
Qed.

(** A write keeps the two newest timestamped backups and no other old
    one. *)
Lemma written_keeps_two_newest (now : Z) (data : Doc) (s : FS) (f : File)
    (pa pb : string) (ga gb : File) :
  s !! path = Some f ->
  is_backup_name path pa = true -> s !! pa = Some ga ->
  is_backup_name path pb = true -> s !! pb = Some gb ->
  pa <> pb -> mtime ga < mtime gb ->
  (forall p g, is_backup_name path p = true -> s !! p = Some g ->
               p <> pa -> p <> pb -> mtime g < mtime ga) ->
  pa <> timestampedBackupPath path now ->
  pb <> timestampedBackupPath path now ->
  written path now data s !! pa = Some ga
  /\ written path now data s !! pb = Some gb
  /\ (forall p, is_backup_name path p = true ->
                p <> pa -> p <> pb -> p <> timestampedBackupPath path now ->
                written path now data s !! p = None).
Proof.
  intros Hf Hba Hga Hbb Hgb Hab Hlt Hmax Hna Hnb.
  set (l := sorted_backups path (staged path now data s)).
  set (ea := {| bf_name := pa; bf_time := mtime ga |}).
  set (eb := {| bf_name := pb; bf_time := mtime gb |}).
  pose proof (sorted_backups_sorted path (staged path now data s)) as Hs.
  pose proof (sorted_backups_NoDup path (staged path now data s)) as Hnd.
  fold l in Hs, Hnd.
  assert (Hina : In ea l) by (apply staged_entry; assumption).
  assert (Hinb : In eb l) by (apply staged_entry; assumption).
  destruct (newest_is_first l eb Hs Hinb) as [rest Hl]; [|exact Hnd|].
  { intros e He Hname. apply staged_entry_inv in He as (Hbe & g & Hg & ->).
    simpl in *. destruct (string_dec (bf_name e) pa) as [Heq|Hnea].
    - rewrite Heq, Hga in Hg. inversion Hg; subst g. exact Hlt.
    - specialize (Hmax _ g Hbe Hg Hnea Hname). lia. }
  rewrite Hl in Hs, Hnd, Hina.
  apply StronglySorted_inv in Hs as [Hs' _].
  simpl in Hnd. inversion Hnd as [|? ? Hnotb Hnd']; subst.
  destruct Hina as [Heq|Hina]; [inversion Heq; congruence|].
  destruct (newest_is_first rest ea Hs' Hina) as [rest' Hl']; [|exact Hnd'|].
  { intros e He Hname.
    assert (He' : In e l) by (rewrite Hl; right; exact He).
    apply staged_entry_inv in He' as (Hbe & g & Hg & ->). simpl in *.
    apply (Hmax _ g Hbe Hg Hname). intros Heq. apply Hnotb. rewrite <- Heq.
    apply List.in_map. exact He. }
  rewrite Hl' in Hl. fold l in Hl. clear Hl'.
  split; [|split].
  - rewrite written_backup by exact Hba. rewrite Hf.
    rewrite rotated_kept; [rewrite staged_backup by exact Hba; exact Hga | exact Hna |].
    apply (second_not_dropped path _ _ _ _ Hl).
  - rewrite written_backup by exact Hbb. rewrite Hf.
    rewrite rotated_kept; [rewrite staged_backup by exact Hbb; exact Hgb | exact Hnb |].
    apply (first_not_dropped path _ _ _ Hl).
  - intros p Hbp Hpa Hpb Hpn. rewrite written_backup by exact Hbp. rewrite Hf.
    destruct (in_dec string_dec p (dropped_backups path (staged path now data s)))
      as [Hin|Hnot]; [apply rotated_dropped; assumption|].
    rewrite rotated_kept by assumption. rewrite staged_backup by exact Hbp.
    destruct (s !! p) as [g|] eqn:Hg; [|reflexivity].
    exfalso. apply Hnot.
    assert (Hinp : In {| bf_name := p; bf_time := mtime g |} l)
      by (apply staged_entry; assumption).
    rewrite Hl in Hinp. destruct Hinp as [Heq|[Heq|Hinp]].
    + inversion Heq. congruence.
    + inversion Heq. congruence.
    + apply (beyond_second_dropped path _ _ _ _ _ Hl Hinp).
Qed.

(** After a write over an existing data file at most three timestamped
    backups remain, whatever their modification times. *)
Lemma written_at_most_three (now : Z) (data : Doc) (s : FS) (f : File) :
  s !! path = Some f ->
  (List.length (backup_names path (written path now data s)) <= 3)%nat.
Proof.
  intros Hf.
  set (l := sorted_backups path (staged path now data s)).
  apply Nat.le_trans with
    (List.length (timestampedBackupPath path now :: List.map bf_name (List.firstn 2 l))).
  - apply List.NoDup_incl_length; [apply backup_names_NoDup|].
    intros p Hp. apply backup_names_In in Hp as (Hb & g & Hg).
    destruct (string_dec p (timestampedBackupPath path now)) as [->|Hne];
      [left; reflexivity | right].
    rewrite written_backup in Hg by exact Hb. rewrite Hf in Hg.
    destruct (in_dec string_dec p (dropped_backups path (staged path now data s)))
      as [Hin|Hnot]; [rewrite rotated_dropped in Hg by assumption; discriminate|].
    rewrite rotated_kept in Hg by assumption.
    rewrite staged_backup in Hg by exact Hb.
    apply (List.in_map bf_name _ {| bf_name := p; bf_time := mtime g |}).
    apply kept_in_first_two; [apply staged_entry; assumption | exact Hnot].
  - simpl. rewrite List.length_map.
    pose proof (List.firstn_le_length 2 l). lia.
Qed.
End RotationKeeps.

Section RotationRuns.
Context {RT : Runtime} {JC : JsonCodec}.
Variable path : string.
Import StorageService.

Lemma append_cancel_r (a b c : string) : a +:+ c = b +:+ c -> a = b.
Proof.
  revert b. induction a as [|x a IH]; intros [|y b] H.
  - reflexivity.
  - exfalso. apply (f_equal String.length) in H.
    rewrite append_nil_l, append_cons in H. simpl in H.
    rewrite length_append in H. lia.
  - exfalso. apply (f_equal String.length) in H.
    rewrite append_nil_l, append_cons in H. simpl in H.
    rewrite length_append in H. lia.
  - rewrite !append_cons in H. inversion H. f_equal. apply IH. assumption.
Qed.

Lemma stamped_injective (a b : Z) :
  timestampedBackupPath path a = timestampedBackupPath path b ->
  timestamp a = timestamp b.
Proof.
  unfold timestampedBackupPath. intros H.
  apply append_cancel in H. apply (append_cancel ".backup.") in H.
  apply append_cancel_r in H. exact H.
Qed.

Lemma run_writes_app (l1 l2 : list (Z * Doc)) (s : FS) :
  run_writes path (l1 ++ l2) s = run_writes path l2 (run_writes path l1 s).
Proof.
  revert s. induction l1 as [|[t d] l1 IH]; intros s; simpl; [reflexivity | apply IH].
Qed.

Lemma run_one (t : Z) (d : Doc) (s : FS) :
  fits d -> run_writes path [(t, d)] s = written path t d s.
Proof. intros H. simpl. rewrite writeData_run by exact H. reflexivity. Qed.

Lemma run_keeps_older (writes : list (Z * Doc)) (s : FS) (t' : Z) :
  List.Forall (fun w => fits (snd w)) writes ->
  (forall t, In t (List.map fst writes) -> t < t') ->
  backups_older_than path t' s ->
  backups_older_than path t' (run_writes path writes s).
Proof.
  revert s. induction writes as [|[t d] writes IH]; intros s Hfit Hlt Hold; simpl;
    [exact Hold|].
  inversion Hfit as [|? ? Hd Hrest]; subst. simpl in Hd.
  rewrite writeData_run by exact Hd. simpl. apply IH.
  - exact Hrest.
  - intros t0 Ht0. apply Hlt. right. exact Ht0.
  - apply written_keeps_older; [apply Hlt; left; reflexivity | exact Hold].
Qed.

Lemma sorted_app_inv {A} (R : A -> A -> Prop) (l1 l2 : list A) :
  StronglySorted R (l1 ++ l2) ->
  StronglySorted R l2 /\ (forall x y, In x l1 -> In y l2 -> R x y).
Proof.
  induction l1 as [|a l1 IH]; simpl; intros H.
  - split; [exact H | intros x y []].
  - apply StronglySorted_inv in H as [H Hall]. destruct (IH H) as [H2 Hx].
    split; [exact H2|]. intros x y [<-|Hin] Hy; [|apply Hx; assumption].
    rewrite List.Forall_forall in Hall. apply Hall. apply in_or_app. right. exact Hy.
Qed.
End RotationRuns.

(** C9 (as amended).  Take any directory and any run of four or more
    successive successful writeData calls.  Afterwards at most three
    timestamped backups <path>.backup.<timestamp>.json exist.  When
    moreover the calls run at strictly increasing times, later than the
    modification time of every timestamped backup found at the start, and
    the last three timestamps differ, the backups that exist are exactly
    those made by the last three calls: each holds what the data file held
    just before its call and carries the time of that call. *)
Theorem backup_rotation_keeps_three_most_recent
    {RT : Runtime} {JC : JsonCodec} (path : string) (s : FS)
    (earlier : list (Z * Doc)) (w0 wa wb wc : Z * Doc) :
  let writes := earlier ++ [w0; wa; wb; wc] in
  let final := run_writes path writes s in
  let backup_of := StorageService.timestampedBackupPath path in
  List.Forall (fun w => fits (snd w)) writes ->
  (List.length (backup_names path final) <= 3)%nat
  /\ (StronglySorted Z.lt (List.map fst writes) ->
      (forall t, In t (List.map fst writes) -> backups_older_than path t s) ->
      List.NoDup (List.map StorageService.timestamp [fst wa; fst wb; fst wc]) ->
      final !! backup_of (fst wa)
        = Some {| content := JSON_stringify (snd w0); mtime := fst wa |}
      /\ final !! backup_of (fst wb)
        = Some {| content := JSON_stringify (snd wa); mtime := fst wb |}
      /\ final !! backup_of (fst wc)
        = Some {| content := JSON_stringify (snd wb); mtime := fst wc |}
      /\ (forall p, In p (backup_names path final) <->
                    p = backup_of (fst wa) \/ p = backup_of (fst wb)
                    \/ p = backup_of (fst wc))).
Proof.
  destruct w0 as [t0 d0], wa as [ta da], wb as [tb db], wc as [tc dc].
  cbv zeta. cbn [fst snd]. intros Hfit.
  apply List.Forall_app in Hfit as [Hfe Hfl].
  inversion Hfl as [|? ? F0 Hfl1]; subst. inversion Hfl1 as [|? ? Fa Hfl2]; subst.
  inversion Hfl2 as [|? ? Fb Hfl3]; subst. inversion Hfl3 as [|? ? Fc _]; subst.
  cbn [snd] in F0, Fa, Fb, Fc.
  change [(t0, d0); (ta, da); (tb, db); (tc, dc)]
    with ([(t0, d0)] ++ [(ta, da)] ++ [(tb, db)] ++ [(tc, dc)]).
  rewrite !run_writes_app.
  rewrite (run_one path t0 d0) by exact F0.
  rewrite (run_one path ta da) by exact Fa.
  rewrite (run_one path tb db) by exact Fb.
  rewrite (run_one path tc dc) by exact Fc.
  set (A := written path t0 d0 (run_writes path earlier s)).
  set (B := written path ta da A).
  set (C := written path tb db B).
  set (D := written path tc dc C).
  assert (PA : A !! path = Some {| content := JSON_stringify d0; mtime := t0 |})
    by apply written_data_file.
  assert (PB : B !! path = Some {| content := JSON_stringify da; mtime := ta |})
    by apply written_data_file.
  assert (PC : C !! path = Some {| content := JSON_stringify db; mtime := tb |})
    by apply written_data_file.
  split; [exact (written_at_most_three path tc dc C _ PC)|].
  intros Hsorted Hold Hstamps.
  (* the order of the times *)
  rewrite List.map_app in Hsorted.
  apply sorted_app_inv in Hsorted as [Hlast Hbefore]. cbn [List.map fst] in Hlast, Hbefore.
  apply StronglySorted_inv in Hlast as [Hlast H0]. rewrite List.Forall_forall in H0.
  apply StronglySorted_inv in Hlast as [Hlast Ha]. rewrite List.Forall_forall in Ha.
  apply StronglySorted_inv in Hlast as [_ Hb]. rewrite List.Forall_forall in Hb.
  assert (L0a : t0 < ta) by (apply H0; simpl; tauto).
  assert (Lab : ta < tb) by (apply Ha; simpl; tauto).
  assert (Lbc : tb < tc) by (apply Hb; simpl; tauto).
  (* the names differ *)
  inversion Hstamps as [|? ? Nab Hst1]; subst. inversion Hst1 as [|? ? Nbc _]; subst.
  cbn [List.map] in Nab, Nbc.
  assert (Dab : StorageService.timestampedBackupPath path ta
                <> StorageService.timestampedBackupPath path tb).
  { intros H. apply Nab. left. symmetry. apply (stamped_injective path). exact H. }
  assert (Dac : StorageService.timestampedBackupPath path ta
                <> StorageService.timestampedBackupPath path tc).
  { intros H. apply Nab. right. left. symmetry. apply (stamped_injective path). exact H. }
  assert (Dbc : StorageService.timestampedBackupPath path tb
                <> StorageService.timestampedBackupPath path tc).
  { intros H. apply Nbc. left. symmetry. apply (stamped_injective path). exact H. }
  (* before the last three calls every backup is older than the first of them *)
  assert (OA : backups_older_than path ta A).
  { unfold A. apply written_keeps_older; [exact L0a|].
    apply run_keeps_older; [exact Hfe | |].
    - intros t Ht. apply Z.lt_trans with t0; [|exact L0a].
      apply Hbefore; [exact Ht | simpl; tauto].
    - apply Hold. rewrite List.map_app. apply in_or_app. right. simpl. tauto. }
  (* third call from the end *)
  assert (Ba : B !! StorageService.timestampedBackupPath path ta
               = Some {| content := JSON_stringify d0; mtime := ta |})
    by exact (written_new_backup path ta da A _ PA).
  assert (Bothers : forall p g, StorageService.is_backup_name path p = true ->
            B !! p = Some g -> p <> StorageService.timestampedBackupPath path ta ->
            mtime g < ta).
  { intros p g Hp Hg Hne.
    destruct (written_backup_origin path ta da A p g Hp Hg) as [[-> _]|H];
      [contradiction | exact (OA p g Hp H)]. }
  (* second call from the end *)
  assert (Cb : C !! StorageService.timestampedBackupPath path tb
               = Some {| content := JSON_stringify da; mtime := tb |})
    by exact (written_new_backup path tb db B _ PB).
  assert (Ca : C !! StorageService.timestampedBackupPath path ta
               = Some {| content := JSON_stringify d0; mtime := ta |}).
  { apply (written_keeps_newest path tb db B _ _ _ PB);
      [apply stamped_is_backup | exact Ba | exact Bothers | exact Dab]. }
  assert (Cothers : forall p g, StorageService.is_backup_name path p = true ->
            C !! p = Some g -> p <> StorageService.timestampedBackupPath path ta ->
            p <> StorageService.timestampedBackupPath path tb -> mtime g < ta).
  { intros p g Hp Hg Hna Hnb.
    destruct (written_backup_origin path tb db B p g Hp Hg) as [[-> _]|H];
      [contradiction | exact (Bothers p g Hp H Hna)]. }
  (* last call *)
  assert (Dc : D !! StorageService.timestampedBackupPath path tc
               = Some {| content := JSON_stringify db; mtime := tc |})
    by exact (written_new_backup path tc dc C _ PC).
  destruct (written_keeps_two_newest path tc dc C _ _ _ _ _ PC
              (stamped_is_backup path ta) Ca (stamped_is_backup path tb) Cb
              Dab Lab Cothers Dac Dbc) as (Da & Db & Dnone).
  split; [exact Da|]. split; [exact Db|]. split; [exact Dc|].
  intros p. rewrite backup_names_In. split.
  - intros (Hp & g & Hg).
    destruct (string_dec p (StorageService.timestampedBackupPath path ta)); [tauto|].
    destruct (string_dec p (StorageService.timestampedBackupPath path tb)); [tauto|].
    destruct (string_dec p (StorageService.timestampedBackupPath path tc)); [tauto|].
    rewrite Dnone in Hg by assumption. discriminate.
  - intros [-> | [-> | ->]]; (split; [apply stamped_is_backup | eauto]).
Qed.

(** C9 on four writes one second apart into a directory that holds the
    data file only: the three backups are those of the last three writes,
    and the oldest of them holds what the first write wrote. *)
Lemma backup_rotation_keeps_three_most_recent_witness :
  (List.length (backup_names data_file
     (run_writes (RT := Reference.utc) (JC := Reference.tiny_codec)
        data_file four_writes corrupt_directory)) <= 3)%nat
  /\ run_writes (RT := Reference.utc) (JC := Reference.tiny_codec)
       data_file four_writes corrupt_directory
     !! StorageService.timestampedBackupPath (RT := Reference.utc) data_file 1718013601000
     = Some {| content := "{5e1a9b70-0005}"; mtime := 1718013601000 |}.
Proof.
  destruct (backup_rotation_keeps_three_most_recent (RT := Reference.utc)
              (JC := Reference.tiny_codec) data_file corrupt_directory []
              (1718013600000, doc_with [groceries])
              (1718013601000, doc_with [groceries; bus])
              (1718013602000, doc_with [groceries; bus; dinner])
              (1718013603000, doc_with [groceries; bus; dinner; lunch]))
    as [Hbound Hexact].
  - repeat constructor; vm_compute; discriminate.
  - split; [exact Hbound|].
    destruct Hexact as (Ha & _).
    + repeat constructor; simpl; lia.
    + intros t Ht p g Hp Hg. unfold corrupt_directory in Hg.
      apply lookup_singleton_Some in Hg as [<- <-].
      simpl in Ht. cbn [mtime]. lia.
    + vm_compute. repeat (constructor; [simpl; intuition discriminate|]). constructor.
    + exact Ha.
Defined.

(** C9 as stated fails: the run does not start from any state.  From a
    directory with three backups dated in 2030, the four writes of June
    2024 leave three backups, but not those of the last three writes: the
    two newest of 2030 are kept at every rotation, each write removes the
    backup the write before it made, and only the backup of the last write
    is there at the end.  And when the last three of four writes fall in
    one millisecond they share one backup name: two backups are left, the
    one made by the first write and the one made last. *)
Lemma future_dated_backups_outlive_recent_ones :
  let final :=
    run_writes (RT := Reference.utc) (JC := Reference.tiny_codec)
      data_file four_writes future_backups_directory in
  let hasty :=
    run_writes (RT := Reference.utc) (JC := Reference.tiny_codec)
      data_file hasty_writes corrupt_directory in
  let backup_of := StorageService.timestampedBackupPath (RT := Reference.utc) data_file in
  (List.length (backup_names data_file final) = 3%nat
   /\ final !! "transactions.json.backup.2030-01-03T00-00-00-000Z.json"
      = Some {| content := "{c}"; mtime := 1893628800000 |}
   /\ final !! "transactions.json.backup.2030-01-02T00-00-00-000Z.json"
      = Some {| content := "{b}"; mtime := 1893542400000 |}
   /\ final !! backup_of 1718013603000
      = Some {| content := "{5e1a9b70-0005,77c0d3a4-0006,b81f20c9-0007}";
                mtime := 1718013603000 |}
   /\ final !! backup_of 1718013602000 = None
   /\ final !! backup_of 1718013601000 = None)
  /\ (List.length (backup_names data_file hasty) = 2%nat
      /\ hasty !! backup_of 1718013600000
         = Some {| content := "{oops"; mtime := 1718013600000 |}
      /\ hasty !! backup_of 1718013601000
         = Some {| content := "{5e1a9b70-0005,77c0d3a4-0006,b81f20c9-0007}";
                   mtime := 1718013601000 |}).
Proof. cbv zeta. repeat split; vm_compute; reflexivity. Qed.

(** C2, at an input where it fails.  On a host five hours west of UTC the
    CLI turns the start date 15/01/2024 into a Date object at local midnight
    of that day.  The stored expense dated 2024-01-15 is read as UTC
    midnight, which on that host is the evening of 14 January, so the range
    that starts on 15 January leaves out the expense of 15 January: the
    start bound is not inclusive.  With the same bound given as the string
    "2024-01-15" the expense is kept. *)
Theorem date_range_excludes_start_day_west_of_utc :
  localYMD (Runtime := new_york) (1705276800000 + 18000000) = "2024-01-15"
  /\ date lunch = "2024-01-15"
  /\ In lunch (expenses ledger)
  /\ TransactionService.getTransactions (RT := new_york) (ST := Reference.memory)
       {| f_type := VUndefined;
          f_startDate := DObj (Some (1705276800000 + 18000000));
          f_endDate := DUndef; f_category := VUndefined; f_source := VUndefined |}
       ledger
     = (Return [dinner; salary; bus], ledger)
  /\ TransactionService.getTransactions (RT := new_york) (ST := Reference.memory)
       {| f_type := VUndefined; f_startDate := DStr "2024-01-15";
          f_endDate := DUndef; f_category := VUndefined; f_source := VUndefined |}
       ledger
     = (Return [dinner; salary; bus; lunch], ledger).
Proof.
  repeat split; try (vm_compute; reflexivity).
  simpl. tauto.
Qed.

(* ================================================================== *)
(** * Further properties of the code *)
(* ================================================================== *)

(** ** Reading and writing the data file *)

Section StoreReads.
Context {RT : Runtime} {JC : JsonCodec}.
Variable path : string.

(** A store that holds [d] reads as [d], and reading leaves it alone. *)
Lemma readData_holds (now : Z) (s : FS) (d : Doc) :
  holds path s d -> StorageService.readData path now s = (Return d, s).
Proof.
  intros (f & sett & Hf & Hsize & Hblank & Hparse & Hsett).
  rewrite (read_reaches_parse path now s f Hf Hsize Hblank).
  unfold StorageService.parseDoc. rewrite Hparse.
  apply try_catch_return. unfold ret. destruct d as [es inc st].
  simpl in *. rewrite Hsett. reflexivity.
Qed.

Lemma written_holds (now : Z) (d : Doc) (s : FS) :
  reads_back d -> holds path (written path now d s) (normal d).
Proof.
  intros (Hfit & Hblank & Hparse).
  exists {| content := JSON_stringify d; mtime := now |}, (settings d).
  split; [apply written_data_file|].
  split; [exact Hfit|]. split; [exact Hblank|]. split; [exact Hparse|].
  reflexivity.
Qed.

Lemma holds_normal (s : FS) (d : Doc) : holds path s d -> normal d = d.
Proof.
  intros (f & sett & _ & _ & _ & _ & Hsett). destruct d as [es inc st].
  unfold normal. simpl in *. rewrite Hsett. reflexivity.
Qed.

Lemma holds_settings (s : FS) (d : Doc) :
  holds path s d -> exists sett, settings d = Some sett.
Proof. intros (f & sett & _ & _ & _ & _ & Hsett). eauto. Qed.

(** Writing a document that reads back, on any directory. *)
Lemma writeData_holds (now : Z) (d : Doc) (s : FS) :
  reads_back d ->
  StorageService.writeData path now d s = (Return tt, written path now d s)
  /\ holds path (written path now d s) (normal d).
Proof.
  intros H. split; [apply writeData_run; apply H | apply written_holds; exact H].
Qed.

(** A document that is too large: nothing is written, and a temporary
    file left by an earlier run is removed. *)
Lemma writeData_too_large (now : Z) (d : Doc) (s : FS) :
  ~ fits d ->
  exists msg,
    StorageService.writeData path now d s
    = (Throw (Error ("Failed to write data: " +:+ msg)),
       delete (StorageService.tempPath path) s).
Proof.
  intros Hbig. unfold fits in Hbig. apply Z.nle_gt, Z.ltb_lt in Hbig.
  unfold StorageService.writeData. cbv zeta. eexists.
  erewrite try_catch_throw; cycle 1.
  { rewrite Hbig. reflexivity. }
  unfold bind, try_catch, fs.existsSync, fs.unlinkSync, ret, throw.
  destruct (s !! StorageService.tempPath path) eqn:E; rewrite ?E.
  - reflexivity.
  - rewrite delete_id by exact E. reflexivity.
Qed.

(** What a successful writeData leaves of its transient files, and of the
    backups when there was no data file. *)
Lemma written_no_temp (now : Z) (d : Doc) (s : FS) :
  written path now d s !! StorageService.tempPath path = None.
Proof.
  unfold written. cbv zeta.
  rewrite lookup_delete_ne by (apply not_eq_sym, tempPath_ne_backupPath).
  rewrite lookup_insert_ne by (apply not_eq_sym, tempPath_ne_path).
  apply lookup_delete_eq.
Qed.

Lemma written_no_backup (now : Z) (d : Doc) (s : FS) :
  written path now d s !! StorageService.backupPath path = None.
Proof. unfold written. cbv zeta. apply lookup_delete_eq. Qed.

Lemma written_first_time (now : Z) (d : Doc) (s : FS) (p : string) :
  s !! path = None -> StorageService.is_backup_name path p = true ->
  written path now d s !! p = s !! p.
Proof.
  intros Hnone Hp. rewrite written_backup by exact Hp. rewrite Hnone. reflexivity.
Qed.
End StoreReads.

(** *** writeData *)

(** X1.  A document within the size limit is installed: writeData returns, the
    data file holds the new text with the time of the call, neither the
    temporary file nor the transient [.backup] copy is left, and the files
    the store does not own are as before.  When there was a data file, its
    previous content is kept under the timestamped backup name of the
    call; when there was none, no backup is made or removed. *)
Theorem writeData_installs_document
    {RT : Runtime} {JC : JsonCodec} (path : string) (now : Z) (data : Doc) (s : FS) :
  fits data ->
  exists s',
    StorageService.writeData path now data s = (Return tt, s')
    /\ s' !! path = Some {| content := JSON_stringify data; mtime := now |}
    /\ s' !! StorageService.tempPath path = None
    /\ s' !! StorageService.backupPath path = None
    /\ (forall p, StorageService.is_backup_name path p = false ->
                  p <> path -> p <> StorageService.tempPath path ->
                  p <> StorageService.backupPath path ->
                  s' !! p = s !! p)
    /\ (forall f, s !! path = Some f ->
                  s' !! StorageService.timestampedBackupPath path now
                  = Some {| content := content f; mtime := now |})
    /\ (s !! path = None ->
        forall p, StorageService.is_backup_name path p = true -> s' !! p = s !! p).
Proof.
  intros Hfit. exists (written path now data s).
  split; [apply writeData_run; exact Hfit|].
  split; [apply written_data_file|].
  split; [apply written_no_temp|].
  split; [apply written_no_backup|].
  split; [intros p; apply written_other|].
  split; [intros f; apply written_new_backup|].
  intros Hnone p Hp. apply written_first_time; assumption.
Qed.

(** The data file of the example holds text that is not JSON; writing the
    empty document replaces it and keeps the old text as a backup. *)
Lemma writeData_installs_document_witness :
  exists s',
    StorageService.writeData (RT := Reference.utc) (JC := Reference.tiny_codec)
      data_file 1718013600000 emptyDoc corrupt_directory = (Return tt, s')
    /\ s' !! data_file = Some {| content := "{}"; mtime := 1718013600000 |}
    /\ s' !! "transactions.json.tmp" = None
    /\ s' !! "transactions.json.backup.2024-06-10T10-00-00-000Z.json"
       = Some {| content := "{oops"; mtime := 1718013600000 |}.
Proof.
  destruct (writeData_installs_document (RT := Reference.utc)
              (JC := Reference.tiny_codec) data_file 1718013600000 emptyDoc
              corrupt_directory) as (s' & Hrun & Hfile & Htmp & _ & _ & Hold & _).
  - vm_compute. discriminate.
  - exists s'. split; [exact Hrun|]. split; [exact Hfile|]. split; [exact Htmp|].
    apply (Hold {| content := "{oops"; mtime := 1700000000000 |}). reflexivity.
Defined.

(** X2.  A document whose text is over the size limit is refused before
    anything is written.  writeData throws an error whose message starts
    with "Failed to write data: "; every file other than the temporary
    one, the data file and its backups included, is as before; and a
    temporary file left by an earlier run is gone. *)
Theorem writeData_refuses_oversize_document
    {RT : Runtime} {JC : JsonCodec} (path : string) (now : Z) (data : Doc) (s : FS) :
  ~ fits data ->
  (exists msg, fst (StorageService.writeData path now data s)
               = Throw (Error ("Failed to write data: " +:+ msg)))
  /\ snd (StorageService.writeData path now data s) !! StorageService.tempPath path
     = None
  /\ (forall p, p <> StorageService.tempPath path ->
                snd (StorageService.writeData path now data s) !! p = s !! p).
Proof.
  intros Hn. destruct (writeData_too_large path now data s Hn) as [msg Hrun].
  rewrite Hrun. cbn [fst snd]. split; [eauto|].
  split; [apply lookup_delete_eq|].
  intros p Hp. apply lookup_delete_ne. congruence.
Qed.

Lemma doubled_length (n : nat) (str : string) :
  Z.of_nat (String.length (doubled n str))
  = 2 ^ Z.of_nat n * Z.of_nat (String.length str).
Proof.
  revert str. induction n as [|n IH]; intros str.
  - simpl doubled. change (2 ^ Z.of_nat 0) with 1. lia.
  - cbn [doubled]. rewrite IH, length_append, Nat2Z.inj_add, Nat2Z.inj_succ.
    rewrite Z.pow_succ_r by lia. lia.
Qed.

(** A document whose text is 16 MiB long is refused, and the data file of
    the example stays as it is. *)
Lemma writeData_refuses_oversize_document_witness :
  (exists msg,
     fst (StorageService.writeData (RT := Reference.utc) (JC := bulky_codec)
            data_file 1718013600000 emptyDoc corrupt_directory)
     = Throw (Error ("Failed to write data: " +:+ msg)))
  /\ snd (StorageService.writeData (RT := Reference.utc) (JC := bulky_codec)
            data_file 1718013600000 emptyDoc corrupt_directory) !! data_file
     = corrupt_directory !! data_file.
Proof.
  destruct (writeData_refuses_oversize_document (RT := Reference.utc)
              (JC := bulky_codec) data_file 1718013600000 emptyDoc corrupt_directory)
    as (Hthrow & _ & Hframe).
  - unfold fits. cbn [JSON_stringify bulky_codec]. rewrite doubled_length.
    unfold StorageService.maxSize. change (String.length "0123456789abcdef") with 16%nat.
    change (Z.of_nat 20) with 20. change (Z.of_nat 16) with 16. lia.
  - split; [exact Hthrow|]. apply Hframe. discriminate.
Defined.

(** *** Writing, then reading *)

(** X3.  What is written is what is read: after writeData of a document whose
    text reads back, readData returns that document (with [{}] for a
    missing settings object) and does not touch the directory. *)
Theorem writeData_then_readData
    {RT : Runtime} {JC : JsonCodec} (path : string) (now later : Z)
    (data : Doc) (s : FS) :
  reads_back data ->
  exists s',
    StorageService.writeData path now data s = (Return tt, s')
    /\ StorageService.readData path later s' = (Return (normal data), s').
Proof.
  intros H. destruct (writeData_holds path now data s H) as [Hrun Hh].
  exists (written path now data s). split; [exact Hrun|].
  apply readData_holds. exact Hh.
Qed.

Lemma writeData_then_readData_witness :
  exists s',
    StorageService.writeData (RT := Reference.utc) (JC := example_codec)
      data_file 1718013600000 ledger corrupt_directory = (Return tt, s')
    /\ StorageService.readData (RT := Reference.utc) (JC := example_codec)
         data_file 1718013660000 s' = (Return ledger, s').
Proof.
  apply (writeData_then_readData (RT := Reference.utc) (JC := example_codec)
           data_file 1718013600000 1718013660000 ledger corrupt_directory).
  repeat split; vm_compute; congruence.
Defined.

(** *** readData when the text is not corrupt *)

(** X4.  Apart from the recovery of a text that fails to parse, readData never
    changes the directory.  A missing data file and a data file over the
    size limit make it throw an error whose message starts with "Failed to
    read data: "; so does a text that parses to [null], which is not taken
    for corruption.  A blank file reads as the empty document.  Any other
    text reads as the arrays it holds under [expenses] and [income] and the
    plain object it holds under [settings], each replaced by an empty one
    when it is missing or of another shape. *)
Theorem readData_leaves_store_unless_corrupt
    {RT : Runtime} {JC : JsonCodec} (path : string) (now : Z) (s : FS) :
  (s !! path = None ->
   exists msg, StorageService.readData path now s
               = (Throw (Error ("Failed to read data: " +:+ msg)), s))
  /\ (forall f, s !! path = Some f ->
      (StorageService.maxSize < Z.of_nat (String.length (content f)) ->
       exists msg, StorageService.readData path now s
                   = (Throw (Error ("Failed to read data: " +:+ msg)), s))
      /\ (Z.of_nat (String.length (content f)) <= StorageService.maxSize ->
          (is_blank (content f) = true ->
           StorageService.readData path now s = (Return emptyDoc, s))
          /\ (is_blank (content f) = false ->
              (JSON_parse (content f) = Some PNull ->
               exists msg, StorageService.readData path now s
                           = (Throw (Error ("Failed to read data: " +:+ msg)), s))
              /\ (forall exps inc sett,
                  JSON_parse (content f) = Some (PValue exps inc sett) ->
                  StorageService.readData path now s
                  = (Return {| expenses := default [] exps;
                               income := default [] inc;
                               settings := Some (default [] sett) |}, s))))).
Proof.
  split.
  - intros Hnone. eexists. unfold StorageService.readData.
    erewrite try_catch_throw; cycle 1.
    { unfold bind, fs.statSync. rewrite Hnone. reflexivity. }
    reflexivity.
  - intros f Hf. split.
    + intros Hbig. apply Z.ltb_lt in Hbig. eexists.
      unfold StorageService.readData.
      erewrite try_catch_throw; cycle 1.
      { unfold bind, fs.statSync. rewrite Hf, Hbig. reflexivity. }
      reflexivity.
    + intros Hsize. split.
      * intros Hblank. apply (read_blank path now s f); assumption.
      * intros Hblank. rewrite (read_reaches_parse path now s f Hf Hsize Hblank).
        unfold StorageService.parseDoc. split.
        -- intros ->. eexists. erewrite try_catch_throw by reflexivity. reflexivity.
        -- intros exps inc sett ->. apply try_catch_return. reflexivity.
Qed.

(** A data file that holds a byte order mark, a no-break space and a
    line feed. *)
Lemma readData_leaves_store_unless_corrupt_witness :
  StorageService.readData (RT := Reference.utc) (JC := Reference.tiny_codec)
    data_file 1718013600000 marked_directory
  = (Return emptyDoc, marked_directory).
Proof.
  destruct (readData_leaves_store_unless_corrupt (RT := Reference.utc)
              (JC := Reference.tiny_codec) data_file 1718013600000 marked_directory)
    as [_ H].
  destruct (H {| content := marked_blank; mtime := 1700000000000 |} eq_refl)
    as [_ H'].
  destruct H' as [Hblank _]; [vm_compute; discriminate|].
  apply Hblank. reflexivity.
Defined.

(** *** ensureDataFileExists *)

(** X5.  The constructor's check creates the data file once.  An existing data
    file, whatever it holds, is left alone together with the rest of the
    directory.  When the file is missing and the text of the initial
    document fits, the file is created with that text and a second call
    changes nothing; when that text reads back, the fresh store reads as
    the empty document.  What the check throws is an error whose message
    starts with "Failed to initialize storage: ". *)
Theorem ensureDataFileExists_creates_once
    {RT : Runtime} {JC : JsonCodec} (path : string) (now : Z) (s : FS) :
  (forall f, s !! path = Some f ->
             StorageService.ensureDataFileExists path now s = (Return tt, s))
  /\ (s !! path = None -> fits initialDoc ->
      exists s',
        StorageService.ensureDataFileExists path now s = (Return tt, s')
        /\ s' !! path = Some {| content := JSON_stringify initialDoc; mtime := now |}
        /\ (forall p, StorageService.is_backup_name path p = true -> s' !! p = s !! p)
        /\ (forall later,
              StorageService.ensureDataFileExists path later s' = (Return tt, s'))
        /\ (reads_back initialDoc ->
            forall later,
              StorageService.readData path later s' = (Return emptyDoc, s')))
  /\ (forall e, fst (StorageService.ensureDataFileExists path now s) = Throw e ->
                exists msg, e = Error ("Failed to initialize storage: " +:+ msg)).
Proof.
  assert (Hthere : forall t s0 f, s0 !! path = Some f ->
            StorageService.ensureDataFileExists path t s0 = (Return tt, s0)).
  { intros t s0 f Hf. unfold StorageService.ensureDataFileExists.
    apply try_catch_return. unfold bind, fs.existsSync. rewrite Hf. reflexivity. }
  split; [apply Hthere|]. split.
  - intros Hnone Hfit. exists (written path now initialDoc s). split.
    { unfold StorageService.ensureDataFileExists. apply try_catch_return.
      unfold bind at 1, fs.existsSync. rewrite Hnone.
      apply writeData_run. exact Hfit. }
    split; [apply written_data_file|].
    split; [intros p Hp; apply written_first_time; assumption|].
    split; [intros later; eapply Hthere; apply written_data_file|].
    intros Hback later.
    apply (readData_holds path later _ _ (written_holds path now initialDoc s Hback)).
  - intros e. unfold StorageService.ensureDataFileExists, try_catch.
    destruct (bind _ _ s) as [[u|err] s']; cbn [fst]; [discriminate|].
    unfold throw. cbn [fst]. intros H. inversion H. eauto.
Qed.

(** An empty directory. *)
Lemma ensureDataFileExists_creates_once_witness :
  exists s',
    StorageService.ensureDataFileExists (RT := Reference.utc) (JC := example_codec)
      data_file 1718013600000 ∅ = (Return tt, s')
    /\ s' !! data_file = Some {| content := "{doc:5}"; mtime := 1718013600000 |}
    /\ StorageService.readData (RT := Reference.utc) (JC := example_codec)
         data_file 1718013660000 s' = (Return emptyDoc, s').
Proof.
  destruct (ensureDataFileExists_creates_once (RT := Reference.utc)
              (JC := example_codec) data_file 1718013600000 ∅) as (_ & H & _).
  destruct H as (s' & Hrun & Hfile & _ & _ & Hread).
  - reflexivity.
  - vm_compute. discriminate.
  - exists s'. split; [exact Hrun|]. split; [exact Hfile|].
    apply Hread. repeat split; vm_compute; congruence.
Defined.

(** *** rotateBackups *)

(** X6.  rotateBackups never throws and only touches timestamped backups: every
    other file, the data file included, is as before.  When the data file
    exists its content is copied under the timestamped backup name of the
    call.  A backup found afterwards is that copy or was there before, and
    while fewer than three backups exist none is removed. *)
Theorem rotateBackups_only_touches_backups
    {RT : Runtime} (path : string) (now : Z) (s : FS) :
  exists s',
    StorageService.rotateBackups path now s = (Return tt, s')
    /\ (forall p, StorageService.is_backup_name path p = false -> s' !! p = s !! p)
    /\ (forall f, s !! path = Some f ->
                  s' !! StorageService.timestampedBackupPath path now
                  = Some {| content := content f; mtime := now |})
    /\ (forall p g, StorageService.is_backup_name path p = true ->
                    s' !! p = Some g ->
                    (p = StorageService.timestampedBackupPath path now /\ mtime g = now)
                    \/ s !! p = Some g)
    /\ ((List.length (backup_names path s) < 3)%nat ->
        forall p, p <> StorageService.timestampedBackupPath path now ->
                  s' !! p = s !! p).
Proof.
  exists (rotated path now s). split; [apply rotateBackups_run|].
  split; [intros p; apply rotated_lookup_other|].
  split; [intros f; apply rotated_new|].
  split.
  - intros p g Hp Hg.
    assert (Hsub : delete_all (dropped_backups path s) s !! p = Some g ->
                   s !! p = Some g).
    { intros H. destruct (in_dec string_dec p (dropped_backups path s)) as [Hin|Hout].
      - rewrite delete_all_lookup_in in H by exact Hin. discriminate.
      - rewrite delete_all_lookup_out in H by exact Hout. exact H. }
    unfold rotated in Hg.
    destruct (delete_all (dropped_backups path s) s !! path) as [f|]; [|auto].
    destruct (string_dec p (StorageService.timestampedBackupPath path now)) as [->|Hne].
    + left. split; [reflexivity|].
      rewrite lookup_insert_eq in Hg. inversion Hg. reflexivity.
    + right. rewrite lookup_insert_ne in Hg by congruence. auto.
  - intros Hfew p Hp. apply rotated_kept; [exact Hp|].
    unfold dropped_backups.
    assert (Hlen : List.length (sorted_backups path s) = List.length (backup_names path s)).
    { unfold sorted_backups, backup_names. rewrite Array_sort_length, List.length_map.
      reflexivity. }
    rewrite Hlen. destruct (3 <=? _)%nat eqn:E; [|intros []].
    apply Nat.leb_le in E. lia.
Qed.

(** In the directory of the corrupt data file the rotation copies the file
    and leaves it in place. *)
Lemma rotateBackups_only_touches_backups_witness :
  exists s',
    StorageService.rotateBackups (RT := Reference.utc) data_file 1718013600000
      corrupt_directory = (Return tt, s')
    /\ s' !! data_file = corrupt_directory !! data_file
    /\ s' !! "transactions.json.backup.2024-06-10T10-00-00-000Z.json"
       = Some {| content := "{oops"; mtime := 1718013600000 |}.
Proof.
  destruct (rotateBackups_only_touches_backups (RT := Reference.utc) data_file
              1718013600000 corrupt_directory) as (s' & Hrun & Hframe & Hnew & _).
  exists s'. split; [exact Hrun|]. split.
  - apply Hframe. reflexivity.
  - apply (Hnew {| content := "{oops"; mtime := 1700000000000 |}). reflexivity.
Defined.

(** ** The stored lists *)

Section ListFacts.
Context {A : Type}.

Lemma findIndex_none (p : A -> bool) (l : list A) :
  (forall x, In x l -> p x = false) -> findIndex p l = None.
Proof.
  induction l as [|x l IH]; intros H; simpl; [reflexivity|].
  rewrite (H x) by (left; reflexivity).
  rewrite IH by (intros y Hy; apply H; right; exact Hy). reflexivity.
Qed.

Lemma findIndex_first (p : A -> bool) (before after : list A) (x : A) :
  (forall y, In y before -> p y = false) -> p x = true ->
  findIndex p (before ++ x :: after) = Some (List.length before).
Proof.
  induction before as [|b before IH]; intros H Hx; simpl.
  - rewrite Hx. reflexivity.
  - rewrite (H b) by (left; reflexivity).
    rewrite IH by (try exact Hx; intros y Hy; apply H; right; exact Hy).
    reflexivity.
Qed.

Lemma insert_at_split (before after : list A) (x e : A) :
  <[List.length before := e]> (before ++ x :: after) = before ++ e :: after.
Proof.
  induction before as [|b before IH]; simpl; [reflexivity|].
  f_equal. exact IH.
Qed.

Lemma filter_all (q : A -> bool) (l : list A) :
  (forall x, In x l -> q x = true) -> List.filter q l = l.
Proof.
  induction l as [|x l IH]; intros H; simpl; [reflexivity|].
  rewrite (H x) by (left; reflexivity).
  rewrite IH by (intros y Hy; apply H; right; exact Hy). reflexivity.
Qed.

Lemma filter_none (q : A -> bool) (l : list A) :
  (forall x, In x l -> q x = false) -> List.filter q l = [].
Proof.
  induction l as [|x l IH]; intros H; simpl; [reflexivity|].
  rewrite (H x) by (left; reflexivity).
  apply IH. intros y Hy. apply H. right. exact Hy.
Qed.

Lemma filter_length_le (q : A -> bool) (l : list A) :
  (List.length (List.filter q l) <= List.length l)%nat.
Proof.
  induction l as [|x l IH]; simpl; [lia|]. destruct (q x); simpl; lia.
Qed.

Lemma filter_shorter (q : A -> bool) (l : list A) (x : A) :
  In x l -> q x = false ->
  (List.length (List.filter q l) < List.length l)%nat.
Proof.
  induction l as [|y l IH]; intros Hin Hx; [destruct Hin|]. simpl.
  destruct Hin as [->|Hin].
  - rewrite Hx. pose proof (filter_length_le q l). lia.
  - specialize (IH Hin Hx). destruct (q y); simpl; lia.
Qed.
End ListFacts.

Lemma find_by_id_none (ident : string) (l : list Txn) :
  TransactionService.find_by_id ident l = None <->
  (forall x, In x l -> id x <> ident).
Proof.
  unfold TransactionService.find_by_id. split.
  - intros H x Hx Hid.
    pose proof (List.find_none _ _ H x Hx) as Hn. simpl in Hn.
    apply String.eqb_neq in Hn. contradiction.
  - intros H. induction l as [|y l IH]; simpl; [reflexivity|].
    destruct (String.eqb (id y) ident) eqn:E.
    + apply String.eqb_eq in E. exfalso. apply (H y); [left; reflexivity | exact E].
    + apply IH. intros x Hx. apply H. right. exact Hx.
Qed.

Lemma find_by_id_first (ident : string) (before after : list Txn) (x : Txn) :
  (forall y, In y before -> id y <> ident) -> id x = ident ->
  TransactionService.find_by_id ident (before ++ x :: after) = Some x.
Proof.
  unfold TransactionService.find_by_id.
  induction before as [|b before IH]; intros H Hx; simpl.
  - apply String.eqb_eq in Hx. rewrite Hx. reflexivity.
  - assert (Hb : String.eqb (id b) ident = false).
    { apply String.eqb_neq. apply H. left. reflexivity. }
    rewrite Hb. apply IH; [|exact Hx]. intros y Hy. apply H. right. exact Hy.
Qed.

Lemma find_by_id_split (ident : string) (l : list Txn) (x : Txn) :
  TransactionService.find_by_id ident l = Some x ->
  id x = ident
  /\ exists before after,
       l = before ++ x :: after /\ (forall y, In y before -> id y <> ident).
Proof.
  unfold TransactionService.find_by_id.
  induction l as [|y l IH]; simpl; [discriminate|].
  destruct (String.eqb (id y) ident) eqn:E.
  - intros H. inversion H; subst y. apply String.eqb_eq in E. split; [exact E|].
    exists [], l. split; [reflexivity|]. intros z [].
  - intros H. destruct (IH H) as (Hid & before & after & -> & Hb).
    split; [exact Hid|]. exists (y :: before), after. split; [reflexivity|].
    intros z [<-|Hz]; [apply String.eqb_neq; exact E | apply Hb; exact Hz].
Qed.

Section StoreCrud.
Context {RT : Runtime} {JC : JsonCodec}.
Variable path : string.

Lemma getExpenses_holds (now : Z) (s : FS) (d : Doc) :
  holds path s d -> StorageService.getExpenses path now s = (Return (expenses d), s).
Proof.
  intros H. unfold StorageService.getExpenses.
  erewrite bind_return by (apply readData_holds; exact H). reflexivity.
Qed.

Lemma getIncome_holds (now : Z) (s : FS) (d : Doc) :
  holds path s d -> StorageService.getIncome path now s = (Return (income d), s).
Proof.
  intros H. unfold StorageService.getIncome.
  erewrite bind_return by (apply readData_holds; exact H). reflexivity.
Qed.

Lemma getSettings_holds (now : Z) (s : FS) (d : Doc) :
  holds path s d ->
  StorageService.getSettings path now s = (Return (default [] (settings d)), s).
Proof.
  intros H. unfold StorageService.getSettings.
  erewrite bind_return by (apply readData_holds; exact H). reflexivity.
Qed.

(** Writing a variant of the document a store holds. *)
Lemma write_variant (now : Z) (s : FS) (d d' : Doc) :
  holds path s d -> (exists sett, settings d' = Some sett) -> reads_back d' ->
  StorageService.writeData path now d' s = (Return tt, written path now d' s)
  /\ holds path (written path now d' s) d'.
Proof.
  intros _ [sett Hsett] Hback.
  destruct (writeData_holds path now d' s Hback) as [Hrun Hh].
  split; [exact Hrun|].
  replace d' with (normal d') at 2; [exact Hh|].
  destruct d' as [es inc st]. unfold normal. simpl in *. rewrite Hsett. reflexivity.
Qed.

Lemma addExpense_holds (now : Z) (e : Txn) (s : FS) (d : Doc) :
  holds path s d -> reads_back (with_expenses (expenses d ++ [e]) d) ->
  exists s',
    StorageService.addExpense path now e s = (Return tt, s')
    /\ holds path s' (with_expenses (expenses d ++ [e]) d).
Proof.
  intros H Hback. eexists. unfold StorageService.addExpense.
  erewrite bind_return by (apply readData_holds; exact H).
  apply (write_variant now s d (with_expenses (expenses d ++ [e]) d) H
           (holds_settings path s d H) Hback).
Qed.

Lemma addIncome_holds (now : Z) (i : Txn) (s : FS) (d : Doc) :
  holds path s d -> reads_back (with_income (income d ++ [i]) d) ->
  exists s',
    StorageService.addIncome path now i s = (Return tt, s')
    /\ holds path s' (with_income (income d ++ [i]) d).
Proof.
  intros H Hback. eexists. unfold StorageService.addIncome.
  erewrite bind_return by (apply readData_holds; exact H).
  apply (write_variant now s d (with_income (income d ++ [i]) d) H
           (holds_settings path s d H) Hback).
Qed.

Lemma updateExpense_holds (now : Z) (ident : string) (e : Txn) (s : FS) (d : Doc)
    (before after : list Txn) (x : Txn) :
  holds path s d ->
  expenses d = before ++ x :: after -> id x = ident ->
  (forall y, In y before -> id y <> ident) ->
  reads_back (with_expenses (before ++ e :: after) d) ->
  exists s',
    StorageService.updateExpense path now ident e s = (Return true, s')
    /\ holds path s' (with_expenses (before ++ e :: after) d).
Proof.
  intros H Hes Hx Hb Hback. unfold StorageService.updateExpense.
  erewrite bind_return by (apply readData_holds; exact H).
  rewrite Hes, findIndex_first; cycle 1.
  { intros y Hy. apply String.eqb_neq. apply Hb. exact Hy. }
  { apply String.eqb_eq. exact Hx. }
  rewrite insert_at_split.
  destruct (write_variant now s d (with_expenses (before ++ e :: after) d) H
              (holds_settings path s d H) Hback) as [Hrun Hh].
  eexists. split; [|exact Hh].
  unfold with_expenses in Hrun. erewrite bind_return by exact Hrun. reflexivity.
Qed.

Lemma updateIncome_holds (now : Z) (ident : string) (i : Txn) (s : FS) (d : Doc)
    (before after : list Txn) (x : Txn) :
  holds path s d ->
  income d = before ++ x :: after -> id x = ident ->
  (forall y, In y before -> id y <> ident) ->
  reads_back (with_income (before ++ i :: after) d) ->
  exists s',
    StorageService.updateIncome path now ident i s = (Return true, s')
    /\ holds path s' (with_income (before ++ i :: after) d).
Proof.
  intros H Hes Hx Hb Hback. unfold StorageService.updateIncome.
  erewrite bind_return by (apply readData_holds; exact H).
  rewrite Hes, findIndex_first; cycle 1.
  { intros y Hy. apply String.eqb_neq. apply Hb. exact Hy. }
  { apply String.eqb_eq. exact Hx. }
  rewrite insert_at_split.
  destruct (write_variant now s d (with_income (before ++ i :: after) d) H
              (holds_settings path s d H) Hback) as [Hrun Hh].
  eexists. split; [|exact Hh].
  unfold with_income in Hrun. erewrite bind_return by exact Hrun. reflexivity.
Qed.

Lemma update_unknown (now : Z) (ident : string) (e : Txn) (s : FS) (d : Doc) :
  holds path s d ->
  ((forall x, In x (expenses d) -> id x <> ident) ->
   StorageService.updateExpense path now ident e s = (Return false, s))
  /\ ((forall x, In x (income d) -> id x <> ident) ->
      StorageService.updateIncome path now ident e s = (Return false, s)).
Proof.
  intros H. split; intros Hno.
  - unfold StorageService.updateExpense.
    erewrite bind_return by (apply readData_holds; exact H).
    rewrite findIndex_none; [reflexivity|].
    intros x Hx. apply String.eqb_neq. apply Hno. exact Hx.
  - unfold StorageService.updateIncome.
    erewrite bind_return by (apply readData_holds; exact H).
    rewrite findIndex_none; [reflexivity|].
    intros x Hx. apply String.eqb_neq. apply Hno. exact Hx.
Qed.

Lemma deleteExpense_holds (now : Z) (ident : string) (s : FS) (d : Doc) (x : Txn) :
  holds path s d -> In x (expenses d) -> id x = ident ->
  reads_back (with_expenses
                (List.filter (fun e => negb (String.eqb (id e) ident)) (expenses d)) d) ->
  exists s',
    StorageService.deleteExpense path now ident s = (Return true, s')
    /\ holds path s'
         (with_expenses
            (List.filter (fun e => negb (String.eqb (id e) ident)) (expenses d)) d).
Proof.
  intros H Hin Hx Hback. unfold StorageService.deleteExpense.
  erewrite bind_return by (apply readData_holds; exact H). cbv zeta.
  assert (Hlt : (List.length (List.filter (fun e => negb (String.eqb (id e) ident))
                                (expenses d)) < List.length (expenses d))%nat).
  { apply filter_shorter with (x := x); [exact Hin|].
    apply String.eqb_eq in Hx. rewrite Hx. reflexivity. }
  apply Nat.lt_neq, Nat.eqb_neq in Hlt. rewrite Hlt.
  destruct (write_variant now s d
              (with_expenses
                 (List.filter (fun e => negb (String.eqb (id e) ident)) (expenses d)) d)
              H (holds_settings path s d H) Hback) as [Hrun Hh].
  eexists. split; [|exact Hh].
  unfold with_expenses in Hrun. erewrite bind_return by exact Hrun. reflexivity.
Qed.

Lemma deleteIncome_holds (now : Z) (ident : string) (s : FS) (d : Doc) (x : Txn) :
  holds path s d -> In x (income d) -> id x = ident ->
  reads_back (with_income
                (List.filter (fun i => negb (String.eqb (id i) ident)) (income d)) d) ->
  exists s',
    StorageService.deleteIncome path now ident s = (Return true, s')
    /\ holds path s'
         (with_income
            (List.filter (fun i => negb (String.eqb (id i) ident)) (income d)) d).
Proof.
  intros H Hin Hx Hback. unfold StorageService.deleteIncome.
  erewrite bind_return by (apply readData_holds; exact H). cbv zeta.
  assert (Hlt : (List.length (List.filter (fun i => negb (String.eqb (id i) ident))
                                (income d)) < List.length (income d))%nat).
  { apply filter_shorter with (x := x); [exact Hin|].
    apply String.eqb_eq in Hx. rewrite Hx. reflexivity. }
  apply Nat.lt_neq, Nat.eqb_neq in Hlt. rewrite Hlt.
  destruct (write_variant now s d
              (with_income
                 (List.filter (fun i => negb (String.eqb (id i) ident)) (income d)) d)
              H (holds_settings path s d H) Hback) as [Hrun Hh].
  eexists. split; [|exact Hh].
  unfold with_income in Hrun. erewrite bind_return by exact Hrun. reflexivity.
Qed.

Lemma delete_unknown (now : Z) (ident : string) (s : FS) (d : Doc) :
  holds path s d ->
  ((forall x, In x (expenses d) -> id x <> ident) ->
   StorageService.deleteExpense path now ident s = (Return false, s))
  /\ ((forall x, In x (income d) -> id x <> ident) ->
      StorageService.deleteIncome path now ident s = (Return false, s)).
Proof.
  intros H. split; intros Hno.
  - unfold StorageService.deleteExpense.
    erewrite bind_return by (apply readData_holds; exact H). cbv zeta.
    rewrite filter_all, Nat.eqb_refl; [reflexivity|].
    intros x Hx. apply negb_true_iff, String.eqb_neq. apply Hno. exact Hx.
  - unfold StorageService.deleteIncome.
    erewrite bind_return by (apply readData_holds; exact H). cbv zeta.
    rewrite filter_all, Nat.eqb_refl; [reflexivity|].
    intros x Hx. apply negb_true_iff, String.eqb_neq. apply Hno. exact Hx.
Qed.
End StoreCrud.

(** *** The operations of the Storage Service on a readable store *)

(** X7.  addExpense and addIncome append the record they are handed, as it is,
    to the end of its list and leave the other list and the settings as
    they were: on a store that holds a document, a later read returns the
    list with the record at its end. *)
Theorem storage_add_appends
    {RT : Runtime} {JC : JsonCodec} (path : string) (now later : Z) (t : Txn)
    (s : FS) (d : Doc) :
  holds path s d ->
  (reads_back (with_expenses (expenses d ++ [t]) d) ->
   exists s',
     StorageService.addExpense path now t s = (Return tt, s')
     /\ StorageService.getExpenses path later s' = (Return (expenses d ++ [t]), s')
     /\ StorageService.getIncome path later s' = (Return (income d), s')
     /\ StorageService.getSettings path later s'
        = (Return (default [] (settings d)), s'))
  /\ (reads_back (with_income (income d ++ [t]) d) ->
      exists s',
        StorageService.addIncome path now t s = (Return tt, s')
        /\ StorageService.getIncome path later s' = (Return (income d ++ [t]), s')
        /\ StorageService.getExpenses path later s' = (Return (expenses d), s')
        /\ StorageService.getSettings path later s'
           = (Return (default [] (settings d)), s')).
Proof.
  intros H. split; intros Hback.
  - destruct (addExpense_holds path now t s d H Hback) as (s' & Hrun & Hh).
    exists s'. split; [exact Hrun|].
    split; [apply (getExpenses_holds path later s' _ Hh)|].
    split; [apply (getIncome_holds path later s' _ Hh)|].
    apply (getSettings_holds path later s' _ Hh).
  - destruct (addIncome_holds path now t s d H Hback) as (s' & Hrun & Hh).
    exists s'. split; [exact Hrun|].
    split; [apply (getIncome_holds path later s' _ Hh)|].
    split; [apply (getExpenses_holds path later s' _ Hh)|].
    apply (getSettings_holds path later s' _ Hh).
Qed.

Lemma storage_add_appends_witness :
  exists s',
    StorageService.addExpense (RT := Reference.utc) (JC := example_codec)
      data_file 1718013600000 coffee ledger_directory = (Return tt, s')
    /\ StorageService.getExpenses (RT := Reference.utc) (JC := example_codec)
         data_file 1718013660000 s'
       = (Return [groceries; bus; dinner; lunch; coffee], s').
Proof.
  destruct (storage_add_appends (RT := Reference.utc) (JC := example_codec)
              data_file 1718013600000 1718013660000 coffee ledger_directory ledger)
    as [H _].
  - eexists _, _. repeat split; vm_compute; congruence.
  - destruct H as (s' & Hrun & Hread & _).
    + repeat split; vm_compute; congruence.
    + exists s'. split; [exact Hrun | exact Hread].
Defined.

(** X8.  updateExpense and updateIncome of the store replace the first record
    that has the id, in place, by the record they are handed, and return
    true; the records before and after it, the other list and their order
    are as before.  When no record of the list has the id they return
    false and write nothing. *)
Theorem storage_update_replaces_first
    {RT : Runtime} {JC : JsonCodec} (path : string) (now later : Z)
    (ident : string) (t : Txn) (s : FS) (d : Doc) :
  holds path s d ->
  ((forall x, In x (expenses d) -> id x <> ident) ->
   StorageService.updateExpense path now ident t s = (Return false, s))
  /\ ((forall x, In x (income d) -> id x <> ident) ->
      StorageService.updateIncome path now ident t s = (Return false, s))
  /\ (forall before x after,
        expenses d = before ++ x :: after -> id x = ident ->
        (forall y, In y before -> id y <> ident) ->
        reads_back (with_expenses (before ++ t :: after) d) ->
        exists s',
          StorageService.updateExpense path now ident t s = (Return true, s')
          /\ StorageService.getExpenses path later s'
             = (Return (before ++ t :: after), s')
          /\ StorageService.getIncome path later s' = (Return (income d), s'))
  /\ (forall before x after,
        income d = before ++ x :: after -> id x = ident ->
        (forall y, In y before -> id y <> ident) ->
        reads_back (with_income (before ++ t :: after) d) ->
        exists s',
          StorageService.updateIncome path now ident t s = (Return true, s')
          /\ StorageService.getIncome path later s'
             = (Return (before ++ t :: after), s')
          /\ StorageService.getExpenses path later s' = (Return (expenses d), s')).
Proof.
  intros H. destruct (update_unknown path now ident t s d H) as [He Hi].
  split; [exact He|]. split; [exact Hi|]. split.
  - intros before x after Hes Hx Hb Hback.
    destruct (updateExpense_holds path now ident t s d before after x H Hes Hx Hb Hback)
      as (s' & Hrun & Hh).
    exists s'. split; [exact Hrun|].
    split; [apply (getExpenses_holds path later s' _ Hh)|].
    apply (getIncome_holds path later s' _ Hh).
  - intros before x after Hes Hx Hb Hback.
    destruct (updateIncome_holds path now ident t s d before after x H Hes Hx Hb Hback)
      as (s' & Hrun & Hh).
    exists s'. split; [exact Hrun|].
    split; [apply (getIncome_holds path later s' _ Hh)|].
    apply (getExpenses_holds path later s' _ Hh).
Qed.

Lemma storage_update_replaces_first_witness :
  exists s',
    StorageService.updateExpense (RT := Reference.utc) (JC := example_codec)
      data_file 1718013600000 (id bus) coffee ledger_directory = (Return true, s')
    /\ StorageService.getExpenses (RT := Reference.utc) (JC := example_codec)
         data_file 1718013660000 s'
       = (Return [groceries; coffee; dinner; lunch], s').
Proof.
  destruct (storage_update_replaces_first (RT := Reference.utc) (JC := example_codec)
              data_file 1718013600000 1718013660000 (id bus) coffee
              ledger_directory ledger) as (_ & _ & H & _).
  - eexists _, _. repeat split; vm_compute; congruence.
  - destruct (H [groceries] bus [dinner; lunch]) as (s' & Hrun & Hread & _).
    + reflexivity.
    + reflexivity.
    + intros y [<-|[]]. vm_compute. congruence.
    + repeat split; vm_compute; congruence.
    + exists s'. split; [exact Hrun | exact Hread].
Defined.

(** X9.  deleteExpense and deleteIncome of the store remove every record of the
    list that has the id, keep the others in their order and return true;
    the other list is as before.  When no record of the list has the id
    they return false and write nothing. *)
Theorem storage_delete_removes_every_match
    {RT : Runtime} {JC : JsonCodec} (path : string) (now later : Z)
    (ident : string) (s : FS) (d : Doc) :
  let others := List.filter (fun x => negb (String.eqb (id x) ident)) in
  holds path s d ->
  ((forall x, In x (expenses d) -> id x <> ident) ->
   StorageService.deleteExpense path now ident s = (Return false, s))
  /\ ((forall x, In x (income d) -> id x <> ident) ->
      StorageService.deleteIncome path now ident s = (Return false, s))
  /\ (forall x, In x (expenses d) -> id x = ident ->
        reads_back (with_expenses (others (expenses d)) d) ->
        exists s',
          StorageService.deleteExpense path now ident s = (Return true, s')
          /\ StorageService.getExpenses path later s'
             = (Return (others (expenses d)), s')
          /\ StorageService.getIncome path later s' = (Return (income d), s'))
  /\ (forall x, In x (income d) -> id x = ident ->
        reads_back (with_income (others (income d)) d) ->
        exists s',
          StorageService.deleteIncome path now ident s = (Return true, s')
          /\ StorageService.getIncome path later s'
             = (Return (others (income d)), s')
          /\ StorageService.getExpenses path later s' = (Return (expenses d), s'))
  /\ (forall l y, In y (others l) <-> In y l /\ id y <> ident).
Proof.
  intros others H. destruct (delete_unknown path now ident s d H) as [He Hi].
  split; [exact He|]. split; [exact Hi|]. split; [|split].
  - intros x Hin Hx Hback.
    destruct (deleteExpense_holds path now ident s d x H Hin Hx Hback)
      as (s' & Hrun & Hh).
    exists s'. split; [exact Hrun|].
    split; [apply (getExpenses_holds path later s' _ Hh)|].
    apply (getIncome_holds path later s' _ Hh).
  - intros x Hin Hx Hback.
    destruct (deleteIncome_holds path now ident s d x H Hin Hx Hback)
      as (s' & Hrun & Hh).
    exists s'. split; [exact Hrun|].
    split; [apply (getIncome_holds path later s' _ Hh)|].
    apply (getExpenses_holds path later s' _ Hh).
  - intros l y. unfold others. rewrite List.filter_In, negb_true_iff, String.eqb_neq.
    tauto.
Qed.

Lemma storage_delete_removes_every_match_witness :
  exists s',
    StorageService.deleteExpense (RT := Reference.utc) (JC := example_codec)
      data_file 1718013600000 (id lunch) ledger_directory = (Return true, s')
    /\ StorageService.getExpenses (RT := Reference.utc) (JC := example_codec)
         data_file 1718013660000 s'
       = (Return [groceries; bus; dinner], s').
Proof.
  destruct (storage_delete_removes_every_match (RT := Reference.utc)
              (JC := example_codec) data_file 1718013600000 1718013660000 (id lunch)
              ledger_directory ledger) as (_ & _ & H & _).
  - eexists _, _. repeat split; vm_compute; congruence.
  - destruct (H lunch) as (s' & Hrun & Hread & _).
    + simpl. tauto.
    + reflexivity.
    + repeat split; vm_compute; congruence.
    + exists s'. split; [exact Hrun | exact Hread].
Defined.

(** *** Settings *)

Lemma get_key_assign (k k' : string) (v : JsVal) (obj : Settings) :
  get_key k (assign obj k' v) = if String.eqb k' k then v else get_key k obj.
Proof.
  induction obj as [|[k0 w] obj IH]; simpl.
  - destruct (String.eqb k' k); reflexivity.
  - destruct (String.eqb k0 k') eqn:E0; simpl.
    + apply String.eqb_eq in E0. subst k0. destruct (String.eqb k' k); reflexivity.
    + destruct (String.eqb k0 k) eqn:E1.
      * destruct (String.eqb k' k) eqn:E2; [|reflexivity].
        apply String.eqb_eq in E1, E2. subst. rewrite String.eqb_refl in E0.
        discriminate.
      * exact IH.
Qed.

Lemma get_key_spread (k : string) (old new : Settings) :
  List.NoDup (List.map fst new) ->
  (has_key k new -> get_key k (spread old new) = get_key k new)
  /\ (~ has_key k new -> get_key k (spread old new) = get_key k old).
Proof.
  unfold spread, has_key. revert old.
  induction new as [|[k1 v1] new IH]; intros old Hnd; simpl.
  - split; [intros [] | reflexivity].
  - inversion Hnd as [|? ? Hout Hnd']; subst.
    destruct (IH (assign old k1 v1) Hnd') as [IHin IHout]. split.
    + intros [->|Hin].
      * rewrite String.eqb_refl. rewrite IHout by exact Hout.
        rewrite get_key_assign, String.eqb_refl. reflexivity.
      * destruct (String.eqb k1 k) eqn:E.
        -- apply String.eqb_eq in E. subst. contradiction.
        -- apply IHin. exact Hin.
    + intros Hno. rewrite IHout by tauto. rewrite get_key_assign.
      destruct (String.eqb k1 k) eqn:E; [|reflexivity].
      apply String.eqb_eq in E. tauto.
Qed.

(** X10.  saveSettings merges the settings it is handed over the stored ones, key
    by key, and keeps the transactions: afterwards getSettings gives, for a
    key of the new settings, the new value and, for any other key, the
    value stored before, and both lists read as before. *)
Theorem saveSettings_merges_keys
    {RT : Runtime} {JC : JsonCodec} (path : string) (now later : Z)
    (new : Settings) (s : FS) (d : Doc) :
  let old := default [] (settings d) in
  holds path s d ->
  List.NoDup (List.map fst new) ->
  reads_back (with_settings (spread old new) d) ->
  exists s',
    StorageService.saveSettings path now new s = (Return true, s')
    /\ StorageService.getSettings path later s' = (Return (spread old new), s')
    /\ (forall k, has_key k new -> get_key k (spread old new) = get_key k new)
    /\ (forall k, ~ has_key k new -> get_key k (spread old new) = get_key k old)
    /\ StorageService.getExpenses path later s' = (Return (expenses d), s')
    /\ StorageService.getIncome path later s' = (Return (income d), s').
Proof.
  intros old H Hnd Hback.
  set (d' := with_settings (spread old new) d) in *.
  destruct (write_variant path now s d d' H (ex_intro _ _ eq_refl) Hback)
    as [Hrun Hh].
  exists (written path now d' s).
  split.
  { unfold StorageService.saveSettings.
    erewrite bind_return by (apply readData_holds; exact H).
    unfold d', with_settings in Hrun. erewrite bind_return by exact Hrun. reflexivity. }
  split; [apply (getSettings_holds path later _ _ Hh)|].
  split; [intros k; apply get_key_spread; exact Hnd|].
  split; [intros k; apply get_key_spread; exact Hnd|].
  split; [apply (getExpenses_holds path later _ _ Hh)|].
  apply (getIncome_holds path later _ _ Hh).
Qed.

(** The currency is chosen on a store without settings. *)
Lemma saveSettings_merges_keys_witness :
  exists s',
    StorageService.saveSettings (RT := Reference.utc) (JC := example_codec)
      data_file 1718013600000 [("currency", VStr "€")] ledger_directory
    = (Return true, s')
    /\ StorageService.getSettings (RT := Reference.utc) (JC := example_codec)
         data_file 1718013660000 s'
       = (Return [("currency", VStr "€")], s').
Proof.
  destruct (saveSettings_merges_keys (RT := Reference.utc) (JC := example_codec)
              data_file 1718013600000 1718013660000 [("currency", VStr "€")]
              ledger_directory ledger) as (s' & Hrun & Hread & _).
  - eexists _, _. repeat split; vm_compute; congruence.
  - repeat constructor. intros [].
  - repeat split; vm_compute; congruence.
  - exists s'. split; [exact Hrun | exact Hread].
Defined.

(** ** The Transaction Service on the file store *)

Lemma find_by_id_others (j ident : string) (l : list Txn) :
  TransactionService.find_by_id j
    (List.filter (fun x => negb (String.eqb (id x) ident)) l)
  = if String.eqb j ident then None else TransactionService.find_by_id j l.
Proof.
  unfold TransactionService.find_by_id.
  induction l as [|y l IH]; simpl.
  - destruct (String.eqb j ident); reflexivity.
  - destruct (String.eqb (id y) ident) eqn:E; simpl.
    + rewrite IH. destruct (String.eqb j ident) eqn:Ej; [reflexivity|].
      destruct (String.eqb (id y) j) eqn:Ey; [|reflexivity].
      apply String.eqb_eq in E, Ey. subst. rewrite String.eqb_refl in Ej. discriminate.
    + destruct (String.eqb (id y) j) eqn:Ey.
      * apply String.eqb_eq in Ey. subst j. rewrite E. reflexivity.
      * exact IH.
Qed.

Lemma find_by_id_app_fresh (ident : string) (l : list Txn) (x : Txn) :
  (forall y, In y l -> id y <> ident) -> id x = ident ->
  TransactionService.find_by_id ident (l ++ [x]) = Some x.
Proof. intros H Hx. apply find_by_id_first; assumption. Qed.

Section ServiceOnFiles.
Context {RT : Runtime} {JC : JsonCodec}.
Variable path : string.

Lemma service_getExpenseById (now : Z) (ident : string) (s : FS) (d : Doc) :
  holds path s d ->
  TransactionService.getExpenseById (ST := StorageService.storage path now) ident s
  = (Return (TransactionService.find_by_id ident (expenses d)), s).
Proof.
  intros H. unfold TransactionService.getExpenseById.
  cbn [st_getExpenses StorageService.storage].
  erewrite bind_return by (apply getExpenses_holds; exact H). reflexivity.
Qed.

Lemma service_getIncomeById (now : Z) (ident : string) (s : FS) (d : Doc) :
  holds path s d ->
  TransactionService.getIncomeById (ST := StorageService.storage path now) ident s
  = (Return (TransactionService.find_by_id ident (income d)), s).
Proof.
  intros H. unfold TransactionService.getIncomeById.
  cbn [st_getIncome StorageService.storage].
  erewrite bind_return by (apply getIncome_holds; exact H). reflexivity.
Qed.

Lemma service_getTransactionById (now : Z) (ident : string) (s : FS) (d : Doc) :
  holds path s d ->
  TransactionService.getTransactionById (ST := StorageService.storage path now) ident s
  = (Return match TransactionService.find_by_id ident (expenses d) with
            | Some e => Some (with_type "expense" e)
            | None => option_map (with_type "income")
                        (TransactionService.find_by_id ident (income d))
            end, s).
Proof.
  intros H. unfold TransactionService.getTransactionById.
  erewrite bind_return by (apply service_getExpenseById; exact H).
  destruct (TransactionService.find_by_id ident (expenses d)); [reflexivity|].
  erewrite bind_return by (apply service_getIncomeById; exact H).
  destruct (TransactionService.find_by_id ident (income d)); reflexivity.
Qed.

Lemma service_getTransactions (now : Z) (f : Filters) (s : FS) (d : Doc) :
  holds path s d ->
  TransactionService.getTransactions (ST := StorageService.storage path now) f s
  = (Return (TransactionService.select f (expenses d) (income d)), s).
Proof.
  intros H. unfold TransactionService.getTransactions.
  cbn [st_getExpenses st_getIncome StorageService.storage].
  erewrite bind_return by (apply getExpenses_holds; exact H).
  erewrite bind_return by (apply getIncome_holds; exact H). reflexivity.
Qed.

Lemma service_addExpense (env : Env) (amt : JsVal) (dt : DateInput)
    (cat desc cur : JsVal) (s : FS) (d : Doc) :
  let expense := Expense.new env amt dt cat (default_param (VStr "") desc)
                   (default_param (VStr "$") cur) None in
  holds path s d ->
  isValid (Expense.validate expense) = true ->
  reads_back (with_expenses (expenses d ++ [Expense.toJSON expense]) d) ->
  exists s',
    TransactionService.addExpense (ST := StorageService.storage path (now env))
      env amt dt cat desc cur s
    = (Return {| success := true; message := "Expense added successfully";
                 payload := Some (Expense.toJSON expense) |}, s')
    /\ holds path s' (with_expenses (expenses d ++ [Expense.toJSON expense]) d).
Proof.
  intros expense H Hvalid Hback.
  destruct (addExpense_holds path (now env) (Expense.toJSON expense) s d H Hback)
    as (s' & Hrun & Hh).
  exists s'. split; [|exact Hh].
  unfold TransactionService.addExpense. apply try_catch_return.
  fold expense. rewrite Hvalid. cbn [negb].
  cbn [st_addExpense StorageService.storage].
  erewrite bind_return by exact Hrun. reflexivity.
Qed.

Lemma service_addIncome (env : Env) (amt : JsVal) (dt : DateInput)
    (src desc cur : JsVal) (s : FS) (d : Doc) :
  let item := Income.new env amt dt src (default_param (VStr "") desc)
                (default_param (VStr "$") cur) None in
  holds path s d ->
  isValid (Income.validate item) = true ->
  reads_back (with_income (income d ++ [Income.toJSON item]) d) ->
  exists s',
    TransactionService.addIncome (ST := StorageService.storage path (now env))
      env amt dt src desc cur s
    = (Return {| success := true; message := "Income added successfully";
                 payload := Some (Income.toJSON item) |}, s')
    /\ holds path s' (with_income (income d ++ [Income.toJSON item]) d).
Proof.
  intros item H Hvalid Hback.
  destruct (addIncome_holds path (now env) (Income.toJSON item) s d H Hback)
    as (s' & Hrun & Hh).
  exists s'. split; [|exact Hh].
  unfold TransactionService.addIncome. apply try_catch_return.
  fold item. rewrite Hvalid. cbn [negb].
  cbn [st_addIncome StorageService.storage].
  erewrite bind_return by exact Hrun. reflexivity.
Qed.

Lemma service_deleteExpense (now : Z) (ident : string) (s : FS) (d : Doc) (x : Txn) :
  holds path s d ->
  TransactionService.find_by_id ident (expenses d) = Some x ->
  reads_back (with_expenses
                (List.filter (fun e => negb (String.eqb (id e) ident)) (expenses d)) d) ->
  exists s',
    TransactionService.deleteExpense (ST := StorageService.storage path now) ident s
    = (Return {| success := true; message := "Expense deleted successfully";
                 payload := None |}, s')
    /\ holds path s'
         (with_expenses
            (List.filter (fun e => negb (String.eqb (id e) ident)) (expenses d)) d).
Proof.
  intros H Hfind Hback.
  destruct (find_by_id_split _ _ _ Hfind) as (Hid & before & after & Hes & _).
  destruct (deleteExpense_holds path now ident s d x H) as (s' & Hrun & Hh);
    [rewrite Hes; apply in_or_app; right; left; reflexivity | exact Hid | exact Hback |].
  exists s'. split; [|exact Hh].
  unfold TransactionService.deleteExpense. apply try_catch_return.
  erewrite bind_return by (apply service_getExpenseById; exact H).
  rewrite Hfind. cbn [st_deleteExpense StorageService.storage].
  erewrite bind_return by exact Hrun. reflexivity.
Qed.

Lemma service_deleteIncome (now : Z) (ident : string) (s : FS) (d : Doc) (x : Txn) :
  holds path s d ->
  TransactionService.find_by_id ident (income d) = Some x ->
  reads_back (with_income
                (List.filter (fun i => negb (String.eqb (id i) ident)) (income d)) d) ->
  exists s',
    TransactionService.deleteIncome (ST := StorageService.storage path now) ident s
    = (Return {| success := true; message := "Income deleted successfully";
                 payload := None |}, s')
    /\ holds path s'
         (with_income
            (List.filter (fun i => negb (String.eqb (id i) ident)) (income d)) d).
Proof.
  intros H Hfind Hback.
  destruct (find_by_id_split _ _ _ Hfind) as (Hid & before & after & Hes & _).
  destruct (deleteIncome_holds path now ident s d x H) as (s' & Hrun & Hh);
    [rewrite Hes; apply in_or_app; right; left; reflexivity | exact Hid | exact Hback |].
  exists s'. split; [|exact Hh].
  unfold TransactionService.deleteIncome. apply try_catch_return.
  erewrite bind_return by (apply service_getIncomeById; exact H).
  rewrite Hfind. cbn [st_deleteIncome StorageService.storage].
  erewrite bind_return by exact Hrun. reflexivity.
Qed.

Lemma service_updateExpense (env : Env) (ident : string) (u : Updates) (s : FS)
    (d : Doc) (before after : list Txn) (x : Txn) :
  let stored := Expense.toJSON (TransactionService.updatedExpense env x u) in
  holds path s d ->
  expenses d = before ++ x :: after -> id x = ident ->
  (forall y, In y before -> id y <> ident) ->
  isValid (Expense.validate (TransactionService.updatedExpense env x u)) = true ->
  reads_back (with_expenses (before ++ stored :: after) d) ->
  exists s',
    TransactionService.updateExpense (ST := StorageService.storage path (now env))
      env ident u s
    = (Return {| success := true; message := "Expense updated successfully";
                 payload := Some stored |}, s')
    /\ holds path s' (with_expenses (before ++ stored :: after) d).
Proof.
  intros stored H Hes Hx Hb Hvalid Hback.
  destruct (updateExpense_holds path (now env) ident stored s d before after x
              H Hes Hx Hb Hback) as (s' & Hrun & Hh).
  exists s'. split; [|exact Hh].
  unfold TransactionService.updateExpense. apply try_catch_return.
  erewrite bind_return by (apply service_getExpenseById; exact H).
  rewrite Hes, (find_by_id_first ident before after x Hb Hx). cbv zeta.
  rewrite Hvalid. cbn [negb]. cbn [st_updateExpense StorageService.storage].
  fold stored. erewrite bind_return by exact Hrun. reflexivity.
Qed.
End ServiceOnFiles.

(** X11.  A record added through the Transaction Service is found again.  On a
    store that holds a document, adding an expense that passes validation
    reports success with the stored record, whose id is the fresh uuid;
    provided no stored expense has that id already, getExpenseById and
    getTransactionById then find exactly that record (the latter tagged
    as an expense), and getTransactions works on the old records and the
    new one.  The same holds for an income. *)
Theorem added_record_is_found
    {RT : Runtime} {JC : JsonCodec} (path : string) (env : Env) (later : Z)
    (amt : JsVal) (dt : DateInput) (kind desc cur : JsVal) (f : Filters)
    (s : FS) (d : Doc) :
  let new_expense := Expense.new env amt dt kind
                        (default_param (VStr "") desc) (default_param (VStr "$") cur) None in
  let new_income := Income.new env amt dt kind
                      (default_param (VStr "") desc) (default_param (VStr "$") cur) None in
  let expense := Expense.toJSON new_expense in
  let item := Income.toJSON new_income in
  let at_call := StorageService.storage path (now env) in
  let afterwards := StorageService.storage path later in
  holds path s d ->
  (isValid (Expense.validate new_expense) = true ->
   (forall x, In x (expenses d) -> id x <> uuid env) ->
   reads_back (with_expenses (expenses d ++ [expense]) d) ->
   exists s',
     TransactionService.addExpense (ST := at_call) env amt dt kind desc cur s
     = (Return {| success := true; message := "Expense added successfully";
                  payload := Some expense |}, s')
     /\ id expense = uuid env
     /\ TransactionService.getExpenseById (ST := afterwards) (uuid env) s'
        = (Return (Some expense), s')
     /\ TransactionService.getTransactionById (ST := afterwards) (uuid env) s'
        = (Return (Some (with_type "expense" expense)), s')
     /\ TransactionService.getTransactions (ST := afterwards) f s'
        = (Return (TransactionService.select f (expenses d ++ [expense]) (income d)),
           s'))
  /\ (isValid (Income.validate new_income) = true ->
      (forall x, In x (income d) -> id x <> uuid env) ->
      reads_back (with_income (income d ++ [item]) d) ->
      exists s',
        TransactionService.addIncome (ST := at_call) env amt dt kind desc cur s
        = (Return {| success := true; message := "Income added successfully";
                     payload := Some item |}, s')
        /\ id item = uuid env
        /\ TransactionService.getIncomeById (ST := afterwards) (uuid env) s'
           = (Return (Some item), s')
        /\ TransactionService.getTransactions (ST := afterwards) f s'
           = (Return (TransactionService.select f (expenses d) (income d ++ [item])),
              s')).
Proof.
  intros new_expense new_income expense item at_call afterwards H.
  subst at_call afterwards expense item new_expense new_income. split.
  - intros Hvalid Hfresh Hback.
    destruct (service_addExpense path env amt dt kind desc cur s d H)
      as (s' & Hrun & Hh); [exact Hvalid | exact Hback |].
    exists s'. split; [exact Hrun|]. split; [reflexivity|].
    split.
    { rewrite (service_getExpenseById path later _ _ _ Hh).
      cbn [expenses with_expenses].
      rewrite find_by_id_app_fresh; [reflexivity | exact Hfresh | reflexivity]. }
    split.
    { rewrite (service_getTransactionById path later _ _ _ Hh).
      cbn [expenses with_expenses].
      rewrite find_by_id_app_fresh; [reflexivity | exact Hfresh | reflexivity]. }
    rewrite (service_getTransactions path later f _ _ Hh).
    reflexivity.
  - intros Hvalid Hfresh Hback.
    destruct (service_addIncome path env amt dt kind desc cur s d H)
      as (s' & Hrun & Hh); [exact Hvalid | exact Hback |].
    exists s'. split; [exact Hrun|]. split; [reflexivity|].
    split.
    { rewrite (service_getIncomeById path later _ _ _ Hh).
      cbn [income with_income].
      rewrite find_by_id_app_fresh; [reflexivity | exact Hfresh | reflexivity]. }
    rewrite (service_getTransactions path later f _ _ Hh).
    reflexivity.
Qed.

(** A coffee is added to the ledger on 10 June 2024. *)
Lemma added_record_is_found_witness :
  exists s',
    TransactionService.addExpense (RT := Reference.utc)
      (ST := StorageService.storage (RT := Reference.utc) (JC := example_codec)
               data_file (now june_10th))
      june_10th (VNum 3.5) (DStr "2024-06-10") (VStr "Food") (VStr "Coffee")
      VUndefined ledger_directory
    = (Return {| success := true; message := "Expense added successfully";
                 payload := Some coffee |}, s')
    /\ TransactionService.getExpenseById
         (ST := StorageService.storage (RT := Reference.utc) (JC := example_codec)
                  data_file 1718013660000)
         "deadbeef-0004" s'
       = (Return (Some coffee), s').
Proof.
  destruct (added_record_is_found (RT := Reference.utc) (JC := example_codec)
              data_file june_10th 1718013660000 (VNum 3.5) (DStr "2024-06-10")
              (VStr "Food") (VStr "Coffee") VUndefined no_filters
              ledger_directory ledger) as [H _].
  - eexists _, _. repeat split; vm_compute; congruence.
  - destruct H as (s' & Hrun & _ & Hfind & _).
    + vm_compute. reflexivity.
    + intros x Hx. simpl in Hx.
      destruct Hx as [<-|[<-|[<-|[<-|[]]]]]; vm_compute; congruence.
    + repeat split; vm_compute; congruence.
    + exists s'. split; [exact Hrun | exact Hfind].
Defined.

(** X12.  A record deleted through the Transaction Service is gone, and only it.
    deleteTransaction looks the id up among the expenses first.  When an
    expense has it, every expense with that id is removed: getExpenseById
    then finds nothing under the id and what it found under any other id
    before, and the income is untouched, so that an income with the same
    id is what getTransactionById finds next.  When only an income has the
    id, the income is removed in the same way.  When no record has the id
    the miss is reported and nothing is written. *)
Theorem deleted_record_is_gone
    {RT : Runtime} {JC : JsonCodec} (path : string) (now later : Z)
    (ident : string) (s : FS) (d : Doc) :
  let others := List.filter (fun x => negb (String.eqb (id x) ident)) in
  let at_call := StorageService.storage path now in
  let afterwards := StorageService.storage path later in
  holds path s d ->
  (forall x, TransactionService.find_by_id ident (expenses d) = Some x ->
     reads_back (with_expenses (others (expenses d)) d) ->
     exists s',
       TransactionService.deleteTransaction (ST := at_call) ident s
       = (Return {| success := true; message := "Expense deleted successfully";
                    payload := None |}, s')
       /\ TransactionService.getExpenseById (ST := afterwards) ident s'
          = (Return None, s')
       /\ (forall j, j <> ident ->
             TransactionService.getExpenseById (ST := afterwards) j s'
             = (Return (TransactionService.find_by_id j (expenses d)), s'))
       /\ (forall j,
             TransactionService.getIncomeById (ST := afterwards) j s'
             = (Return (TransactionService.find_by_id j (income d)), s'))
       /\ TransactionService.getTransactionById (ST := afterwards) ident s'
          = (Return (option_map (with_type "income")
                       (TransactionService.find_by_id ident (income d))), s'))
  /\ (TransactionService.find_by_id ident (expenses d) = None ->
      forall x, TransactionService.find_by_id ident (income d) = Some x ->
      reads_back (with_income (others (income d)) d) ->
      exists s',
        TransactionService.deleteTransaction (ST := at_call) ident s
        = (Return {| success := true; message := "Income deleted successfully";
                     payload := None |}, s')
        /\ TransactionService.getTransactionById (ST := afterwards) ident s'
           = (Return None, s')
        /\ (forall j, j <> ident ->
              TransactionService.getIncomeById (ST := afterwards) j s'
              = (Return (TransactionService.find_by_id j (income d)), s'))
        /\ (forall j,
              TransactionService.getExpenseById (ST := afterwards) j s'
              = (Return (TransactionService.find_by_id j (expenses d)), s')))
  /\ (TransactionService.find_by_id ident (expenses d) = None ->
      TransactionService.find_by_id ident (income d) = None ->
      TransactionService.deleteTransaction (ST := at_call) ident s
      = (Return (TransactionService.failure "Transaction not found"), s)).
Proof.
  intros others at_call afterwards H. subst others at_call afterwards.
  split; [|split].
  - intros x Hfind Hback.
    destruct (service_deleteExpense path now ident s d x H Hfind Hback)
      as (s' & Hrun & Hh).
    exists s'. split.
    { unfold TransactionService.deleteTransaction.
      erewrite bind_return by (apply service_getTransactionById; exact H).
      rewrite Hfind. cbn [type with_type]. rewrite String.eqb_refl. exact Hrun. }
    split.
    { rewrite (service_getExpenseById path later _ _ _ Hh).
      cbn [expenses with_expenses]. rewrite find_by_id_others, String.eqb_refl.
      reflexivity. }
    split.
    { intros j Hj. rewrite (service_getExpenseById path later _ _ _ Hh).
      cbn [expenses with_expenses]. rewrite find_by_id_others.
      apply String.eqb_neq in Hj. rewrite Hj. reflexivity. }
    split.
    { intros j. apply (service_getIncomeById path later _ _ _ Hh). }
    rewrite (service_getTransactionById path later _ _ _ Hh).
    cbn [expenses income with_expenses]. rewrite find_by_id_others, String.eqb_refl.
    reflexivity.
  - intros Hnone x Hfind Hback.
    destruct (service_deleteIncome path now ident s d x H Hfind Hback)
      as (s' & Hrun & Hh).
    exists s'. split.
    { unfold TransactionService.deleteTransaction.
      erewrite bind_return by (apply service_getTransactionById; exact H).
      rewrite Hnone, Hfind. cbn [option_map type with_type]. exact Hrun. }
    split.
    { rewrite (service_getTransactionById path later _ _ _ Hh).
      cbn [expenses income with_income]. rewrite Hnone, find_by_id_others,
        String.eqb_refl. reflexivity. }
    split.
    { intros j Hj. rewrite (service_getIncomeById path later _ _ _ Hh).
      cbn [income with_income]. rewrite find_by_id_others.
      apply String.eqb_neq in Hj. rewrite Hj. reflexivity. }
    intros j. apply (service_getExpenseById path later _ _ _ Hh).
  - intros He Hi. unfold TransactionService.deleteTransaction.
    erewrite bind_return by (apply service_getTransactionById; exact H).
    rewrite He, Hi. reflexivity.
Qed.

(** The lunch is deleted from the ledger. *)
Lemma deleted_record_is_gone_witness :
  exists s',
    TransactionService.deleteTransaction
      (ST := StorageService.storage (RT := Reference.utc) (JC := example_codec)
               data_file 1718013600000)
      (id lunch) ledger_directory
    = (Return {| success := true; message := "Expense deleted successfully";
                 payload := None |}, s')
    /\ TransactionService.getExpenseById
         (ST := StorageService.storage (RT := Reference.utc) (JC := example_codec)
                  data_file 1718013660000)
         (id lunch) s'
       = (Return None, s').
Proof.
  destruct (deleted_record_is_gone (RT := Reference.utc) (JC := example_codec)
              data_file 1718013600000 1718013660000 (id lunch)
              ledger_directory ledger) as [H _].
  - eexists _, _. repeat split; vm_compute; congruence.
  - destruct (H lunch) as (s' & Hrun & Hgone & _).
    + reflexivity.
    + repeat split; vm_compute; congruence.
    + exists s'. split; [exact Hrun | exact Hgone].
Defined.

(** X13.  An update through the Transaction Service is persisted in place.  When
    the first expense with the id passes validation once updated, the
    rebuilt record takes its position in the stored list, before and after
    the same records as before; for a non-empty id it keeps the id, and
    getExpenseById then returns the rebuilt record. *)
Theorem updated_record_is_stored
    {RT : Runtime} {JC : JsonCodec} (path : string) (env : Env) (later : Z)
    (ident : string) (u : Updates) (s : FS) (d : Doc)
    (before after : list Txn) (x : Txn) :
  let rebuilt := TransactionService.updatedExpense env x u in
  let stored := Expense.toJSON rebuilt in
  let at_call := StorageService.storage path (now env) in
  let afterwards := StorageService.storage path later in
  holds path s d ->
  expenses d = before ++ x :: after ->
  id x = ident -> ident <> "" ->
  (forall y, In y before -> id y <> ident) ->
  isValid (Expense.validate rebuilt) = true ->
  reads_back (with_expenses (before ++ stored :: after) d) ->
  exists s',
    TransactionService.updateTransaction (ST := at_call) env ident u s
    = (Return {| success := true; message := "Expense updated successfully";
                 payload := Some stored |}, s')
    /\ id stored = ident
    /\ StorageService.getExpenses path later s'
       = (Return (before ++ stored :: after), s')
    /\ StorageService.getIncome path later s' = (Return (income d), s')
    /\ TransactionService.getExpenseById (ST := afterwards) ident s'
       = (Return (Some stored), s').
Proof.
  intros rebuilt stored at_call afterwards H Hes Hx Hne Hb Hvalid Hback.
  subst at_call afterwards stored rebuilt.
  destruct (service_updateExpense path env ident u s d before after x
              H Hes Hx Hb Hvalid Hback) as (s' & Hrun & Hh).
  assert (Hid : id (Expense.toJSON (TransactionService.updatedExpense env x u)) = ident).
  { cbn. rewrite Hx. apply String.eqb_neq in Hne. rewrite Hne. reflexivity. }
  exists s'. split.
  { unfold TransactionService.updateTransaction.
    erewrite bind_return by (apply service_getTransactionById; exact H).
    rewrite Hes, (find_by_id_first ident before after x Hb Hx).
    cbn [type with_type]. rewrite String.eqb_refl. exact Hrun. }
  split; [exact Hid|].
  split; [apply (getExpenses_holds path later _ _ Hh)|].
  split; [apply (getIncome_holds path later _ _ Hh)|].
  rewrite (service_getExpenseById path later _ _ _ Hh).
  cbn [expenses with_expenses].
  rewrite (find_by_id_first ident before after _ Hb Hid). reflexivity.
Qed.

(** The bus fare of the ledger is updated to 3. *)
Lemma updated_record_is_stored_witness :
  exists s',
    TransactionService.updateTransaction (RT := Reference.utc)
      (ST := StorageService.storage (RT := Reference.utc) (JC := example_codec)
               data_file (now june_10th))
      june_10th (id bus) (new_amount (VNum 3)) ledger_directory
    = (Return {| success := true; message := "Expense updated successfully";
                 payload := Some raised_fare |}, s')
    /\ StorageService.getExpenses (RT := Reference.utc) (JC := example_codec)
         data_file 1718013660000 s'
       = (Return [groceries; raised_fare; dinner; lunch], s').
Proof.
  destruct (updated_record_is_stored (RT := Reference.utc) (JC := example_codec)
              data_file june_10th 1718013660000 (id bus) (new_amount (VNum 3))
              ledger_directory ledger [groceries] [dinner; lunch] bus)
    as (s' & Hrun & _ & Hread & _).
  - eexists _, _. repeat split; vm_compute; congruence.
  - reflexivity.
  - reflexivity.
  - discriminate.
  - intros y [<-|[]]. vm_compute. congruence.
  - vm_compute. reflexivity.
  - repeat split; vm_compute; congruence.
  - exists s'. split; [exact Hrun | exact Hread].
Defined.

(** ** Summaries *)

Section SummaryFacts.
Context {RT : Runtime} {AR : Arith}.

Lemma bump_keys (k : string) (v : JsVal) (obj : list (string * JsVal)) :
  List.map fst (bump k v obj)
  = if in_dec string_dec k (List.map fst obj) then List.map fst obj
    else if String.eqb k "__proto__" then List.map fst obj
    else List.map fst obj ++ [k].
Proof.
  induction obj as [|[k' w] obj IH]; simpl.
  - destruct (String.eqb k "__proto__"); reflexivity.
  - destruct (String.eqb k' k) eqn:E.
    + apply String.eqb_eq in E. subst k'.
      destruct (string_dec k k) as [Heq|Hn]; [reflexivity | contradiction].
    + apply String.eqb_neq in E. simpl. rewrite IH.
      destruct (string_dec k' k) as [He|Hne]; [contradiction|].
      destruct (in_dec string_dec k (List.map fst obj)); [reflexivity|].
      destruct (String.eqb k "__proto__"); reflexivity.
Qed.

Lemma bump_keys_In (k : string) (v : JsVal) (obj : list (string * JsVal)) (c : string) :
  k <> "__proto__" ->
  In c (List.map fst (bump k v obj)) <-> In c (List.map fst obj) \/ c = k.
Proof.
  intros Hk. apply String.eqb_neq in Hk.
  rewrite bump_keys, Hk. destruct (in_dec string_dec k (List.map fst obj)) as [Hin|Hout].
  - split; [tauto|]. intros [H| ->]; assumption.
  - rewrite List.in_app_iff. simpl. intuition congruence.
Qed.

Lemma bump_keys_NoDup (k : string) (v : JsVal) (obj : list (string * JsVal)) :
  List.NoDup (List.map fst obj) -> List.NoDup (List.map fst (bump k v obj)).
Proof.
  intros H. rewrite bump_keys.
  destruct (in_dec string_dec k (List.map fst obj)) as [Hin|Hout]; [exact H|].
  destruct (String.eqb k "__proto__"); [exact H|].
  apply List.NoDup_app; [exact H | repeat constructor; intros [] |].
  intros x Hx [<-|[]]. contradiction.
Qed.

(** What the loop of getSummary has accumulated after the records [l],
    started from any accumulator. *)
Lemma summarize_counts (l : list Txn) :
  let sm := TransactionService.summarize l in
  transactionCount sm = List.length l
  /\ expenseCount sm = List.length (List.filter is_expense l)
  /\ incomeCount sm = List.length (List.filter (fun t => negb (is_expense t)) l)
  /\ balance sm = js_sub (totalIncome sm) (totalExpenses sm)
  /\ ((forall t, In t l -> is_expense t = true) ->
      totalIncome sm = VNum 0 /\ bySource sm = [])
  /\ ((forall t, In t l -> is_expense t = false) ->
      totalExpenses sm = VNum 0 /\ byCategory sm = [])
  /\ List.NoDup (List.map fst (byCategory sm))
  /\ List.NoDup (List.map fst (bySource sm))
  /\ ((forall t, In t l -> is_expense t = true -> category_key t <> "__proto__") ->
      forall c, In c (List.map fst (byCategory sm)) <->
                exists t, In t l /\ is_expense t = true /\ category_key t = c)
  /\ ((forall t, In t l -> is_expense t = false -> source_key t <> "__proto__") ->
      forall c, In c (List.map fst (bySource sm)) <->
                exists t, In t l /\ is_expense t = false /\ source_key t = c).
Proof.
  unfold TransactionService.summarize. cbv zeta.
  set (step := fun (acc : Summary) (t : Txn) => if String.eqb (type t) "expense" then _ else _).
  assert (Se : forall acc t, is_expense t = true ->
    step acc t
    = {| totalIncome := totalIncome acc;
         totalExpenses := js_add (totalExpenses acc) (amount t);
         balance := balance acc;
         byCategory := bump (category_key t) (amount t) (byCategory acc);
         bySource := bySource acc;
         transactionCount := transactionCount acc;
         expenseCount := Datatypes.S (expenseCount acc);
         incomeCount := incomeCount acc |}).
  { intros acc t E. unfold step, is_expense in *. rewrite E. reflexivity. }
  assert (Si : forall acc t, is_expense t = false ->
    step acc t
    = {| totalIncome := js_add (totalIncome acc) (amount t);
         totalExpenses := totalExpenses acc;
         balance := balance acc;
         byCategory := byCategory acc;
         bySource := bump (source_key t) (amount t) (bySource acc);
         transactionCount := transactionCount acc;
         expenseCount := expenseCount acc;
         incomeCount := Datatypes.S (incomeCount acc) |}).
  { intros acc t E. unfold step, is_expense in *. rewrite E. reflexivity. }
  clearbody step.
  assert (G : forall l acc,
    let r := List.fold_left step l acc in
    transactionCount r = transactionCount acc
    /\ expenseCount r = (expenseCount acc + List.length (List.filter is_expense l))%nat
    /\ incomeCount r
       = (incomeCount acc + List.length (List.filter (fun t => negb (is_expense t)) l))%nat
    /\ ((forall t, In t l -> is_expense t = true) ->
        totalIncome r = totalIncome acc /\ bySource r = bySource acc)
    /\ ((forall t, In t l -> is_expense t = false) ->
        totalExpenses r = totalExpenses acc /\ byCategory r = byCategory acc)
    /\ (List.NoDup (List.map fst (byCategory acc)) ->
        List.NoDup (List.map fst (byCategory r)))
    /\ (List.NoDup (List.map fst (bySource acc)) ->
        List.NoDup (List.map fst (bySource r)))
    /\ ((forall t, In t l -> is_expense t = true -> category_key t <> "__proto__") ->
        forall c, In c (List.map fst (byCategory r)) <->
                  In c (List.map fst (byCategory acc))
                  \/ exists t, In t l /\ is_expense t = true /\ category_key t = c)
    /\ ((forall t, In t l -> is_expense t = false -> source_key t <> "__proto__") ->
        forall c, In c (List.map fst (bySource r)) <->
                  In c (List.map fst (bySource acc))
                  \/ exists t, In t l /\ is_expense t = false /\ source_key t = c)).
  { clear l. intros l. induction l as [|t l IH]; intros acc; cbn [List.fold_left].
    - cbv zeta. simpl. repeat split; try lia; try tauto.
      + intros [H0|(t & [] & _)]; exact H0.
      + intros [H0|(t & [] & _)]; exact H0.
    - specialize (IH (step acc t)). cbv zeta in IH |- *.
      destruct IH as (I1 & I2 & I3 & I4 & I5 & I6 & I7 & I8 & I9).
      cbn [List.filter]. destruct (is_expense t) eqn:E; cbn [negb].
      + rewrite (Se acc t E) in I1, I2, I3, I4, I5, I6, I7, I8, I9 |- *.
        cbn [transactionCount expenseCount incomeCount totalIncome totalExpenses
             byCategory bySource] in I1, I2, I3, I4, I5, I6, I7, I8, I9.
        split; [exact I1|]. split; [rewrite I2; simpl; lia|]. split; [exact I3|].
        split; [intros H; apply I4; intros x Hx; apply H; right; exact Hx|].
        split; [intros H; specialize (H t (or_introl eq_refl)); congruence|].
        split; [intros H; apply I6, bump_keys_NoDup; exact H|].
        split; [exact I7|]. split.
        * intros Hp c.
          rewrite (I8 (fun x Hx => Hp x (or_intror Hx))),
            bump_keys_In by (apply Hp; [left; reflexivity | exact E]).
          split.
          -- intros [[H|H]|(x & Hx & Hr)]; [left; exact H | right | right].
             ++ exists t. split; [left; reflexivity|]. split; [exact E | congruence].
             ++ exists x. split; [right; exact Hx | exact Hr].
          -- intros [H|(x & [<-|Hx] & He & Hk)];
               [left; left; exact H | left; right; congruence | right; eauto].
        * intros Hp c. rewrite (I9 (fun x Hx => Hp x (or_intror Hx))). split.
          -- intros [H|(x & Hx & Hr)]; [left; exact H | right].
             exists x. split; [right; exact Hx | exact Hr].
          -- intros [H|(x & [<-|Hx] & He & Hk)]; [left; exact H | congruence | right; eauto].
      + rewrite (Si acc t E) in I1, I2, I3, I4, I5, I6, I7, I8, I9 |- *.
        cbn [transactionCount expenseCount incomeCount totalIncome totalExpenses
             byCategory bySource] in I1, I2, I3, I4, I5, I6, I7, I8, I9.
        split; [exact I1|]. split; [exact I2|]. split; [rewrite I3; simpl; lia|].
        split; [intros H; specialize (H t (or_introl eq_refl)); congruence|].
        split; [intros H; apply I5; intros x Hx; apply H; right; exact Hx|].
        split; [exact I6|].
        split; [intros H; apply I7, bump_keys_NoDup; exact H|]. split.
        * intros Hp c. rewrite (I8 (fun x Hx => Hp x (or_intror Hx))). split.
          -- intros [H|(x & Hx & Hr)]; [left; exact H | right].
             exists x. split; [right; exact Hx | exact Hr].
          -- intros [H|(x & [<-|Hx] & He & Hk)]; [left; exact H | congruence | right; eauto].
        * intros Hp c.
          rewrite (I9 (fun x Hx => Hp x (or_intror Hx))),
            bump_keys_In by (apply Hp; [left; reflexivity | exact E]).
          split.
          -- intros [[H|H]|(x & Hx & Hr)]; [left; exact H | right | right].
             ++ exists t. split; [left; reflexivity|]. split; [exact E | congruence].
             ++ exists x. split; [right; exact Hx | exact Hr].
          -- intros [H|(x & [<-|Hx] & He & Hk)];
               [left; left; exact H | left; right; congruence | right; eauto]. }
  specialize (G l {| totalIncome := VNum 0; totalExpenses := VNum 0; balance := VNum 0;
                     byCategory := []; bySource := [];
                     transactionCount := List.length l;
                     expenseCount := 0; incomeCount := 0 |}).
  cbv zeta in G.
  cbn [transactionCount expenseCount incomeCount totalIncome totalExpenses
       byCategory bySource List.map] in G.
  destruct G as (G1 & G2 & G3 & G4 & G5 & G6 & G7 & G8 & G9).
  cbn [transactionCount expenseCount incomeCount totalIncome totalExpenses balance
       byCategory bySource].
  split; [exact G1|]. split; [exact G2|]. split; [exact G3|]. split; [reflexivity|].
  split; [exact G4|]. split; [exact G5|].
  split; [apply G6; constructor|]. split; [apply G7; constructor|].
  split.
  - intros Hp c. rewrite (G8 Hp). simpl. tauto.
  - intros Hp c. rewrite (G9 Hp). simpl. tauto.
Qed.
End SummaryFacts.

Section SummaryOfQueries.
Context {RT : Runtime} {AR : Arith} {S : Type} {ST : Storage S}.

Lemma getTransactions_returns (f : Filters) (s s' : S) (l : list Txn) :
  TransactionService.getTransactions f s = (Return l, s') ->
  exists es inc, l = TransactionService.select f es inc.
Proof.
  unfold TransactionService.getTransactions, bind, ret.
  destruct (st_getExpenses s) as [[es|e] s1]; [|discriminate].
  destruct (st_getIncome s1) as [[inc|e] s2]; [|discriminate].
  intros H. inversion H. eauto.
Qed.

Lemma select_types (f : Filters) (es inc : list Txn) (t : Txn) :
  In t (TransactionService.select f es inc) ->
  (type t = "expense" \/ type t = "income")
  /\ TransactionService.type_filter f t = true.
Proof.
  rewrite select_as_one_filter. intros H.
  apply (proj1 (Array_sort_In _ _ _)) in H.
  apply List.filter_In in H as [Hin Hp]. apply passes_spec in Hp as [Hty _].
  split; [|exact Hty]. unfold tagged in Hin.
  apply List.in_app_iff in Hin as [Hin|Hin];
    apply List.in_map_iff in Hin as (x & <- & _); [left | right]; reflexivity.
Qed.

Lemma getSummary_returns (f : Filters) (s s' : S) (l : list Txn) :
  TransactionService.getTransactions f s = (Return l, s') ->
  TransactionService.getSummary f s = (Return (TransactionService.summarize l), s').
Proof.
  intros H. unfold TransactionService.getSummary.
  erewrite bind_return by exact H. reflexivity.
Qed.
End SummaryOfQueries.

(** X14.  getSummary counts what getTransactions returns.  Every record is
    counted once, as an expense or as an income: the two counts are the
    numbers of records of each type and add up to [transactionCount], and
    the balance is the income total minus the expense total.  Under the
    filter [type: 'expense'] nothing is counted as income (no income, a
    total of 0, no source group), and under [type: 'income'] nothing as an
    expense. *)
Theorem getSummary_counts_every_record
    {RT : Runtime} {AR : Arith} {S : Type} {ST : Storage S}
    (f : Filters) (s s' : S) (l : list Txn) :
  TransactionService.getTransactions f s = (Return l, s') ->
  exists sm,
    TransactionService.getSummary f s = (Return sm, s')
    /\ transactionCount sm = List.length l
    /\ expenseCount sm = List.length (List.filter is_expense l)
    /\ incomeCount sm = List.length (List.filter is_income l)
    /\ (expenseCount sm + incomeCount sm)%nat = transactionCount sm
    /\ balance sm = js_sub (totalIncome sm) (totalExpenses sm)
    /\ (f_type f = VStr "expense" ->
        incomeCount sm = 0%nat /\ totalIncome sm = VNum 0 /\ bySource sm = [])
    /\ (f_type f = VStr "income" ->
        expenseCount sm = 0%nat /\ totalExpenses sm = VNum 0 /\ byCategory sm = []).
Proof.
  intros H. exists (TransactionService.summarize l).
  split; [apply getSummary_returns; exact H|].
  destruct (getTransactions_returns f s s' l H) as (es & inc & ->).
  set (l := TransactionService.select f es inc).
  destruct (summarize_counts l) as (C1 & C2 & C3 & C4 & C5 & C6 & _).
  assert (Hinc : List.filter (fun t => negb (is_expense t)) l = List.filter is_income l).
  { apply List.filter_ext_in. intros t Ht.
    destruct (select_types f es inc t Ht) as [[E|E] _];
      unfold is_expense, is_income; rewrite E; reflexivity. }
  rewrite Hinc in C3.
  assert (Hsum : (List.length (List.filter is_expense l)
                  + List.length (List.filter is_income l))%nat = List.length l).
  { rewrite <- Hinc. clear. induction l as [|t l IH]; simpl; [reflexivity|].
    destruct (is_expense t); simpl; lia. }
  split; [exact C1|]. split; [exact C2|]. split; [exact C3|].
  split; [rewrite C1, C2, C3; exact Hsum|]. split; [exact C4|]. split.
  - intros Hf.
    assert (Hall : forall t, In t l -> is_expense t = true).
    { intros t Ht. destruct (select_types f es inc t Ht) as [_ Hty].
      apply type_filter_spec in Hty as [Hty _]. unfold is_expense.
      rewrite (Hty Hf). reflexivity. }
    destruct (C5 Hall) as [T B]. split; [|split; assumption].
    rewrite C3, <- Hinc, filter_none; [reflexivity|].
    intros t Ht. rewrite (Hall t Ht). reflexivity.
  - intros Hf.
    assert (Hall : forall t, In t l -> is_expense t = false).
    { intros t Ht. destruct (select_types f es inc t Ht) as [_ Hty].
      apply type_filter_spec in Hty as [_ Hty]. unfold is_expense.
      rewrite (Hty Hf). reflexivity. }
    destruct (C6 Hall) as [T B]. split; [|split; assumption].
    rewrite C2, filter_none; [reflexivity | exact Hall].
Qed.

(** The ledger has four expenses and one income. *)
Lemma getSummary_counts_every_record_witness :
  exists sm,
    TransactionService.getSummary (RT := Reference.utc) (AR := Reference.numbers)
      (ST := Reference.memory) no_filters ledger = (Return sm, ledger)
    /\ transactionCount sm = 5%nat
    /\ expenseCount sm = 4%nat
    /\ incomeCount sm = 1%nat.
Proof.
  destruct (getSummary_counts_every_record (RT := Reference.utc)
              (AR := Reference.numbers) (ST := Reference.memory) no_filters
              ledger ledger [dinner; salary; bus; lunch; groceries])
    as (sm & Hrun & Hn & He & Hi & _).
  - vm_compute. reflexivity.
  - exists sm. split; [exact Hrun|]. split; [exact Hn|]. split; [exact He | exact Hi].
Defined.

(** X15.  getSummary groups the expenses by category and the income by source.
    [byCategory] has one entry for each key under which an expense of the
    result falls, and no other; [bySource] likewise for the income.  The
    key of a record is its category (its source), and "Other" when that is
    missing, null or empty.  The key ["__proto__"] is left aside: on a
    plain object an assignment to it does not create an entry. *)
Theorem getSummary_groups_by_key
    {RT : Runtime} {AR : Arith} {S : Type} {ST : Storage S}
    (f : Filters) (s s' : S) (l : list Txn) :
  TransactionService.getTransactions f s = (Return l, s') ->
  (forall t, In t l -> category_key t <> "__proto__" /\ source_key t <> "__proto__") ->
  exists sm,
    TransactionService.getSummary f s = (Return sm, s')
    /\ List.NoDup (List.map fst (byCategory sm))
    /\ List.NoDup (List.map fst (bySource sm))
    /\ (forall c, In c (List.map fst (byCategory sm)) <->
                  exists t, In t l /\ type t = "expense" /\ category_key t = c)
    /\ (forall c, In c (List.map fst (bySource sm)) <->
                  exists t, In t l /\ type t = "income" /\ source_key t = c)
    /\ (forall t, truthy (category t) = false ->
                  category_key t = toPropertyKey (VStr "Other"))
    /\ (forall t, truthy (source t) = false ->
                  source_key t = toPropertyKey (VStr "Other")).
Proof.
  intros H Hp. exists (TransactionService.summarize l).
  split; [apply getSummary_returns; exact H|].
  destruct (getTransactions_returns f s s' l H) as (es & inc & ->).
  set (l := TransactionService.select f es inc) in *.
  destruct (summarize_counts l) as (_ & _ & _ & _ & _ & _ & N1 & N2 & K1 & K2).
  specialize (K1 (fun t Ht _ => proj1 (Hp t Ht))).
  specialize (K2 (fun t Ht _ => proj2 (Hp t Ht))).
  split; [exact N1|]. split; [exact N2|]. split; [|split; [|split]].
  - intros c. rewrite K1. unfold is_expense.
    split; intros (t & Ht & E & Hk); exists t; (split; [exact Ht|]); split;
      try exact Hk; [apply String.eqb_eq; exact E | rewrite E; reflexivity].
  - intros c. rewrite K2. unfold is_expense.
    split; intros (t & Ht & E & Hk); exists t; (split; [exact Ht|]); split;
      try exact Hk.
    + destruct (select_types f es inc t Ht) as [[E'|E'] _]; [|exact E'].
      rewrite E' in E. discriminate.
    + rewrite E. reflexivity.
  - intros t Ht. unfold category_key, js_or. rewrite Ht. reflexivity.
  - intros t Ht. unfold source_key, js_or. rewrite Ht. reflexivity.
Qed.

(** The expenses of the ledger fall under Food and Transport, its income
    under Salary. *)
Lemma getSummary_groups_by_key_witness :
  exists sm,
    TransactionService.getSummary (RT := Reference.utc) (AR := Reference.numbers)
      (ST := Reference.memory) no_filters ledger = (Return sm, ledger)
    /\ List.NoDup (List.map fst (byCategory sm))
    /\ In "Transport" (List.map fst (byCategory sm)).
Proof.
  destruct (getSummary_groups_by_key (RT := Reference.utc)
              (AR := Reference.numbers) (ST := Reference.memory) no_filters
              ledger ledger [dinner; salary; bus; lunch; groceries])
    as (sm & Hrun & Hnd & _ & Hkeys & _).
  - vm_compute. reflexivity.
  - intros t Ht. simpl in Ht.
    destruct Ht as [<-|[<-|[<-|[<-|[<-|[]]]]]]; split; vm_compute; congruence.
  - exists sm. split; [exact Hrun|]. split; [exact Hnd|].
    apply Hkeys. exists bus. split; [simpl; tauto|]. split; reflexivity.
Defined.

(** ** Lookups of the Transaction Service *)

Lemma prefix_split (p str : string) :
  String.prefix p str = true -> exists rest, str = p +:+ rest.
Proof.
  revert str. induction p as [|a p IH]; intros str H.
  - exists str. reflexivity.
  - destruct str as [|b str]; [discriminate|]. simpl in H.
    destruct (ascii_dec a b) as [->|]; [|discriminate].
    destruct (IH str H) as [rest ->]. exists rest. reflexivity.
Qed.

(** X16.  Lookup by id goes through the expenses first.  When an expense has the
    id, getTransactionById returns the first such expense tagged as an
    expense without reading the income, and deleteTransaction and
    updateTransaction act as deleteExpense and updateExpense, whatever the
    income holds under that id.  When no expense has it and an income has,
    the first such income is returned tagged as an income, and the two
    operations act as deleteIncome and updateIncome.  getTransactionById
    returns null exactly when no stored record has the id. *)
Theorem lookup_by_id_prefers_expenses
    {RT : Runtime} {S : Type} {ST : Storage S}
    (env : Env) (ident : string) (u : Updates) (s s1 s2 : S) (es inc : list Txn) :
  st_getExpenses s = (Return es, s1) ->
  st_getIncome s1 = (Return inc, s2) ->
  (forall e, TransactionService.find_by_id ident es = Some e ->
     TransactionService.getTransactionById ident s
     = (Return (Some (with_type "expense" e)), s1)
     /\ TransactionService.deleteTransaction ident s
        = TransactionService.deleteExpense ident s1
     /\ TransactionService.updateTransaction env ident u s
        = TransactionService.updateExpense env ident u s1)
  /\ (TransactionService.find_by_id ident es = None ->
      forall i, TransactionService.find_by_id ident inc = Some i ->
      TransactionService.getTransactionById ident s
      = (Return (Some (with_type "income" i)), s2)
      /\ TransactionService.deleteTransaction ident s
         = TransactionService.deleteIncome ident s2
      /\ TransactionService.updateTransaction env ident u s
         = TransactionService.updateIncome env ident u s2)
  /\ (TransactionService.getTransactionById ident s = (Return None, s2)
      <-> forall t, In t (es ++ inc) -> id t <> ident)
  /\ (forall l t, TransactionService.find_by_id ident l = Some t ->
        id t = ident
        /\ exists before after,
             l = before ++ t :: after /\ forall y, In y before -> id y <> ident).
Proof.
  intros Hes Hinc.
  assert (Hget : TransactionService.getTransactionById ident s
                 = match TransactionService.find_by_id ident es with
                   | Some e => (Return (Some (with_type "expense" e)), s1)
                   | None =>
                       match TransactionService.find_by_id ident inc with
                       | Some i => (Return (Some (with_type "income" i)), s2)
                       | None => (Return None, s2)
                       end
                   end).
  { unfold TransactionService.getTransactionById, TransactionService.getExpenseById,
      TransactionService.getIncomeById.
    unfold bind at 1 2. rewrite Hes. unfold ret at 1.
    destruct (TransactionService.find_by_id ident es); [reflexivity|].
    unfold bind, ret. rewrite Hinc.
    destruct (TransactionService.find_by_id ident inc); reflexivity. }
  split; [|split; [|split]].
  - intros e He. rewrite He in Hget. split; [exact Hget|].
    unfold TransactionService.deleteTransaction, TransactionService.updateTransaction.
    rewrite !(bind_return _ _ _ _ _ Hget). cbn [type with_type].
    rewrite String.eqb_refl. split; reflexivity.
  - intros He i Hi. rewrite He, Hi in Hget. split; [exact Hget|].
    unfold TransactionService.deleteTransaction, TransactionService.updateTransaction.
    rewrite !(bind_return _ _ _ _ _ Hget). cbn [type with_type].
    split; reflexivity.
  - rewrite Hget. split.
    + intros H t Ht.
      destruct (TransactionService.find_by_id ident es) eqn:He; [discriminate|].
      destruct (TransactionService.find_by_id ident inc) eqn:Hi; [discriminate|].
      apply List.in_app_iff in Ht as [Ht|Ht].
      * exact (proj1 (find_by_id_none ident es) He t Ht).
      * exact (proj1 (find_by_id_none ident inc) Hi t Ht).
    + intros H.
      rewrite (proj2 (find_by_id_none ident es))
        by (intros x Hx; apply H, List.in_app_iff; left; exact Hx).
      rewrite (proj2 (find_by_id_none ident inc))
        by (intros x Hx; apply H, List.in_app_iff; right; exact Hx).
      reflexivity.
  - intros l t. apply find_by_id_split.
Qed.

(** The id of the lunch is also the id of an income: the expense is what
    the lookup returns. *)
Lemma lookup_by_id_prefers_expenses_witness :
  TransactionService.getTransactionById (ST := Reference.memory) (id lunch)
    (with_income [salary; refund] ledger)
  = (Return (Some lunch), with_income [salary; refund] ledger).
Proof.
  destruct (lookup_by_id_prefers_expenses (RT := Reference.utc)
              (ST := Reference.memory) june_10th (id lunch) no_updates
              (with_income [salary; refund] ledger) (with_income [salary; refund] ledger)
              (with_income [salary; refund] ledger)
              [groceries; bus; dinner; lunch] [salary; refund]
              eq_refl eq_refl) as [H _].
  destruct (H lunch eq_refl) as [Hget _]. exact Hget.
Defined.

(** X17.  findTransactionById searches by the beginning of the id.  It reads
    both lists and returns the first expense whose non-empty id starts
    with the text, tagged 'expense'; failing that, the first such income,
    tagged 'income'; and null exactly when no stored record with a
    non-empty id starts with the text.  The empty text is the beginning
    of every id. *)
Theorem findTransactionById_finds_first_prefix_match
    {S : Type} {ST : Storage S} (partialId : string) (s s1 s2 : S)
    (es inc : list Txn) :
  let matches := TransactionService.id_starts_with partialId in
  st_getExpenses s = (Return es, s1) ->
  st_getIncome s1 = (Return inc, s2) ->
  (forall before e after,
     es = before ++ e :: after -> matches e = true ->
     (forall y, In y before -> matches y = false) ->
     TransactionService.findTransactionById partialId s
     = (Return (Some ("expense", e)), s2))
  /\ ((forall y, In y es -> matches y = false) ->
      forall before i after,
        inc = before ++ i :: after -> matches i = true ->
        (forall y, In y before -> matches y = false) ->
        TransactionService.findTransactionById partialId s
        = (Return (Some ("income", i)), s2))
  /\ (TransactionService.findTransactionById partialId s = (Return None, s2)
      <-> forall t, In t (es ++ inc) -> matches t = false)
  /\ (forall t, matches t = true <->
                id t <> "" /\ exists rest, id t = partialId +:+ rest)
  /\ (forall t, TransactionService.id_starts_with "" t = true <-> id t <> "").
Proof.
  intros matches Hes Hinc.
  assert (Hrun : TransactionService.findTransactionById partialId s
                 = match List.find matches es with
                   | Some e => (Return (Some ("expense", e)), s2)
                   | None =>
                       match List.find matches inc with
                       | Some i => (Return (Some ("income", i)), s2)
                       | None => (Return None, s2)
                       end
                   end).
  { unfold TransactionService.findTransactionById, bind. rewrite Hes, Hinc.
    fold matches. destruct (List.find matches es); [reflexivity|].
    destruct (List.find matches inc); reflexivity. }
  assert (Hfirst : forall (l before after : list Txn) x,
            l = before ++ x :: after -> matches x = true ->
            (forall y, In y before -> matches y = false) ->
            List.find matches l = Some x).
  { intros l before after x -> Hx Hb. induction before as [|b before IH]; simpl.
    - rewrite Hx. reflexivity.
    - rewrite (Hb b) by (left; reflexivity). apply IH.
      intros y Hy. apply Hb. right. exact Hy. }
  assert (Hnone : forall l : list Txn,
            List.find matches l = None <-> forall y, In y l -> matches y = false).
  { intros l. split; [apply List.find_none|].
    induction l as [|y l IH]; intros H; simpl; [reflexivity|].
    rewrite (H y) by (left; reflexivity). apply IH.
    intros z Hz. apply H. right. exact Hz. }
  split; [|split; [|split; [|split]]].
  - intros before e after Hl He Hb.
    rewrite Hrun, (Hfirst es before after e Hl He Hb). reflexivity.
  - intros Hno before i after Hl Hi Hb.
    rewrite Hrun, (proj2 (Hnone es) Hno), (Hfirst inc before after i Hl Hi Hb).
    reflexivity.
  - rewrite Hrun. split.
    + intros H t Ht.
      destruct (List.find matches es) eqn:He; [discriminate|].
      destruct (List.find matches inc) eqn:Hi; [discriminate|].
      apply List.in_app_iff in Ht as [Ht|Ht];
        [exact (proj1 (Hnone es) He t Ht) | exact (proj1 (Hnone inc) Hi t Ht)].
    + intros H.
      rewrite (proj2 (Hnone es))
        by (intros y Hy; apply H, List.in_app_iff; left; exact Hy).
      rewrite (proj2 (Hnone inc))
        by (intros y Hy; apply H, List.in_app_iff; right; exact Hy).
      reflexivity.
  - intros t. unfold matches, TransactionService.id_starts_with.
    rewrite andb_true_iff, negb_true_iff, String.eqb_neq.
    split; intros [Hne Hp]; (split; [exact Hne|]).
    + apply prefix_split. exact Hp.
    + destruct Hp as [rest ->]. apply prefix_self_append.
  - intros t. unfold TransactionService.id_starts_with.
    rewrite andb_true_iff, negb_true_iff, String.eqb_neq.
    destruct (id t); simpl; tauto.
Qed.

(** The first characters of the id of the bus fare. *)
Lemma findTransactionById_finds_first_prefix_match_witness :
  TransactionService.findTransactionById (ST := Reference.memory) "77c0" ledger
  = (Return (Some ("expense", bus)), ledger).
Proof.
  destruct (findTransactionById_finds_first_prefix_match (ST := Reference.memory)
              "77c0" ledger ledger ledger (expenses ledger) (income ledger)
              eq_refl eq_refl) as [H _].
  apply (H [groceries] bus [dinner; lunch]).
  - reflexivity.
  - reflexivity.
  - intros y [<-|[]]. reflexivity.
Defined.

(** ** Updating an income *)

(** X18.  An update that names a source outside the fixed list of sources is
    rejected: the rebuilt income fails validation with one of the three
    messages about the source, updateIncome reports the messages of the
    validation as a failure, and the storage object is not asked to write. *)
Theorem updateIncome_rejects_unknown_source
    {RT : Runtime} {S : Type} {ST : Storage S}
    (env : Env) (ident : string) (u : Updates) (s s1 : S) (inc : list Txn) (x : Txn) :
  st_getIncome s = (Return inc, s1) ->
  TransactionService.find_by_id ident inc = Some x ->
  u_source u <> VUndefined ->
  (forall c, In c INCOME_SOURCES -> u_source u <> VStr c) ->
  exists m,
    In m source_messages
    /\ In m (errors (Income.validate (TransactionService.updatedIncome env x u)))
    /\ TransactionService.updateIncome env ident u s
       = (Return {| success := false;
                    message := join ", " (errors (Income.validate
                                 (TransactionService.updatedIncome env x u)));
                    payload := None |}, s1).
Proof.
  intros Hread Hfind Hgiven Hout.
  destruct (member_errors_outside "Source" "source" INCOME_SOURCES _ Hout)
    as (m & Hm & Hin).
  assert (Herr : In m (errors (Income.validate (TransactionService.updatedIncome env x u)))).
  { cbn [errors Income.validate mkValidation]. apply in_or_app. right.
    unfold Income.source_errors.
    replace (source (TransactionService.updatedIncome env x u)) with (u_source u).
    - rewrite Hm. simpl. tauto.
    - symmetry. apply (override_given _ (source x) Hgiven). }
  exists m. split; [exact Hin|]. split; [exact Herr|].
  apply (updateIncome_invalid env ident u s s1 inc x Hread Hfind).
  exact (mkValidation_invalid _ _ Herr).
Qed.

(** The source of the salary is changed to "Lottery". *)
Lemma updateIncome_rejects_unknown_source_witness :
  TransactionService.updateIncome (RT := Reference.utc) (ST := Reference.memory)
    june_10th (id salary) (new_source (VStr "Lottery")) ledger
  = (Return {| success := false;
               message := "Invalid source. Must be one of: Salary, Freelance, Investment, Gift, Business, Other";
               payload := None |}, ledger).
Proof.
  destruct (updateIncome_rejects_unknown_source (RT := Reference.utc)
              (ST := Reference.memory) june_10th (id salary)
              (new_source (VStr "Lottery")) ledger ledger [salary] salary)
    as (m & _ & _ & Hrun).
  - reflexivity.
  - reflexivity.
  - discriminate.
  - intros c Hc. simpl in Hc.
    destruct Hc as [<-|[<-|[<-|[<-|[<-|[<-|[]]]]]]]; discriminate.
  - rewrite Hrun. vm_compute. reflexivity.
Defined.

(** ** The cache of the Exchange Rate Service *)

Module RateFacts.
Import ExchangeRateService.

Lemma fresh_cache_hit (cache : Cache) (now : Z) (table : Rates) :
  getCachedRates cache now "USD" = Some table -> rates cache = Some table.
Proof.
  unfold getCachedRates. destruct (rates cache) as [r|]; [|discriminate].
  destruct (timestamp cache) as [ts|]; [|discriminate].
  destruct (_ || _); [discriminate|]. destruct (_ <? _); [discriminate|].
  intros H. exact H.
Qed.

Lemma cached_after_fetch (cache : Cache) (table : Rates) (fetched_at now : Z) :
  fetched_at <> 0 ->
  getCachedRates (snd (fetchRates cache fetched_at (FetchBody (Some table)))) now "USD"
  = if CACHE_DURATION <? now - fetched_at then None else Some table.
Proof.
  intros H. unfold getCachedRates, fetchRates. cbn [snd rates timestamp baseCurrency].
  apply Z.eqb_neq in H. rewrite H. cbn [orb].
  rewrite bool_decide_eq_true_2 by reflexivity. reflexivity.
Qed.
End RateFacts.

(** X19.  The network is asked at most once in 24 hours.  After a fetch that
    brought a table, at a time other than the epoch, getRates serves that
    table from the cache, without a request and without touching the
    cache, as long as no more than 24 hours have passed.  Later it asks
    again: a table that arrives replaces the cache; when the request fails
    the static table is served, not the expired one, and the cache keeps
    the expired table; when the answer has no table the static table is
    served and the cache is left without a table. *)
Theorem getRates_asks_the_network_once_a_day
    (cache : ExchangeRateService.Cache) (table : Rates) (fetched_at now : Z) :
  let cached :=
    snd (ExchangeRateService.fetchRates cache fetched_at (ExchangeRateService.FetchBody (Some table))) in
  fetched_at <> 0 ->
  (now - fetched_at <= ExchangeRateService.CACHE_DURATION ->
   forall net, ExchangeRateService.getRates cached now net = (table, cached))
  /\ (ExchangeRateService.CACHE_DURATION < now - fetched_at ->
      ExchangeRateService.getRates cached now ExchangeRateService.FetchFailed
      = (ExchangeRateService.STATIC_USD, cached)
      /\ (forall fresh,
            ExchangeRateService.getRates cached now (ExchangeRateService.FetchBody (Some fresh))
            = (fresh, {| ExchangeRateService.rates := Some fresh;
                         ExchangeRateService.baseCurrency := Some "USD";
                         ExchangeRateService.timestamp := Some now |}))
      /\ ExchangeRateService.getRates cached now (ExchangeRateService.FetchBody None)
         = (ExchangeRateService.STATIC_USD,
            {| ExchangeRateService.rates := None;
               ExchangeRateService.baseCurrency := Some "USD";
               ExchangeRateService.timestamp := Some now |})).
Proof.
  intros cached Hne. subst cached. split.
  - intros Hage net. unfold ExchangeRateService.getRates.
    rewrite RateFacts.cached_after_fetch by exact Hne.
    apply Z.ltb_ge in Hage. rewrite Hage. reflexivity.
  - intros Hage. apply Z.ltb_lt in Hage.
    unfold ExchangeRateService.getRates.
    rewrite RateFacts.cached_after_fetch by exact Hne. rewrite Hage.
    repeat split; reflexivity.
Qed.

(** A table fetched on 10 June 2024 at 10:00 is served twelve hours later. *)
Lemma getRates_asks_the_network_once_a_day_witness :
  ExchangeRateService.getRates
    {| ExchangeRateService.rates := Some fetched_table;
       ExchangeRateService.baseCurrency := Some "USD";
       ExchangeRateService.timestamp := Some 1718013600000 |}
    (1718013600000 + 12 * 3600000) ExchangeRateService.FetchFailed
  = (fetched_table,
     {| ExchangeRateService.rates := Some fetched_table;
        ExchangeRateService.baseCurrency := Some "USD";
        ExchangeRateService.timestamp := Some 1718013600000 |}).
Proof.
  destruct (getRates_asks_the_network_once_a_day ExchangeRateService.emptyCache
              fetched_table 1718013600000 (1718013600000 + 12 * 3600000))
    as [H _].
  - discriminate.
  - apply H. vm_compute. discriminate.
Defined.

(** X20.  convert and convertStatic agree whenever they consult the same table.
    When the two mapped codes are equal, convert returns the amount
    without a request and without touching the cache.  While the cache is
    fresh, convert returns what convertStatic returns.  After a request
    that brought a table, convertStatic on the new cache returns what
    convert returned.  With an empty cache and the network down, both use
    the static table. *)
Theorem convert_agrees_with_convertStatic
    (cache : ExchangeRateService.Cache) (now : Z) (net : ExchangeRateService.Fetched) (amt : float)
    (fromCurrency toCurrency : string) :
  let result :=
    ExchangeRateService.convert cache now net amt fromCurrency toCurrency in
  (ExchangeRateService.getCodeFromSymbol fromCurrency
   = ExchangeRateService.getCodeFromSymbol toCurrency ->
   result = (amt, cache))
  /\ ((exists table, ExchangeRateService.getCachedRates cache now "USD" = Some table) ->
      result
      = (ExchangeRateService.convertStatic cache amt fromCurrency toCurrency, cache))
  /\ ((exists table, net = ExchangeRateService.FetchBody (Some table)) ->
      fst result
      = ExchangeRateService.convertStatic (snd result) amt fromCurrency toCurrency)
  /\ (ExchangeRateService.rates cache = None -> net = ExchangeRateService.FetchFailed ->
      result
      = (ExchangeRateService.convertStatic cache amt fromCurrency toCurrency, cache)).
Proof.
  cbv zeta. unfold ExchangeRateService.convert, ExchangeRateService.convertStatic.
  cbv zeta.
  destruct (ExchangeRateService.same_code
              (ExchangeRateService.getCodeFromSymbol fromCurrency)
              (ExchangeRateService.getCodeFromSymbol toCurrency)) eqn:E.
  - repeat split; intros; reflexivity.
  - split.
    { intros H. apply ConversionFacts.same_code_eq in H. congruence. }
    unfold ExchangeRateService.getRates.
    destruct (ExchangeRateService.getCachedRates cache now "USD") as [cached|] eqn:C.
    + rewrite (RateFacts.fresh_cache_hit _ _ _ C). cbn [default fst snd].
      rewrite (RateFacts.fresh_cache_hit _ _ _ C). cbn [default].
      repeat split; intros; reflexivity.
    + split; [intros [table Ht]; discriminate|]. split.
      * intros [table ->]. reflexivity.
      * intros Hr ->. cbn [ExchangeRateService.fetchRates]. rewrite Hr. reflexivity.
Qed.

(** A hundred dollars in euros, from a table fetched twelve hours before. *)
Lemma convert_agrees_with_convertStatic_witness :
  ExchangeRateService.convert
    {| ExchangeRateService.rates := Some fetched_table;
       ExchangeRateService.baseCurrency := Some "USD";
       ExchangeRateService.timestamp := Some 1718013600000 |}
    (1718013600000 + 12 * 3600000) ExchangeRateService.FetchFailed 100 "$" "€"
  = ((100 / 1 * 0.9)%float,
     {| ExchangeRateService.rates := Some fetched_table;
        ExchangeRateService.baseCurrency := Some "USD";
        ExchangeRateService.timestamp := Some 1718013600000 |}).
Proof.
  destruct (convert_agrees_with_convertStatic
              {| ExchangeRateService.rates := Some fetched_table;
                 ExchangeRateService.baseCurrency := Some "USD";
                 ExchangeRateService.timestamp := Some 1718013600000 |}
              (1718013600000 + 12 * 3600000) ExchangeRateService.FetchFailed
              100 "$" "€") as (_ & H & _).
  rewrite H.
  - vm_compute. reflexivity.
  - exists fetched_table. vm_compute. reflexivity.
Defined.

(** X21.  The static table has a usable rate for every currency the application
    offers, by symbol and by code: offline, a conversion between two
    offered currencies with different codes is always the cross rate of
    the static table and never falls back to the amount unconverted. *)
Theorem static_rates_cover_offered_currencies
    (amt : float) (fromCurrency toCurrency : string) :
  In fromCurrency offered_currencies -> In toCurrency offered_currencies ->
  let fromCode := ExchangeRateService.getCodeFromSymbol fromCurrency in
  let toCode := ExchangeRateService.getCodeFromSymbol toCurrency in
  exists cf ct rf rt,
    fromCode = ExchangeRateService.CodeStr cf
    /\ toCode = ExchangeRateService.CodeStr ct
    /\ ExchangeRateService.STATIC_USD !! cf = Some rf
    /\ ExchangeRateService.STATIC_USD !! ct = Some rt
    /\ ExchangeRateService.no_rate (Own rf) = false
    /\ ExchangeRateService.no_rate (Own rt) = false
    /\ (fromCode <> toCode ->
        ExchangeRateService.convertStatic ExchangeRateService.emptyCache amt
          fromCurrency toCurrency
        = (amt / rf * rt)%float).
Proof.
  intros Hf Ht fromCode toCode.
  assert (Hcover : forall c, In c offered_currencies ->
            exists code r,
              ExchangeRateService.getCodeFromSymbol c = ExchangeRateService.CodeStr code
              /\ ExchangeRateService.STATIC_USD !! code = Some r
              /\ ExchangeRateService.no_rate (Own r) = false).
  { intros c Hc. unfold offered_currencies in Hc. simpl in Hc.
    repeat (destruct Hc as [<-|Hc];
            [eexists; eexists; split; [|split]; vm_compute; reflexivity|]).
    destruct Hc. }
  destruct (Hcover _ Hf) as (cf & rf & Hcf & Hrf & Hnf).
  destruct (Hcover _ Ht) as (ct & rt & Hct & Hrt & Hnt).
  exists cf, ct, rf, rt. fold fromCode in Hcf. fold toCode in Hct.
  split; [exact Hcf|]. split; [exact Hct|].
  split; [exact Hrf|]. split; [exact Hrt|]. split; [exact Hnf|]. split; [exact Hnt|].
  intros Hne. unfold ExchangeRateService.convertStatic. cbv zeta.
  fold fromCode. fold toCode. apply ConversionFacts.same_code_neq in Hne. rewrite Hne.
  cbn [default ExchangeRateService.rates ExchangeRateService.emptyCache].
  rewrite Hcf, Hct. apply ConversionFacts.cross_rate; assumption.
Qed.

(** Rupees to pounds, offline. *)
Lemma static_rates_cover_offered_currencies_witness :
  ExchangeRateService.convertStatic ExchangeRateService.emptyCache 1000 "₹" "GBP"
  = (1000 / 83 * 0.79)%float.
Proof.
  destruct (static_rates_cover_offered_currencies 1000 "₹" "GBP")
    as (cf & ct & rf & rt & Hcf & Hct & Hrf & Hrt & _ & _ & H).
  - vm_compute. tauto.
  - vm_compute. tauto.
  - vm_compute in Hcf, Hct. inversion Hcf. inversion Hct. subst cf ct.
    vm_compute in Hrf, Hrt. inversion Hrf. inversion Hrt. subst rf rt.
    apply H. vm_compute. discriminate.
Defined.

(** ** The validators of the console front end *)

Section ValidatorFacts.
Context {SO : StringOps}.

Lemma find_ignoring_case_found (allowed : list string) (normalized c : string) :
  Validators.find_ignoring_case allowed normalized = Some c ->
  In c allowed /\ toLowerCase c = toLowerCase normalized.
Proof.
  unfold Validators.find_ignoring_case. intros H.
  apply List.find_some in H as [Hin Heq]. apply String.eqb_eq in Heq. tauto.
Qed.

Lemma find_ignoring_case_finds (allowed : list string) (normalized c : string) :
  In c allowed -> toLowerCase c = toLowerCase normalized ->
  exists c', Validators.find_ignoring_case allowed normalized = Some c'.
Proof.
  unfold Validators.find_ignoring_case. intros Hin Heq.
  destruct (List.find _ allowed) as [c'|] eqn:E; [eauto|].
  pose proof (List.find_none _ _ E c Hin) as Hn. simpl in Hn.
  apply String.eqb_neq in Hn. contradiction.
Qed.

Lemma member_errors_inside (what what_lc : string) (allowed : list string) (c : string) :
  In c allowed -> c <> "" -> member_errors what what_lc allowed (VStr c) = [].
Proof.
  intros Hin Hne. unfold member_errors. cbn [truthy].
  apply String.eqb_neq in Hne. rewrite Hne. cbn [negb].
  assert (Hinc : includes allowed c = true).
  { unfold includes. apply existsb_exists. exists c. split; [exact Hin|].
    apply String.eqb_refl. }
  rewrite Hinc. reflexivity.
Qed.
End ValidatorFacts.

(** X22.  What validateCategory and validateSource accept is what the model
    accepts.  A valid result carries a member of the fixed list, in the
    spelling of the list, that equals the trimmed input up to case; the
    category check of Expense.validate (the source check of
    Income.validate) has nothing to say about it.  An input that is not
    empty once trimmed and equals a member of the list up to case is
    valid.  An invalid result carries no value and an error message. *)
Theorem validated_names_pass_model_validation {SO : StringOps} (input : string) :
  (c_isValid (Validators.validateCategory input) = true ->
   exists c,
     Validators.validateCategory input = Validators.accepted c
     /\ In c EXPENSE_CATEGORIES
     /\ toLowerCase c = toLowerCase (trim input)
     /\ Expense.category_errors (VStr c) = [])
  /\ (c_isValid (Validators.validateSource input) = true ->
      exists c,
        Validators.validateSource input = Validators.accepted c
        /\ In c INCOME_SOURCES
        /\ toLowerCase c = toLowerCase (trim input)
        /\ Income.source_errors (VStr c) = [])
  /\ (input <> "" -> trim input <> "" ->
      ((exists c, In c EXPENSE_CATEGORIES /\ toLowerCase c = toLowerCase (trim input)) ->
       c_isValid (Validators.validateCategory input) = true)
      /\ ((exists c, In c INCOME_SOURCES /\ toLowerCase c = toLowerCase (trim input)) ->
          c_isValid (Validators.validateSource input) = true))
  /\ (c_isValid (Validators.validateCategory input) = false ->
      c_value (Validators.validateCategory input) = None
      /\ c_error (Validators.validateCategory input) <> None)
  /\ (c_isValid (Validators.validateSource input) = false ->
      c_value (Validators.validateSource input) = None
      /\ c_error (Validators.validateSource input) <> None).
Proof.
  assert (Hcat : forall c, In c EXPENSE_CATEGORIES -> c <> "").
  { intros c Hc. simpl in Hc.
    repeat (destruct Hc as [<-|Hc]; [discriminate|]). destruct Hc. }
  assert (Hsrc : forall c, In c INCOME_SOURCES -> c <> "").
  { intros c Hc. simpl in Hc.
    repeat (destruct Hc as [<-|Hc]; [discriminate|]). destruct Hc. }
  unfold Validators.validateCategory, Validators.validateSource. cbv zeta.
  split; [|split; [|split; [|split]]].
  - destruct (Validators.is_empty_input input); [discriminate|].
    destruct (Validators.find_ignoring_case EXPENSE_CATEGORIES (trim input)) as [c|] eqn:E;
      [|discriminate].
    destruct (find_ignoring_case_found _ _ _ E) as [Hin Heq].
    pose proof (Hcat c Hin) as Hne. apply String.eqb_neq in Hne. rewrite Hne.
    intros _. exists c. split; [reflexivity|]. split; [exact Hin|]. split; [exact Heq|].
    apply member_errors_inside; [exact Hin | apply Hcat; exact Hin].
  - destruct (Validators.is_empty_input input); [discriminate|].
    destruct (Validators.find_ignoring_case INCOME_SOURCES (trim input)) as [c|] eqn:E;
      [|discriminate].
    destruct (find_ignoring_case_found _ _ _ E) as [Hin Heq].
    pose proof (Hsrc c Hin) as Hne. apply String.eqb_neq in Hne. rewrite Hne.
    intros _. exists c. split; [reflexivity|]. split; [exact Hin|]. split; [exact Heq|].
    apply member_errors_inside; [exact Hin | apply Hsrc; exact Hin].
  - intros H1 H2. unfold Validators.is_empty_input.
    apply String.eqb_neq in H1, H2. rewrite H1, H2. cbn [orb].
    split; intros (c & Hin & Heq);
      destruct (find_ignoring_case_finds _ _ _ Hin Heq) as [c' E]; rewrite E;
      destruct (find_ignoring_case_found _ _ _ E) as [Hin' _].
    + pose proof (Hcat c' Hin') as Hne. apply String.eqb_neq in Hne. rewrite Hne.
      reflexivity.
    + pose proof (Hsrc c' Hin') as Hne. apply String.eqb_neq in Hne. rewrite Hne.
      reflexivity.
  - destruct (Validators.is_empty_input input); [split; [reflexivity | discriminate]|].
    destruct (Validators.find_ignoring_case EXPENSE_CATEGORIES (trim input)) as [c|];
      [|split; [reflexivity | discriminate]].
    destruct (String.eqb c ""); [split; [reflexivity | discriminate] | discriminate].
  - destruct (Validators.is_empty_input input); [split; [reflexivity | discriminate]|].
    destruct (Validators.find_ignoring_case INCOME_SOURCES (trim input)) as [c|];
      [|split; [reflexivity | discriminate]].
    destruct (String.eqb c ""); [split; [reflexivity | discriminate] | discriminate].
Qed.

(** The category typed in lower case with blanks around it. *)
Lemma validated_names_pass_model_validation_witness :
  Validators.validateCategory (SO := Reference.ascii_ops) "  food " 
  = Validators.accepted "Food"
  /\ Expense.category_errors (VStr "Food") = [].
Proof.
  destruct (validated_names_pass_model_validation (SO := Reference.ascii_ops) "  food ")
    as [H _].
  destruct H as (c & Hrun & _ & _ & Herr); [reflexivity|].
  assert (Hc : c = "Food").
  { vm_compute in Hrun. inversion Hrun. reflexivity. }
  subst c. split; [exact Hrun | exact Herr].
Defined.

(** X23.  validateDescription and the model agree on the limit of 500.  The
    value is always the trimmed input; the result is valid exactly when
    the [length] of the trimmed input, counted in UTF-16 code units, is at
    most 500, and then the two description checks of Transaction.validate
    have nothing to say about it; otherwise the error is the message the
    model has for a description that is too long. *)
Theorem validateDescription_agrees_with_model {SO : StringOps} (input : string) :
  let r := Validators.validateDescription input in
  c_value r = Some (trim input)
  /\ (c_isValid r = true <-> (js_length (trim input) <= 500)%nat)
  /\ (c_isValid r = true ->
      c_error r = None
      /\ Transaction.description_type_errors (VStr (trim input)) = []
      /\ Transaction.description_length_errors (VStr (trim input)) = [])
  /\ (c_isValid r = false ->
      c_error r = Some "Description is too long (max 500 characters)"
      /\ Transaction.description_length_errors (VStr (trim input))
         = ["Description is too long (max 500 characters)"]).
Proof.
  cbv zeta. unfold Validators.validateDescription. cbv zeta.
  unfold Transaction.description_length_errors.
  destruct (500 <? js_length (trim input))%nat eqn:E; cbn.
  - apply Nat.ltb_lt in E. repeat split; try discriminate; try reflexivity.
    intros H. lia.
  - apply Nat.ltb_ge in E. repeat split; try discriminate; try reflexivity.
    intros _. exact E.
Qed.

(** A description of 256 accented letters, which take 512 bytes, is
    valid. *)
Lemma validateDescription_agrees_with_model_witness :
  String.length accented_text = 512%nat
  /\ c_isValid (Validators.validateDescription (SO := Reference.ascii_ops)
                  accented_text) = true.
Proof.
  split; [vm_compute; reflexivity|].
  destruct (validateDescription_agrees_with_model (SO := Reference.ascii_ops)
              accented_text) as (_ & Hvalid & _).
  apply Hvalid. apply Nat.leb_le. vm_compute. reflexivity.
Defined.

(** ** A corrupt store, seen from the Transaction Service *)

(** X24.  A data file whose text is not blank and fails to parse makes the
    service behave as on an empty store.  The first read of getTransactions recovers: the old
    text is kept under the [.corrupted] name of the call and the data file
    is reset; the second read finds the empty document.  The result is the
    empty list whatever the filters, and a later query finds the store
    empty as well. *)
Theorem corrupt_store_reads_as_empty
    {RT : Runtime} {JC : JsonCodec} (path : string) (now later : Z)
    (f g : Filters) (s : FS) (bad : File) :
  s !! path = Some bad ->
  Z.of_nat (String.length (content bad)) <= StorageService.maxSize ->
  is_blank (content bad) = false ->
  JSON_parse (content bad) = None ->
  reads_back emptyDoc ->
  exists s',
    TransactionService.getTransactions (ST := StorageService.storage path now) f s
    = (Return [], s')
    /\ s' !! StorageService.corruptedPath path now
       = Some {| content := content bad; mtime := now |}
    /\ s' !! path = Some {| content := JSON_stringify emptyDoc; mtime := now |}
    /\ TransactionService.getTransactions (ST := StorageService.storage path later) g s'
       = (Return [], s').
Proof.
  intros Hf Hsize Hblank Hparse Hback.
  set (s1 := <[StorageService.corruptedPath path now :=
                 {| content := content bad; mtime := now |}]> s).
  assert (Hread : StorageService.readData path now s
                  = (Return emptyDoc, written path now emptyDoc s1)).
  { rewrite (read_reaches_parse path now s bad Hf Hsize Hblank).
    unfold StorageService.parseDoc. rewrite Hparse.
    erewrite try_catch_throw by reflexivity. cbv beta iota.
    erewrite bind_return
      by (apply backupCorruptedFile_run; [exact Hf | apply Hback]).
    reflexivity. }
  assert (Hh : holds path (written path now emptyDoc s1) emptyDoc).
  { apply (written_holds path now emptyDoc s1 Hback). }
  exists (written path now emptyDoc s1). split.
  { unfold TransactionService.getTransactions.
    cbn [st_getExpenses st_getIncome StorageService.storage].
    unfold StorageService.getExpenses at 1.
    erewrite bind_return; cycle 1.
    { erewrite bind_return by exact Hread. reflexivity. }
    erewrite bind_return by (apply getIncome_holds; exact Hh). reflexivity. }
  split.
  { rewrite written_other.
    - apply lookup_insert_eq.
    - apply corrupted_not_backup.
    - apply corrupted_ne_path.
    - apply corrupted_ne_tempPath.
    - apply corrupted_ne_backupPath. }
  split; [apply written_data_file|].
  apply (service_getTransactions path later g _ _ Hh).
Qed.

Lemma corrupt_store_reads_as_empty_witness :
  exists s',
    TransactionService.getTransactions (RT := Reference.utc)
      (ST := StorageService.storage (RT := Reference.utc) (JC := Reference.tiny_codec)
               data_file 1718013600000)
      food_in_january corrupt_directory
    = (Return [], s')
    /\ s' !! "transactions.json.corrupted.2024-06-10T10-00-00-000Z.bak"
       = Some {| content := "{oops"; mtime := 1718013600000 |}.
Proof.
  destruct (corrupt_store_reads_as_empty (RT := Reference.utc)
              (JC := Reference.tiny_codec) data_file 1718013600000 1718013660000
              food_in_january no_filters corrupt_directory
              {| content := "{oops"; mtime := 1700000000000 |})
    as (s' & Hrun & Hbak & _).
  - reflexivity.
  - vm_compute. discriminate.
  - reflexivity.
  - reflexivity.
  - repeat split; vm_compute; congruence.
  - exists s'. split; [exact Hrun | exact Hbak].
Defined.

(** ** Dates that do not parse *)

(** X25.  A date that does not parse is reported as missing.  The constructor
    stores [''] for a string the host cannot parse, for an invalid Date
    object and for no date at all, so that validate says "Date is
    required"; addExpense and addIncome then report the failure, with that
    message among those of the validation, and leave the store alone.  A
    date-only string that parses is stored as it is and passes the date
    check. *)
Theorem unparseable_date_is_reported_as_missing
    {RT : Runtime} {S : Type} {ST : Storage S}
    (env : Env) (amt : JsVal) (dt : DateInput) (kind desc cur : JsVal) (s : S) :
  let built := Expense.new env amt dt kind (default_param (VStr "") desc)
                 (default_param (VStr "$") cur) None in
  let item := Income.new env amt dt kind (default_param (VStr "") desc)
                (default_param (VStr "$") cur) None in
  (DateUtils.new_Date dt = None ->
   date built = "" /\ date item = ""
   /\ In "Date is required" (errors (Expense.validate built))
   /\ In "Date is required" (errors (Income.validate item))
   /\ TransactionService.addExpense env amt dt kind desc cur s
      = (Return (TransactionService.failure
                   (join ", " (errors (Expense.validate built)))), s)
   /\ TransactionService.addIncome env amt dt kind desc cur s
      = (Return (TransactionService.failure
                   (join ", " (errors (Income.validate item)))), s))
  /\ (forall str t, dt = DStr str -> Date_parse str = Some t ->
        DateUtils.isYMD str = true ->
        date built = str /\ Transaction.date_errors (date built) = []).
Proof.
  intros built item. split.
  - intros Hnone.
    assert (Hdate : DateUtils.formatDateISO dt = "").
    { destruct dt as [str|[t|]|]; simpl in *; try reflexivity.
      - rewrite Hnone. reflexivity.
      - discriminate. }
    assert (He : In "Date is required" (errors (Expense.validate built))).
    { cbn [errors Expense.validate mkValidation Transaction.validate].
      unfold Transaction.validate_errors.
      apply in_or_app. left. apply in_or_app. right. apply in_or_app. left.
      cbn [date built Expense.new Transaction.new]. rewrite Hdate. simpl. tauto. }
    assert (Hi : In "Date is required" (errors (Income.validate item))).
    { cbn [errors Income.validate mkValidation Transaction.validate].
      unfold Transaction.validate_errors.
      apply in_or_app. left. apply in_or_app. right. apply in_or_app. left.
      cbn [date item Income.new Transaction.new]. rewrite Hdate. simpl. tauto. }
    split; [exact Hdate|]. split; [exact Hdate|]. split; [exact He|]. split; [exact Hi|].
    split.
    + apply addExpense_invalid. exact (mkValidation_invalid _ _ He).
    + apply addIncome_invalid. exact (mkValidation_invalid _ _ Hi).
  - intros str t -> Hparse Hymd.
    assert (Hdate : date built = str).
    { cbn [date built Expense.new Transaction.new DateUtils.formatDateISO].
      rewrite Hparse, Hymd. reflexivity. }
    split; [exact Hdate|]. rewrite Hdate. unfold Transaction.date_errors.
    rewrite Hparse. destruct str; [discriminate Hymd | reflexivity].
Qed.

(** 30 February does not parse. *)
Lemma unparseable_date_is_reported_as_missing_witness :
  TransactionService.addExpense (RT := Reference.utc) (ST := Reference.memory)
    june_10th (VNum 3.5) (DStr "2024-02-30") (VStr "Food") VUndefined VUndefined ledger
  = (Return (TransactionService.failure "Date is required"), ledger).
Proof.
  destruct (unparseable_date_is_reported_as_missing (RT := Reference.utc)
              (ST := Reference.memory) june_10th (VNum 3.5) (DStr "2024-02-30")
              (VStr "Food") VUndefined VUndefined ledger) as [H _].
  destruct H as (_ & _ & _ & _ & Hrun & _); [reflexivity|].
  rewrite Hrun. vm_compute. reflexivity.
Defined.

(** ** Date filters at their edges *)

(** X26.  How the date filter of getTransactions behaves at its edges.  As soon
    as one bound is given, a record whose stored date does not parse is
    dropped; with no bound given the filter drops nothing.  A bound that
    is given but does not parse constrains nothing.  A range that ends
    before the day it starts returns no record. *)
Theorem date_filter_edge_cases
    {RT : Runtime} {S : Type} {ST : Storage S} (f : Filters) (s s' : S)
    (l : list Txn) :
  TransactionService.getTransactions f s = (Return l, s') ->
  (date_truthy (f_startDate f) = true \/ date_truthy (f_endDate f) = true ->
   forall t, In t l -> Date_parse (date t) <> None)
  /\ (date_truthy (f_startDate f) = false -> date_truthy (f_endDate f) = false ->
      forall t, TransactionService.date_filter f t = true)
  /\ (date_truthy (f_startDate f) = true -> DateUtils.new_Date (f_startDate f) = None ->
      date_truthy (f_endDate f) = false ->
      forall t, TransactionService.date_filter f t = true
                <-> Date_parse (date t) <> None)
  /\ (forall a b,
        date_truthy (f_startDate f) = true -> date_truthy (f_endDate f) = true ->
        DateUtils.new_Date (f_startDate f) = Some a ->
        DateUtils.new_Date (f_endDate f) = Some b ->
        setHoursZero b < setHoursZero a ->
        l = []).
Proof.
  intros H.
  assert (exists es inc, l = TransactionService.select f es inc) as (es & inc & ->).
  { unfold TransactionService.getTransactions, bind, ret in H.
    destruct (st_getExpenses s) as [[es|e] s1]; [|discriminate].
    destruct (st_getIncome s1) as [[inc|e] s2]; [|discriminate].
    inversion H. eauto. }
  assert (Hin : forall t, In t (TransactionService.select f es inc) ->
                          TransactionService.date_filter f t = true).
  { intros t Ht. rewrite select_as_one_filter in Ht.
    apply (proj1 (Array_sort_In _ _ _)) in Ht.
    apply List.filter_In in Ht as [_ Hp]. apply passes_spec in Hp. tauto. }
  split; [|split; [|split]].
  - intros Hgiven t Ht.
    pose proof (proj1 (date_filter_spec f t) (Hin t Ht)) as Hw.
    destruct (Hw Hgiven) as (x & Hx & _). congruence.
  - intros Hs He t. unfold TransactionService.date_filter. rewrite Hs, He. reflexivity.
  - intros Hs Hnone He t. rewrite date_filter_spec. split.
    + intros Hw. destruct (Hw (or_introl Hs)) as (x & Hx & _). congruence.
    + intros Hp _. destruct (Date_parse (date t)) as [x|] eqn:E; [|contradiction].
      exists x. split; [exact E|]. split; intros b Hb Hnew; congruence.
  - intros a b Hs He Ha Hb Hlt.
    destruct (TransactionService.select f es inc) as [|t l'] eqn:E; [reflexivity|].
    exfalso.
    pose proof (proj1 (date_filter_spec f t) (Hin t (or_introl eq_refl))) as Hw.
    destruct (Hw (or_introl Hs)) as (x & _ & H1 & H2).
    specialize (H1 a Hs Ha). specialize (H2 b He Hb). lia.
Qed.

(** A range from 31 January back to 1 January. *)
Lemma date_filter_edge_cases_witness :
  TransactionService.getTransactions (RT := Reference.utc) (ST := Reference.memory)
    {| f_type := VUndefined; f_startDate := DStr "2024-01-31";
       f_endDate := DStr "2024-01-01"; f_category := VUndefined;
       f_source := VUndefined |} ledger
  = (Return [], ledger).
Proof.
  destruct (TransactionService.getTransactions (RT := Reference.utc)
              (ST := Reference.memory)
              {| f_type := VUndefined; f_startDate := DStr "2024-01-31";
                 f_endDate := DStr "2024-01-01"; f_category := VUndefined;
                 f_source := VUndefined |} ledger) as [[l|e] s'] eqn:E.
  - destruct (date_filter_edge_cases (RT := Reference.utc) (ST := Reference.memory)
                _ _ _ _ E) as (_ & _ & _ & H).
    rewrite (H 1706659200000 1704067200000); try reflexivity.
    vm_compute in E. inversion E. reflexivity.
  - vm_compute in E. discriminate.
Defined.

(** New York, 15 January 2024 in a range that starts on that day. *)
Lemma reference_range_is_calendar_range_witness :
  DateUtils.isDateInRange (RT := new_york) "2024-01-15"
    (DStr "2024-01-15") (DStr "2024-01-31") = true.
Proof.
  apply (reference_range_is_calendar_range (-18000000) "2024-01-15" "2024-01-15"
           "2024-01-31" 1705276800000 1705276800000 1706659200000).
  - reflexivity.
  - reflexivity.
  - reflexivity.
  - lia.
Defined.

(** ** Records of the same date *)

Section StableSort.
Context {A : Type} (cmp : A -> A -> Z) (key : A -> Z).

Lemma sort_insert_stable (x : A) (l : list A) (k : Z) :
  (forall b, In b l -> cmp x b = key b - key x) ->
  List.filter (fun a => key a =? k) (sort_insert cmp x l)
  = List.filter (fun a => key a =? k) (x :: l).
Proof.
  intros Hcmp. induction l as [|y l IH]; [reflexivity|].
  cbn [sort_insert]. destruct (cmp x y <=? 0) eqn:E; [reflexivity|].
  apply Z.leb_gt in E. rewrite (Hcmp y) in E by (left; reflexivity).
  cbn [List.filter] in IH |- *.
  rewrite IH by (intros b Hb; apply Hcmp; right; exact Hb).
  destruct (key x =? k) eqn:Ex; [|reflexivity].
  apply Z.eqb_eq in Ex. destruct (key y =? k) eqn:Ey; [|reflexivity].
  apply Z.eqb_eq in Ey. lia.
Qed.

Lemma Array_sort_stable (l : list A) (k : Z) :
  (forall a b, In a l -> In b l -> cmp a b = key b - key a) ->
  List.filter (fun a => key a =? k) (Array_sort cmp l)
  = List.filter (fun a => key a =? k) l.
Proof.
  induction l as [|x l IH]; intros Hcmp; [reflexivity|].
  cbn [Array_sort]. rewrite sort_insert_stable.
  - cbn [List.filter]. rewrite IH by (intros a b Ha Hb; apply Hcmp; right; assumption).
    reflexivity.
  - intros b Hb. apply Hcmp; [left; reflexivity | right].
    apply (proj1 (Array_sort_In cmp b l)). exact Hb.
Qed.
End StableSort.

(** X27.  Records of the same date come out in the order in which they are
    stored, the expenses before the income: when the dates of the records
    that pass the filters parse, the records of any one date appear in the
    result of getTransactions in the order they have among the stored
    expenses followed by the stored income. *)
Theorem getTransactions_keeps_stored_order_within_a_date
    {RT : Runtime} {S : Type} {ST : Storage S} (f : Filters) (s s1 s2 : S)
    (es inc : list Txn) :
  st_getExpenses s = (Return es, s1) ->
  st_getIncome s1 = (Return inc, s2) ->
  (forall t, In t (tagged es inc) -> passes f t = true ->
             Date_parse (date t) <> None) ->
  exists l,
    TransactionService.getTransactions f s = (Return l, s2)
    /\ forall k, dated k l = dated k (List.filter (passes f) (tagged es inc)).
Proof.
  intros Hes Hinc Hvalid. exists (TransactionService.select f es inc). split.
  - unfold TransactionService.getTransactions.
    erewrite bind_return by exact Hes. erewrite bind_return by exact Hinc.
    reflexivity.
  - intros k. rewrite select_as_one_filter. unfold dated.
    apply Array_sort_stable. intros a b Ha Hb.
    apply List.filter_In in Ha as [Ha Hpa]. apply List.filter_In in Hb as [Hb Hpb].
    apply by_date_desc_is_key; apply Hvalid; assumption.
Qed.

(** The rent and the salary are both dated 31 January: the rent, an
    expense, comes first although it was stored last. *)
Lemma getTransactions_keeps_stored_order_within_a_date_witness :
  exists l,
    TransactionService.getTransactions (RT := Reference.utc) (ST := Reference.memory)
      no_filters (ledger_with [groceries; bus; dinner; lunch; rent])
    = (Return l, ledger_with [groceries; bus; dinner; lunch; rent])
    /\ dated (RT := Reference.utc) 1706659200000 l = [rent; salary].
Proof.
  destruct (getTransactions_keeps_stored_order_within_a_date (RT := Reference.utc)
              (ST := Reference.memory) no_filters
              (ledger_with [groceries; bus; dinner; lunch; rent])
              (ledger_with [groceries; bus; dinner; lunch; rent])
              (ledger_with [groceries; bus; dinner; lunch; rent])
              [groceries; bus; dinner; lunch; rent] [salary] eq_refl eq_refl)
    as (l & Hrun & Hsame).
  - intros t Ht _. simpl in Ht.
    destruct Ht as [<-|[<-|[<-|[<-|[<-|[<-|[]]]]]]]; vm_compute; discriminate.
  - exists l. split; [exact Hrun|]. rewrite Hsame. vm_compute. reflexivity.
Defined.

(** ** What a successful add has stored *)

Section StoredRecords.
Context {RT : Runtime}.

Lemma amount_errors_nil (a : JsVal) :
  Transaction.amount_errors a = [] -> positive_finite a = true.
Proof.
  intros H. destruct (positive_finite a) eqn:E; [reflexivity|].
  destruct (amount_errors_bad a E) as (m & _ & Hm). congruence.
Qed.

Lemma member_errors_nil (what what_lc : string) (allowed : list string) (v : JsVal) :
  member_errors what what_lc allowed v = [] ->
  exists c, v = VStr c /\ In c allowed.
Proof.
  unfold member_errors. destruct (truthy v); cbn [negb]; [|discriminate].
  destruct v as [| |b|x|c|]; try discriminate.
  destruct (includes allowed c) eqn:E; [|discriminate]. intros _.
  exists c. split; [reflexivity|]. unfold includes in E.
  apply existsb_exists in E as (c' & Hin & Heq). apply String.eqb_eq in Heq.
  subst c'. exact Hin.
Qed.

Lemma description_errors_nil (d : JsVal) :
  Transaction.description_type_errors d = [] ->
  Transaction.description_length_errors d = [] ->
  d = VUndefined \/ d = VNull
  \/ exists str, d = VStr str /\ (js_length str <= 500)%nat.
Proof.
  destruct d as [| |b|x|str|long]; try discriminate; try tauto.
  intros _. unfold Transaction.description_length_errors.
  destruct (500 <? js_length str)%nat eqn:E; [discriminate|].
  apply Nat.ltb_ge in E. eauto.
Qed.

Lemma validate_errors_nil (t : Txn) :
  Transaction.validate_errors t = [] ->
  positive_finite (amount t) = true
  /\ (exists d, Date_parse (date t) = Some d)
  /\ (description t = VUndefined \/ description t = VNull
      \/ exists str, description t = VStr str /\ (js_length str <= 500)%nat).
Proof.
  intros H. pose proof (valid_base_date t H) as Hd.
  unfold Transaction.validate_errors in H.
  apply List.app_eq_nil in H as [Ha H]. apply List.app_eq_nil in H as [_ H].
  apply List.app_eq_nil in H as [Ht Hl].
  split; [apply amount_errors_nil; exact Ha|]. split; [exact Hd|].
  apply description_errors_nil; assumption.
Qed.
End StoredRecords.

(** X28.  What addExpense and addIncome report as added satisfies the rules of
    the model.  When the result says success, it carries the record that
    the storage object was asked to store, and that record has the fresh
    uuid as its id, its type, the amount handed in, which is a positive
    finite number, a date that parses, a category (source) from the fixed
    list, and a description that is null or a string whose [length] is at
    most 500 UTF-16 code units.  The currency is stored as handed in,
    unchecked. *)
Theorem successful_add_stores_valid_record
    {RT : Runtime} {S : Type} {ST : Storage S}
    (env : Env) (amt : JsVal) (dt : DateInput) (kind desc cur : JsVal)
    (s s' : S) (r : Result) :
  (TransactionService.addExpense env amt dt kind desc cur s = (Return r, s') ->
   success r = true ->
   exists stored,
     payload r = Some stored
     /\ st_addExpense stored s = (Return tt, s')
     /\ id stored = uuid env /\ type stored = "expense"
     /\ amount stored = amt /\ positive_finite amt = true
     /\ (exists t, Date_parse (date stored) = Some t)
     /\ (exists c, category stored = VStr c /\ In c EXPENSE_CATEGORIES)
     /\ (description stored = VNull
         \/ exists str, description stored = VStr str
                        /\ (js_length str <= 500)%nat)
     /\ currency stored = default_param (VStr "$") cur)
  /\ (TransactionService.addIncome env amt dt kind desc cur s = (Return r, s') ->
      success r = true ->
      exists stored,
        payload r = Some stored
        /\ st_addIncome stored s = (Return tt, s')
        /\ id stored = uuid env /\ type stored = "income"
        /\ amount stored = amt /\ positive_finite amt = true
        /\ (exists t, Date_parse (date stored) = Some t)
        /\ (exists c, source stored = VStr c /\ In c INCOME_SOURCES)
        /\ (description stored = VNull
            \/ exists str, description stored = VStr str
                           /\ (js_length str <= 500)%nat)
        /\ currency stored = default_param (VStr "$") cur).
Proof.
  assert (Hdesc : forall d,
            default_param (VStr "") (default_param (VStr "") d) = VUndefined -> False).
  { intros d. destruct d; discriminate. }
  assert (Hcur : forall c,
            default_param (VStr "$") (default_param (VStr "$") c)
            = default_param (VStr "$") c).
  { intros c. destruct c; reflexivity. }
  split.
  - unfold TransactionService.addExpense, try_catch. cbv zeta.
    set (expense := Expense.new env amt dt kind _ _ None).
    destruct (isValid (Expense.validate expense)) eqn:Hvalid; cbn [negb].
    + unfold bind, ret.
      destruct (st_addExpense (Expense.toJSON expense) s) as [[[]|e] s0] eqn:Hstore.
      * intros H _. inversion H; subst r s0. clear H.
        exists (Expense.toJSON expense). split; [reflexivity|]. split; [exact Hstore|].
        apply isValid_errors_nil in Hvalid.
        apply List.app_eq_nil in Hvalid as [Hbase Hcat].
        apply validate_errors_nil in Hbase as (Ha & Hd & Hdes).
        apply member_errors_nil in Hcat as (c & Hc & Hin).
        split; [reflexivity|]. split; [reflexivity|]. split; [reflexivity|].
        split; [exact Ha|]. split; [exact Hd|]. split; [exists c; split; assumption|].
        split; [|apply Hcur].
        destruct Hdes as [Hu|[Hn|Hs]]; [|left; exact Hn | right; exact Hs].
        exfalso. exact (Hdesc desc Hu).
      * intros H Hs. inversion H; subst r. discriminate Hs.
    + unfold ret. intros H Hs. inversion H; subst r. discriminate Hs.
  - unfold TransactionService.addIncome, try_catch. cbv zeta.
    set (item := Income.new env amt dt kind _ _ None).
    destruct (isValid (Income.validate item)) eqn:Hvalid; cbn [negb].
    + unfold bind, ret.
      destruct (st_addIncome (Income.toJSON item) s) as [[[]|e] s0] eqn:Hstore.
      * intros H _. inversion H; subst r s0. clear H.
        exists (Income.toJSON item). split; [reflexivity|]. split; [exact Hstore|].
        apply isValid_errors_nil in Hvalid.
        apply List.app_eq_nil in Hvalid as [Hbase Hsrc].
        apply validate_errors_nil in Hbase as (Ha & Hd & Hdes).
        apply member_errors_nil in Hsrc as (c & Hc & Hin).
        split; [reflexivity|]. split; [reflexivity|]. split; [reflexivity|].
        split; [exact Ha|]. split; [exact Hd|]. split; [exists c; split; assumption|].
        split; [|apply Hcur].
        destruct Hdes as [Hu|[Hn|Hs]]; [|left; exact Hn | right; exact Hs].
        exfalso. exact (Hdesc desc Hu).
      * intros H Hs. inversion H; subst r. discriminate Hs.
    + unfold ret. intros H Hs. inversion H; subst r. discriminate Hs.
Qed.

(** The coffee added to the ledger kept in memory. *)
Lemma successful_add_stores_valid_record_witness :
  exists stored,
    payload {| success := true; message := "Expense added successfully";
               payload := Some coffee |} = Some stored
    /\ positive_finite (amount stored) = true
    /\ exists c, category stored = VStr c /\ In c EXPENSE_CATEGORIES.
Proof.
  destruct (successful_add_stores_valid_record (RT := Reference.utc)
              (ST := Reference.memory) june_10th (VNum 3.5) (DStr "2024-06-10")
              (VStr "Food") (VStr "Coffee") VUndefined ledger
              (ledger_with [groceries; bus; dinner; lunch; coffee])
              {| success := true; message := "Expense added successfully";
                 payload := Some coffee |}) as [H _].
  destruct H as (stored & Hp & _ & _ & _ & Ha & Hpos & _ & Hc & _).
  - vm_compute. reflexivity.
  - reflexivity.
  - exists stored. split; [exact Hp|]. split; [rewrite Ha; exact Hpos | exact Hc].
Defined.
